(** * StockSense: a shallow embedding of the backend and of the services

    The development follows the programs of the repository:

    - [backend/index.js] with [backend/models/user.js] and
      [backend/models/portfolio.js]: the Express handlers, the bearer
      middleware and the two Sequelize models;
    - [project/src/services/newsService.ts]: the news cache, the fetch
      pipeline with its fallback list and the keyword classifiers, the
      portfolio filter and the news for given stocks;
    - the AI service built on the OpenRouter client: the insights, the
      market sentiment and the portfolio risk, with their keyword
      fallbacks;
    - the [App] component: the check of the stored session.

    Conventions.  JavaScript strings are modelled by [string]; case mapping
    is the ASCII one (code units above 127 are left alone), so the results
    speak about ASCII text.  JSON numbers are exact rationals ([Q]).  Time
    is the number of milliseconds since the epoch ([Z]); one call of a
    function reads the clock once.  Third-party code (bcryptjs,
    jsonwebtoken, validator's tests for e-mail addresses and blank text)
    enters through the class [ThirdParty], and the news provider through
    the [world] a call runs in, so every theorem holds for any
    implementation of them. *)

From Stdlib Require Import Bool Arith ZArith QArith Qround Lia List.
From Stdlib Require Import Ascii String.
From Stdlib Require Import Permutation Sorted Lqa DecimalString Qminmax.
Import ListNotations.

Local Open Scope list_scope.
Local Open Scope string_scope.

(* ===================================================================== *)
(** * JavaScript string primitives                                        *)
(* ===================================================================== *)

Module Js.

(** [c.toUpperCase()] and [c.toLowerCase()] on one ASCII code unit. *)
Definition upper_ascii (c : ascii) : ascii :=
  let n := N_of_ascii c in
  if (97 <=? n)%N && (n <=? 122)%N then ascii_of_N (n - 32) else c.

Definition lower_ascii (c : ascii) : ascii :=
  let n := N_of_ascii c in
  if (65 <=? n)%N && (n <=? 90)%N then ascii_of_N (n + 32) else c.

Fixpoint toUpperCase (s : string) : string :=
  match s with
  | EmptyString => EmptyString
  | String c r => String (upper_ascii c) (toUpperCase r)
  end.

Fixpoint toLowerCase (s : string) : string :=
  match s with
  | EmptyString => EmptyString
  | String c r => String (lower_ascii c) (toLowerCase r)
  end.

(** [s.includes(k)]: [k] occurs somewhere in [s]. *)
Fixpoint includes (s k : string) : bool :=
  prefix k s ||
  match s with
  | EmptyString => false
  | String _ r => includes r k
  end.

(** [ks.some(k => s.includes(k))]. *)
Definition includes_any (s : string) (ks : list string) : bool :=
  existsb (includes s) ks.

(** [s.split(' ')]: the pieces between single spaces. *)
Fixpoint split_space_aux (cur : string) (s : string) : list string :=
  match s with
  | EmptyString => [cur]
  | String c r =>
      if Ascii.eqb c " "%char then cur :: split_space_aux EmptyString r
      else split_space_aux (cur ++ String c EmptyString) r
  end.

Definition split_space (s : string) : list string :=
  split_space_aux EmptyString s.

(** Truthiness of a string value: [!s] holds exactly for the empty one. *)
Definition truthy_str (s : string) : bool :=
  negb (String.eqb s EmptyString).

(** Truthiness of a value that may be [undefined]. *)
Definition truthy_opt (o : option string) : bool :=
  match o with
  | Some s => truthy_str s
  | None => false
  end.

(** A call either returns or throws. *)
Inductive outcome (A : Type) :=
| Returned (a : A)
| Thrown.
Arguments Returned {A} a.
Arguments Thrown {A}.

(** The propositional reading of "occurs in". *)
Definition Substring (k s : string) : Prop :=
  exists pre post, s = pre ++ k ++ post.

End Js.

(* ===================================================================== *)
(** * The news service                                                    *)
(* ===================================================================== *)

Module News.

Import Js.

(** ['market' | 'company' | 'policy' | 'economy'] *)
Inductive category := Market | Company | Policy | Economy.

Definition category_name (c : category) : string :=
  match c with
  | Market => "market"
  | Company => "company"
  | Policy => "policy"
  | Economy => "economy"
  end.

Definition policy_keywords : list string :=
  ["rbi"; "policy"; "regulation"; "government"].
Definition economy_keywords : list string :=
  ["gdp"; "inflation"; "economy"; "economic"].
Definition market_index_keywords : list string :=
  ["nifty"; "sensex"; "market"; "index"].

Definition categorizeNews (title description : string) : category :=
  let text := toLowerCase (title ++ " " ++ description) in
  if includes text "rbi" || includes text "policy"
     || includes text "regulation" || includes text "government"
  then Policy
  else if includes text "gdp" || includes text "inflation"
          || includes text "economy" || includes text "economic"
  then Economy
  else if includes text "nifty" || includes text "sensex"
          || includes text "market" || includes text "index"
  then Market
  else Company.

(** ** Data *)

(** The entity fields the service reads. *)
Record entity := {
  ent_symbol : string;
  ent_type : string;
  ent_country : string
}.

(** A provider article.  [art_published_at] is the instant that
    [new Date(article.published_at).getTime()] yields, [None] when the text
    is not a date (NaN).  A missing [description] or [snippet] is the empty
    string (both are falsy), a missing [entities] is [None]. *)
Record article := {
  art_uuid : string;
  art_title : string;
  art_description : string;
  art_snippet : string;
  art_url : string;
  art_source : string;
  art_published_at : option Z;
  art_entities : option (list entity)
}.

Record NewsItem := {
  item_id : string;
  item_headline : string;
  item_summary : string;
  item_source : string;
  item_timestamp : option Z;
  item_url : string;
  item_relevantStocks : list string;
  item_category : category;
  item_isRecent : bool
}.

(** [newsCache]: [{ data, timestamp }]. *)
Record cache_entry := {
  cache_data : list NewsItem;
  cache_timestamp : Z
}.

(** What [localStorage.getItem('newsCache')] followed by [JSON.parse] finds:
    nothing, text that does not decode to an entry, or an entry. *)
Inductive stored_cache :=
| LsAbsent
| LsGarbled
| LsEntry (e : cache_entry).

(** The query parameters that tell the three strategies apart. *)
Record query := {
  req_api_token : string;
  req_countries : option string;
  req_search : option string;
  req_limit : string
}.

(** The provider's answer to one [fetch]: the call rejects, or a response
    arrives whose [ok] flag and decoded body are given.  Decoding may throw
    (a body that is not a JSON object counts as such, since reading its
    [data] throws) and [data] may be missing. *)
Inductive json_body :=
| JsonThrows
| JsonData (data : option (list article)).

Inductive fetch_outcome :=
| FetchThrows
| FetchResponse (ok : bool) (body : json_body).

Record world := {
  now : Z;
  VITE_MARKETAUX_API_KEY : option string;
  provider : query -> fetch_outcome;
  storage_accepts : bool
}.

Definition CACHE_DURATION : Z := 20 * 60 * 1000.

Definition day_ms : Z := 24 * 60 * 60 * 1000.

(** ** Classifiers *)

Definition headline_text (headline summary : string) : string :=
  toLowerCase (headline ++ " " ++ summary).

Definition checkMarketRelevance (headline summary : string) : bool :=
  includes_any (headline_text headline summary)
    ["nifty"; "sensex"; "bse"; "nse"; "market"; "stock"; "share"; "equity";
     "trading"; "investor"; "investment"; "portfolio"; "mutual fund";
     "ipo"; "listing"; "earnings"; "quarterly"; "results"; "profit";
     "revenue"; "dividend"; "bonus"; "split"; "merger"; "acquisition";
     "bank"; "financial"; "sector"; "industry"; "corporate"].

Definition checkIndianMarketRelevance (headline summary : string) : bool :=
  includes_any (headline_text headline summary)
    ["india"; "indian"; "mumbai"; "delhi"; "bangalore"; "hyderabad";
     "rupee"; "inr"; "rbi"; "sebi"; "modi"; "budget"; "gst";
     "reliance"; "tata"; "adani"; "ambani"; "infosys"; "wipro";
     "hdfc"; "icici"; "sbi"; "axis"; "kotak"; "bharti"; "airtel";
     "coal india"; "ongc"; "ntpc"; "power grid"; "oil india";
     "larsen"; "toubro"; "mahindra"; "maruti"; "hero motocorp"].

Definition checkBusinessRelevance (headline summary : string) : bool :=
  includes_any (headline_text headline summary)
    ["merger"; "acquisition"; "joint venture"; "partnership"; "collaboration";
     "investment"; "funding"; "startup"; "ceo"; "founder"; "launch";
     "product"; "service"; "technology"; "innovation"; "research";
     "development"; "patent"; "trademark"; "copyright"; "licensing";
     "regulation"; "compliance"; "audit"; "financial"; "report";
     "statement"; "forecast"; "guidance"; "risk"; "challenge"; "opportunity"].

Definition isCompletelyIrrelevant (headline summary : string) : bool :=
  includes_any (headline_text headline summary)
    ["sports"; "entertainment"; "celebrity"; "gossip"; "reality show";
     "movie"; "film"; "music"; "concert"; "theater"; "art";
     "fashion"; "beauty"; "lifestyle"; "food"; "recipe";
     "travel"; "vacation"; "holiday"; "leisure"; "hobby";
     "pets"; "animal"; "nature"; "environment"; "weather";
     "science"; "health"; "fitness"; "wellness"; "meditation";
     "yoga"; "spirituality"; "philosophy"; "religion"; "mythology"].

(** The regular expression [/\b(w1|w2|...)\b/i]: one of the words, with a
    word boundary on both sides.  A word character is [[A-Za-z0-9_]]. *)
Definition is_word_char (c : ascii) : bool :=
  let n := N_of_ascii c in
  ((97 <=? n) && (n <=? 122) || (65 <=? n) && (n <=? 90)
   || (48 <=? n) && (n <=? 57) || (n =? 95))%N.

Fixpoint drop (n : nat) (s : string) : string :=
  match n, s with
  | O, _ => s
  | S _, EmptyString => EmptyString
  | S m, String _ r => drop m r
  end.

Definition starts_with_word_char (s : string) : bool :=
  match s with
  | EmptyString => false
  | String c _ => is_word_char c
  end.

Definition word_here (ws : list string) (s : string) : bool :=
  existsb (fun w => prefix w s
                    && negb (starts_with_word_char (drop (String.length w) s)))
          ws.

Fixpoint whole_word_from (prev_is_word : bool) (ws : list string) (s : string)
  : bool :=
  (negb prev_is_word && word_here ws s) ||
  match s with
  | EmptyString => false
  | String c r => whole_word_from (is_word_char c) ws r
  end.

Definition financial_words : list string :=
  ["money"; "finance"; "business"; "company"; "corporate"; "industry";
   "sector"; "economic"; "growth"; "profit"; "revenue"; "earnings";
   "investment"; "trade"; "commercial"].

Definition hasFinancialWords (headline summary : string) : bool :=
  whole_word_from false financial_words
    (toLowerCase (headline ++ " " ++ summary)).

(** ** The fallback list *)

Definition getFallbackNews (currentTime : Z) : list NewsItem :=
  [
    {| item_id := "fallback-1";
       item_headline := "Indian Markets Show Resilience Amid Global Uncertainty";
       item_summary := "Nifty 50 and Sensex maintain steady performance as investors focus on domestic fundamentals and upcoming earnings season. Market participants remain cautiously optimistic.";
       item_source := "Market News";
       item_timestamp := Some (currentTime - 1000 * 60 * 30);
       item_url := "#";
       item_relevantStocks := ["NIFTY50"];
       item_category := Market;
       item_isRecent := true |};
    {| item_id := "fallback-2";
       item_headline := "RBI Monetary Policy Decision Awaited by Market Participants";
       item_summary := "Investors and analysts closely watching for any changes in repo rate and policy stance in the upcoming RBI meeting. Banking sector stocks show mixed performance.";
       item_source := "Economic News";
       item_timestamp := Some (currentTime - 1000 * 60 * 60);
       item_url := "#";
       item_relevantStocks := ["HDFCBANK"; "ICICIBANK"];
       item_category := Policy;
       item_isRecent := true |};
    {| item_id := "fallback-3";
       item_headline := "Technology Sector Leads Market Rally";
       item_summary := "IT stocks show strong performance driven by digital transformation demand and favorable currency movements. Major players report strong quarterly results.";
       item_source := "Tech News";
       item_timestamp := Some (currentTime - 1000 * 60 * 90);
       item_url := "#";
       item_relevantStocks := ["TCS"; "INFY"; "WIPRO"];
       item_category := Company;
       item_isRecent := true |};
    {| item_id := "fallback-4";
       item_headline := "Reliance Industries Reports Strong Q4 Earnings";
       item_summary := "Oil-to-chemicals giant Reliance Industries posted robust quarterly earnings, beating analyst estimates. Retail and telecom segments show continued growth.";
       item_source := "Business News";
       item_timestamp := Some (currentTime - 1000 * 60 * 120);
       item_url := "#";
       item_relevantStocks := ["RELIANCE"];
       item_category := Company;
       item_isRecent := true |};
    {| item_id := "fallback-5";
       item_headline := "HDFC Bank Maintains Leadership in Digital Banking";
       item_summary := "Private sector lender continues to expand its digital footprint with new fintech partnerships and innovative banking solutions for retail customers.";
       item_source := "Banking News";
       item_timestamp := Some (currentTime - 1000 * 60 * 150);
       item_url := "#";
       item_relevantStocks := ["HDFCBANK"];
       item_category := Company;
       item_isRecent := true |};
    {| item_id := "fallback-6";
       item_headline := "FII Flows Show Recovery After Recent Volatility";
       item_summary := "Foreign institutional investors return to Indian markets with net inflows recorded this week, signaling renewed confidence in domestic growth prospects.";
       item_source := "Investment News";
       item_timestamp := Some (currentTime - 1000 * 60 * 180);
       item_url := "#";
       item_relevantStocks := ["NIFTY50"];
       item_category := Market;
       item_isRecent := true |};
    {| item_id := "fallback-7";
       item_headline := "Adani Group Stocks Rebound on Infrastructure Push";
       item_summary := "Adani portfolio companies see strong investor interest as the group announces major infrastructure projects across renewable energy and logistics.";
       item_source := "Infrastructure News";
       item_timestamp := Some (currentTime - 1000 * 60 * 210);
       item_url := "#";
       item_relevantStocks := ["ADANIGREEN"];
       item_category := Company;
       item_isRecent := true |};
    {| item_id := "fallback-8";
       item_headline := "Government Announces New Manufacturing Incentives";
       item_summary := "Centre unveils fresh policy measures to boost domestic manufacturing, with focus on electronics, textiles, and automotive sectors.";
       item_source := "Policy News";
       item_timestamp := Some (currentTime - 1000 * 60 * 240);
       item_url := "#";
       item_relevantStocks := ["MARUTI"; "MAHINDRA"];
       item_category := Policy;
       item_isRecent := true |};
    {| item_id := "fallback-9";
       item_headline := "Pharmaceutical Sector Gains on Export Demand";
       item_summary := "Indian pharma companies report increased export orders, particularly in generic drugs and active pharmaceutical ingredients (APIs).";
       item_source := "Pharma News";
       item_timestamp := Some (currentTime - 1000 * 60 * 270);
       item_url := "#";
       item_relevantStocks := ["SUNPHARMA"; "DRREDDY"];
       item_category := Company;
       item_isRecent := true |};
    {| item_id := "fallback-10";
       item_headline := "Steel Industry Outlook Remains Positive";
       item_summary := "Domestic steel demand continues to grow driven by infrastructure projects and construction activity. Major steel producers report capacity expansion plans.";
       item_source := "Steel News";
       item_timestamp := Some (currentTime - 1000 * 60 * 300);
       item_url := "#";
       item_relevantStocks := ["TATASTEEL"; "JSWSTEEL"];
       item_category := Company;
       item_isRecent := true |};
    {| item_id := "fallback-11";
       item_headline := "Auto Sector Shows Signs of Recovery";
       item_summary := "Vehicle sales data indicates improving consumer demand, with both passenger and commercial vehicle segments showing growth momentum.";
       item_source := "Auto News";
       item_timestamp := Some (currentTime - 1000 * 60 * 330);
       item_url := "#";
       item_relevantStocks := ["MARUTI"; "TATAMOTORS"];
       item_category := Company;
       item_isRecent := true |};
    {| item_id := "fallback-12";
       item_headline := "Renewable Energy Investments Surge";
       item_summary := "India attracts record investments in renewable energy sector as the country accelerates towards its clean energy targets.";
       item_source := "Energy News";
       item_timestamp := Some (currentTime - 1000 * 60 * 360);
       item_url := "#";
       item_relevantStocks := ["ADANIGREEN"; "TATAPOWER"];
       item_category := Economy;
       item_isRecent := true |};
    {| item_id := "fallback-13";
       item_headline := "Digital Payment Adoption Continues Growth";
       item_summary := "UPI transactions hit new records as digital payment adoption accelerates across urban and rural markets.";
       item_source := "Fintech News";
       item_timestamp := Some (currentTime - 1000 * 60 * 390);
       item_url := "#";
       item_relevantStocks := ["PAYTM"; "HDFCBANK"];
       item_category := Company;
       item_isRecent := true |};
    {| item_id := "fallback-14";
       item_headline := "Startup Ecosystem Attracts Global Attention";
       item_summary := "Indian startups continue to attract significant venture capital funding, with several new unicorns emerging across different sectors.";
       item_source := "Startup News";
       item_timestamp := Some (currentTime - 1000 * 60 * 420);
       item_url := "#";
       item_relevantStocks := ["NYKAA"; "ZOMATO"];
       item_category := Company;
       item_isRecent := false |};
    {| item_id := "fallback-15";
       item_headline := "Monsoon Forecast Positive for Agricultural Sector";
       item_summary := "Weather department predicts normal monsoon, raising hopes for good agricultural output and rural demand recovery.";
       item_source := "Agriculture News";
       item_timestamp := Some (currentTime - 1000 * 60 * 450);
       item_url := "#";
       item_relevantStocks := ["ITC"; "UBL"];
       item_category := Economy;
       item_isRecent := false |}
  ]%Z.

(** ** The cache *)

(** The module's state: the [newsCache] variable and the ['newsCache'] key
    of [localStorage]. *)
Record service_state := {
  newsCache : option cache_entry;
  localStorage_newsCache : stored_cache
}.

(** [Date.now() - entry.timestamp < CACHE_DURATION] *)
Definition unexpired (w : world) (e : cache_entry) : bool :=
  (now w - cache_timestamp e <? CACHE_DURATION)%Z.

(** The block run when the module is loaded. *)
Definition initCache (w : world) (stored : stored_cache) : option cache_entry :=
  match stored with
  | LsEntry parsedCache =>
      if unexpired w parsedCache then Some parsedCache else None
  | LsGarbled => None
  | LsAbsent => None
  end.

(** The second half of [getCachedNews]: the copy kept in [localStorage]. *)
Definition cachedInLocalStorage (w : world) (st : service_state)
  : list NewsItem * service_state :=
  match localStorage_newsCache st with
  | LsEntry parsedCache =>
      if unexpired w parsedCache
      then (cache_data parsedCache,
            {| newsCache := Some parsedCache;
               localStorage_newsCache := localStorage_newsCache st |})
      else ([], st)
  | LsGarbled => ([], st)
  | LsAbsent => ([], st)
  end.

Definition getCachedNews (w : world) (st : service_state)
  : list NewsItem * service_state :=
  match newsCache st with
  | Some c =>
      if unexpired w c then (cache_data c, st)
      else cachedInLocalStorage w st
  | None => cachedInLocalStorage w st
  end.

Definition clearNewsCache (st : service_state) : service_state :=
  {| newsCache := None;
     localStorage_newsCache := localStorage_newsCache st |}.

Definition isCacheActive (w : world) (st : service_state) : bool :=
  match newsCache st with
  | Some c => unexpired w c
  | None => false
  end.

(** ** Talking to the provider *)

Definition getApiKey (w : world) : outcome string :=
  match VITE_MARKETAUX_API_KEY w with
  | Some apiKey => if truthy_str apiKey then Returned apiKey else Thrown
  | None => Thrown
  end.

Definition globalParams (apiKey : string) : query :=
  {| req_api_token := apiKey; req_countries := None;
     req_search := None; req_limit := "50" |}.

Definition indiaParams (apiKey : string) : query :=
  {| req_api_token := apiKey; req_countries := Some "in";
     req_search := None; req_limit := "20" |}.

Definition keywordParams (apiKey keyword : string) : query :=
  {| req_api_token := apiKey; req_countries := None;
     req_search := Some keyword; req_limit := "10" |}.

(** [await fetch(url)], the [response.ok] test and [await response.json()]:
    the [data] one request contributes (nothing when the response is not ok
    or carries no [data]). *)
Definition fetchArticles (w : world) (r : query) : outcome (list article) :=
  match provider w r with
  | FetchThrows => Thrown
  | FetchResponse false _ => Returned []
  | FetchResponse true JsonThrows => Thrown
  | FetchResponse true (JsonData None) => Returned []
  | FetchResponse true (JsonData (Some data)) => Returned data
  end.

(** [!allArticles.some(existing => existing.uuid === article.uuid)] *)
Definition isNew (allArticles : list article) (a : article) : bool :=
  negb (existsb (fun existing => String.eqb (art_uuid existing) (art_uuid a))
                allArticles).

Definition search_keywords : list string :=
  ["stock"; "market"; "investment"; "financial"; "economy"].

(** Strategy 3: the [for (const keyword of keywords)] loop; a request that
    throws is caught inside the loop body and the loop goes on. *)
Fixpoint keywordLoop (w : world) (apiKey : string) (keywords : list string)
    (sent : list query) (allArticles : list article)
  : list query * list article :=
  match keywords with
  | [] => (sent, allArticles)
  | keyword :: rest =>
      if (20 <=? List.length allArticles)%nat then (sent, allArticles)
      else
        let r := keywordParams apiKey keyword in
        match fetchArticles w r with
        | Thrown => keywordLoop w apiKey rest (sent ++ [r])%list allArticles
        | Returned data =>
            let newArticles := filter (isNew allArticles) data in
            keywordLoop w apiKey rest (sent ++ [r])%list
              (allArticles ++ firstn 5 newArticles)%list
        end
  end.

Definition strategy3 (w : world) (apiKey : string)
    (sent : list query) (allArticles : list article)
  : list query * list article :=
  if (List.length allArticles <? 15)%nat
  then keywordLoop w apiKey search_keywords sent allArticles
  else (sent, allArticles).

(** Strategies 1 to 3: the requests sent, and the articles collected unless
    a request outside the keyword loop threw. *)
Definition collectArticles (w : world) (apiKey : string)
  : list query * outcome (list article) :=
  let r1 := globalParams apiKey in
  match fetchArticles w r1 with
  | Thrown => ([r1], Thrown)
  | Returned data1 =>
      if (List.length data1 <? 10)%nat then
        let r2 := indiaParams apiKey in
        match fetchArticles w r2 with
        | Thrown => ([r1; r2], Thrown)
        | Returned data2 =>
            let newArticles := filter (isNew data1) data2 in
            let (sent, allArticles) :=
              strategy3 w apiKey [r1; r2] (data1 ++ newArticles)%list in
            (sent, Returned allArticles)
        end
      else
        let (sent, allArticles) := strategy3 w apiKey [r1] data1 in
        (sent, Returned allArticles)
  end.

(** ** From articles to news items *)

Fixpoint findIndex {A : Type} (p : A -> bool) (l : list A) : option nat :=
  match l with
  | [] => None
  | x :: r => if p x then Some O else option_map S (findIndex p r)
  end.

(** [self.filter((article, index) =>
       index === self.findIndex(a => a.uuid === article.uuid))] *)
Definition uniqueArticles (allArticles : list article) : list article :=
  map snd
    (filter
       (fun ia : nat * article =>
          match findIndex (fun a => String.eqb (art_uuid a) (art_uuid (snd ia)))
                          allArticles with
          | Some j => Nat.eqb (fst ia) j
          | None => false
          end)
       (combine (seq 0 (List.length allArticles)) allArticles)).

(** [articleTime >= bound]; false when the time is NaN. *)
Definition time_ge (t : option Z) (bound : Z) : bool :=
  match t with
  | Some x => (bound <=? x)%Z
  | None => false
  end.

(** [a || b] on strings. *)
Definition or_str (a b : string) : string :=
  if truthy_str a then a else b.

Definition relevantStocksOf (a : article) : list string :=
  match art_entities a with
  | Some entities =>
      filter (fun symbol => truthy_str symbol
                            && (0 <? String.length symbol)%nat)
        (map ent_symbol
           (filter (fun e => String.eqb (ent_type e) "equity"
                             && String.eqb (ent_country e) "in")
                   entities))
  | None => []
  end.

Definition toNewsItem (w : world) (a : article) : NewsItem :=
  let summary := or_str (art_description a) (or_str (art_snippet a) EmptyString) in
  {| item_id := art_uuid a;
     item_headline := art_title a;
     item_summary := summary;
     item_source := art_source a;
     item_timestamp := art_published_at a;
     item_url := art_url a;
     item_relevantStocks := relevantStocksOf a;
     item_category := categorizeNews (art_title a) summary;
     item_isRecent := time_ge (art_published_at a) (now w - day_ms) |}.

Definition isRelevant (item : NewsItem) : bool :=
  (0 <? List.length (item_relevantStocks item))%nat
  || checkMarketRelevance (item_headline item) (item_summary item)
  || checkIndianMarketRelevance (item_headline item) (item_summary item)
  || checkBusinessRelevance (item_headline item) (item_summary item).

(** The predicate of [newsItems.filter(...)] that builds
    [marketRelevantNews]; [total] is [newsItems.length]. *)
Definition keepsItem (total : nat) (item : NewsItem) : bool :=
  if negb (isRelevant item) && (total <? 15)%nat
  then hasFinancialWords (item_headline item) (item_summary item)
  else isRelevant item.

(** [finalNews] before sorting.  Every element of [newsItems] is a fresh
    object, so [!marketRelevantNews.includes(item)] holds exactly for the
    items the first filter dropped. *)
Definition selectNews (newsItems : list NewsItem) : list NewsItem :=
  let total := List.length newsItems in
  let marketRelevantNews := filter (keepsItem total) newsItems in
  if (List.length marketRelevantNews <? 10)%nat then
    let additionalNews :=
      firstn (15 - List.length marketRelevantNews)
        (filter (fun item => negb (isCompletelyIrrelevant (item_headline item)
                                                       (item_summary item)))
           (filter (fun item => negb (keepsItem total item)) newsItems)) in
    (marketRelevantNews ++ additionalNews)%list
  else marketRelevantNews.

(** The comparator given to [finalNews.sort]; a NaN difference counts as 0. *)
Definition compareNews (a b : NewsItem) : Z :=
  if item_isRecent a && negb (item_isRecent b) then (-1)%Z
  else if negb (item_isRecent a) && item_isRecent b then 1%Z
  else match item_timestamp b, item_timestamp a with
       | Some bTime, Some aTime => (bTime - aTime)%Z
       | _, _ => 0%Z
       end.

(** [Array.prototype.sort] is stable: insertion from the right. *)
Fixpoint insertNews (x : NewsItem) (l : list NewsItem) : list NewsItem :=
  match l with
  | [] => [x]
  | y :: r => if (compareNews x y <=? 0)%Z then x :: y :: r
              else y :: insertNews x r
  end.

Definition sortNews (l : list NewsItem) : list NewsItem :=
  fold_right insertNews [] l.

(** Deduplication, the three-day window, the mapping to news items, the
    relevance filters and the sort. *)
Definition processArticles (w : world) (allArticles : list article)
  : list NewsItem :=
  let recentArticles :=
    filter (fun a => time_ge (art_published_at a) (now w - 3 * day_ms))
           (uniqueArticles allArticles) in
  sortNews (selectNews (map (toNewsItem w) recentArticles)).

(** ** fetchNews *)

(** Which [return] statement produced the list. *)
Inductive news_source := FromCache | FromProvider | FromFallback.

Record fetch_result := {
  served : news_source;
  items : list NewsItem;
  requests : list query;
  state_after : service_state
}.

Definition useFallback (w : world) (st : service_state) (sent : list query)
  : fetch_result :=
  {| served := FromFallback; items := getFallbackNews (now w);
     requests := sent; state_after := st |}.

(** The body of [fetchNews] once the memory cache has missed. *)
Definition fetchFresh (w : world) (st : service_state) : fetch_result :=
  match getApiKey w with
  | Thrown => useFallback w st []
  | Returned apiKey =>
      match collectArticles w apiKey with
      | (sent, Thrown) => useFallback w st sent
      | (sent, Returned allArticles) =>
          let finalNews := processArticles w allArticles in
          if (List.length finalNews =? 0)%nat then useFallback w st sent
          else
            let entry := {| cache_data := finalNews;
                            cache_timestamp := now w |} in
            {| served := FromProvider; items := finalNews;
               requests := sent;
               state_after :=
                 {| newsCache := Some entry;
                    localStorage_newsCache :=
                      if storage_accepts w then LsEntry entry
                      else localStorage_newsCache st |} |}
      end
  end.

Definition fetchNews (w : world) (st : service_state) : fetch_result :=
  match newsCache st with
  | Some c =>
      if unexpired w c
      then {| served := FromCache; items := cache_data c;
              requests := []; state_after := st |}
      else fetchFresh w st
  | None => fetchFresh w st
  end.

End News.

(* ===================================================================== *)
(** * Vocabulary for the statements about the news service                *)
(* ===================================================================== *)

Module NewsSpec.

Import Js News.

(** "Some keyword of the group occurs in the text". *)
Definition mentions (text : string) (group : list string) : Prop :=
  exists k, In k group /\ Substring k text.

(** [Date.now() - entry.timestamp] *)
Definition age (w : world) (e : cache_entry) : Z :=
  (now w - cache_timestamp e)%Z.

(** "The memory cache holds an entry younger than [CACHE_DURATION]". *)
Definition memory_fresh (w : world) (st : service_state) : Prop :=
  exists c, newsCache st = Some c /\ (age w c < CACHE_DURATION)%Z.

(** "[localStorage] holds an entry younger than [CACHE_DURATION]". *)
Definition stored_fresh (w : world) (st : service_state) : Prop :=
  exists e, localStorage_newsCache st = LsEntry e
            /\ (age w e < CACHE_DURATION)%Z.



End NewsSpec.

(* ===================================================================== *)
(** * The backend                                                         *)
(* ===================================================================== *)

Module Backend.

Import Js.

(** ** Values *)

(** A field of a JSON request body: missing, [null], or a value of the type
    the client sends for it. *)
Inductive field (A : Type) :=
| Undefined
| Null
| Value (a : A).
Arguments Undefined {A}.
Arguments Null {A}.
Arguments Value {A} a.

(** JSON as written by [res.json].  [JDate t] stands for the ISO text of
    the instant [t]. *)
#[warnings="-register-all"]
Inductive json :=
| JNull
| JBool (b : bool)
| JNum (q : Q)
| JDate (t : Z)
| JStr (s : string)
| JArr (l : list json)
| JObj (members : list (string * json)).

Record response := {
  status : Z;
  body : json
}.

(** [res.status(code).json({ error })] *)
Definition error_response (code : Z) (message : string) : response :=
  {| status := code; body := JObj [("error", JStr message)] |}.

Definition json_opt {A : Type} (f : A -> json) (o : option A) : json :=
  match o with
  | Some a => f a
  | None => JNull
  end.

(** Truthiness of body fields. *)
Definition truthy_string_field (f : field string) : bool :=
  match f with
  | Value s => truthy_str s
  | _ => false
  end.

Definition truthy_number_field (f : field Q) : bool :=
  match f with
  | Value q => negb (Qeq_bool q 0)
  | _ => false
  end.

(** ** Rows *)

(** The [Users] table.  The [createdAt] and [updatedAt] columns that
    Sequelize maintains by itself are left out of both tables. *)
Record User := {
  user_id : Z;
  user_name : string;
  user_email : string;
  user_password : string;
  user_role : string;
  user_lastLogin : option Z;
  user_passwordResetToken : option string;
  user_passwordResetExpires : option Z
}.

(** The [Portfolios] table. *)
Record Portfolio := {
  pf_id : Z;
  pf_userId : Z;
  pf_symbol : string;
  pf_quantity : Q;
  pf_purchasePrice : option Q;
  pf_purchaseDate : option Z;
  pf_notes : option string
}.

Record database := {
  Users : list User;
  Portfolios : list Portfolio;
  next_user_id : Z;
  next_portfolio_id : Z
}.

(** The payload signed into a token, and read back as [req.user]. *)
Record claims := {
  claim_id : Z;
  claim_email : string;
  claim_role : string
}.

(** What [jwt.verify] does: return the payload or throw an error with a
    [name]. *)
Inductive verification :=
| Verified (user : claims)
| VerifyError (name : string).

(** What a Sequelize call may throw. *)
Inductive orm_error :=
| SequelizeValidationError (messages : list string)
| SequelizeUniqueConstraintError.

Inductive orm_result (A : Type) :=
| Done (a : A)
| Failed (e : orm_error).
Arguments Done {A} a.
Arguments Failed {A} e.

(** ** Third-party functions *)

(** bcryptjs, jsonwebtoken and the two validators whose tests live in the
    validator package.  [bcrypt_hash salt password] is
    [bcrypt.hash(password, 12)] when the salt drawn is [salt];
    [jwt_sign payload secret expiresIn now] is [jwt.sign] called at time
    [now]; [jwt_verify token secret now] is [jwt.verify]. *)
Class ThirdParty := {
  bcrypt_hash : string -> string -> string;
  bcrypt_compare : string -> string -> bool;
  jwt_sign : claims -> string -> string -> Z -> string;
  jwt_verify : string -> string -> Z -> verification;
  isEmail : string -> bool;
  notEmpty : string -> bool
}.

(** [process.env] *)
Record environment := {
  JWT_SECRET : option string;
  ALPHA_VANTAGE_API_KEY : option string
}.

(** What one request reads from the outside: the clock, the salt bcrypt
    draws, and the successive values of [Math.random()]. *)
Record runtime := {
  clock : Z;
  salt : string;
  random : nat -> Q
}.

(** [JWT_SECRET || 'changeme'] *)
Definition signing_secret (env : environment) : string :=
  match JWT_SECRET env with
  | Some s => if truthy_str s then s else "changeme"
  | None => "changeme"
  end.

(** ** Fallback stock data *)

Record base_quote := {
  base_name : string;
  base_price : Q;
  base_change : Q;
  base_changePercent : Q
}.

Record stock_data := {
  sd_symbol : string;
  sd_name : string;
  sd_price : Q;
  sd_change : Q;
  sd_changePercent : Q
}.

Definition fallbackData : list (string * base_quote) :=
  [
   ("RELIANCE", {| base_name := "Reliance Industries Ltd"; base_price := (289015 # 100);
      base_change := (3485 # 100); base_changePercent := (122 # 100) |});
   ("TCS", {| base_name := "Tata Consultancy Services"; base_price := (415630 # 100);
      base_change := (-1845 # 100); base_changePercent := (-44 # 100) |});
   ("HDFCBANK", {| base_name := "HDFC Bank Ltd"; base_price := (172190 # 100);
      base_change := (1225 # 100); base_changePercent := (72 # 100) |});
   ("INFY", {| base_name := "Infosys Ltd"; base_price := (183425 # 100);
      base_change := (-575 # 100); base_changePercent := (-31 # 100) |});
   ("ICICIBANK", {| base_name := "ICICI Bank Ltd"; base_price := (126780 # 100);
      base_change := (2360 # 100); base_changePercent := (190 # 100) |});
   ("WIPRO", {| base_name := "Wipro Ltd"; base_price := (56745 # 100);
      base_change := (-320 # 100); base_changePercent := (-56 # 100) |});
   ("ADANIGREEN", {| base_name := "Adani Green Energy Ltd"; base_price := (145650 # 100);
      base_change := (8725 # 100); base_changePercent := (637 # 100) |});
   ("BHARTIARTL", {| base_name := "Bharti Airtel Ltd"; base_price := (153470 # 100);
      base_change := (1530 # 100); base_changePercent := (101 # 100) |});
   ("SBIN", {| base_name := "State Bank of India"; base_price := (82345 # 100);
      base_change := (875 # 100); base_changePercent := (107 # 100) |});
   ("LT", {| base_name := "Larsen & Toubro Ltd"; base_price := (367890 # 100);
      base_change := (-2115 # 100); base_changePercent := (-57 # 100) |})
  ]%Q.

Fixpoint lookup_quote (key : string) (table : list (string * base_quote))
  : option base_quote :=
  match table with
  | [] => None
  | (k, v) :: rest => if String.eqb k key then Some v else lookup_quote key rest
  end.

(** [Number(x.toFixed(2))]: the nearest multiple of 1/100, ties away from
    zero.  Doubles are idealised as rationals here. *)
Definition toFixed2 (x : Q) : Q :=
  if Qle_bool 0 x
  then Qfloor (x * 100 + (1 # 2)) # 100
  else (- Qfloor (- x * 100 + (1 # 2))) # 100.

(** [symbol.charAt(0).toUpperCase() + symbol.slice(1).toLowerCase()] *)
Definition capitalize (symbol : string) : string :=
  match symbol with
  | EmptyString => EmptyString
  | String c r => String (upper_ascii c) (toLowerCase r)
  end.

(** [getFallbackStockData(symbol)], reading [Math.random()] from position
    [n] of the stream on; the second component is the next position. *)
Definition getFallbackStockData (rt : runtime) (n : nat) (symbol : string)
  : stock_data * nat :=
  match lookup_quote (toUpperCase symbol) fallbackData with
  | Some baseData =>
      let variation := ((random rt n - (1 # 2)) * (2 # 100))%Q in
      ({| sd_symbol := toUpperCase symbol;
          sd_name := base_name baseData;
          sd_price := toFixed2 (base_price baseData * (1 + variation));
          sd_change := toFixed2 (base_change baseData * (1 + variation));
          sd_changePercent :=
            toFixed2 (base_changePercent baseData * (1 + variation)) |},
       S n)
  | None =>
      let basePrice := (500 + random rt n * 3000)%Q in
      let changePercent := ((random rt (S n) - (1 # 2)) * 6)%Q in
      let change := ((basePrice * changePercent) / 100)%Q in
      ({| sd_symbol := toUpperCase symbol;
          sd_name := capitalize symbol ++ " Ltd";
          sd_price := toFixed2 basePrice;
          sd_change := toFixed2 change;
          sd_changePercent := toFixed2 changePercent |},
       S (S n))
  end.

(** [fetchStockDataForBackend]: with or without the API key the body
    returns the fallback data; so does the [catch] block. *)
Definition fetchStockDataForBackend (env : environment) (rt : runtime)
    (n : nat) (symbol : string) : outcome (stock_data * nat) :=
  match ALPHA_VANTAGE_API_KEY env with
  | Some key =>
      if truthy_str key then Returned (getFallbackStockData rt n symbol)
      else Returned (getFallbackStockData rt n symbol)
  | None => Returned (getFallbackStockData rt n symbol)
  end.

Section Models.

Context {TP : ThirdParty}.

(** ** models/user.js *)

(** [len: { args: [lo, hi] }] *)
Definition len (lo hi : nat) (s : string) : bool :=
  ((lo <=? String.length s) && (String.length s <=? hi))%nat.

(** One declared validator: its test and its [msg]. *)
Definition check (ok : bool) (msg : string) : list string :=
  if ok then [] else [msg].

Definition validate_name (name : string) : list string :=
  (check (notEmpty name) "Name cannot be empty"
   ++ check (len 2 100 name) "Name must be between 2 and 100 characters")%list.

Definition validate_email (email : string) : list string :=
  (check (isEmail email) "Please provide a valid email address"
   ++ check (notEmpty email) "Email cannot be empty")%list.

Definition validate_password (password : string) : list string :=
  (check (notEmpty password) "Password cannot be empty"
   ++ check (len 8 100 password)
        "Password must be at least 8 characters long")%list.

(** The [beforeCreate] hook. *)
Definition beforeCreate (rt : runtime) (password : string) : string :=
  if truthy_str password then bcrypt_hash (salt rt) password else password.

(** [User.create({ name, email, password })]: validation, the hook, then
    the insert, which the unique index on [email] may refuse. *)
Definition User_create (rt : runtime) (name email password : string)
    (db : database) : orm_result (User * database) :=
  match (validate_name name ++ validate_email email
         ++ validate_password password)%list with
  | [] =>
      if existsb (fun u => String.eqb (user_email u) email) (Users db)
      then Failed SequelizeUniqueConstraintError
      else
        let user :=
          {| user_id := next_user_id db;
             user_name := name;
             user_email := email;
             user_password := beforeCreate rt password;
             user_role := "user";
             user_lastLogin := None;
             user_passwordResetToken := None;
             user_passwordResetExpires := None |} in
        Done (user,
              {| Users := (Users db ++ [user])%list;
                 Portfolios := Portfolios db;
                 next_user_id := (next_user_id db + 1)%Z;
                 next_portfolio_id := next_portfolio_id db |})
  | messages => Failed (SequelizeValidationError messages)
  end.

(** [User.findOne({ where: { email } })] *)
Definition User_findOne (email : string) (db : database) : option User :=
  find (fun u => String.eqb (user_email u) email) (Users db).

(** [User.findByPk(id)] *)
Definition User_findByPk (id : Z) (db : database) : option User :=
  find (fun u => (user_id u =? id)%Z) (Users db).

(** [user.validPassword(password)] *)
Definition validPassword (user : User) (password : string) : bool :=
  bcrypt_compare password (user_password user).

(** [user.lastLogin = new Date(); await user.save()]: only [lastLogin]
    changed, so nothing is validated, the [beforeUpdate] hook leaves the
    password alone and the row with the user's key is rewritten. *)
Definition touch_lastLogin (rt : runtime) (user : User) : User :=
  {| user_id := user_id user;
     user_name := user_name user;
     user_email := user_email user;
     user_password := user_password user;
     user_role := user_role user;
     user_lastLogin := Some (clock rt);
     user_passwordResetToken := user_passwordResetToken user;
     user_passwordResetExpires := user_passwordResetExpires user |}.

Definition User_save (user : User) (db : database) : database :=
  {| Users := map (fun u => if (user_id u =? user_id user)%Z then user else u)
                  (Users db);
     Portfolios := Portfolios db;
     next_user_id := next_user_id db;
     next_portfolio_id := next_portfolio_id db |}.

(** [this.get()]: every attribute of the row; an attribute without a value
    is written [null]. *)
Definition User_get (user : User) : list (string * json) :=
  [("id", JNum (inject_Z (user_id user)));
   ("name", JStr (user_name user));
   ("email", JStr (user_email user));
   ("password", JStr (user_password user));
   ("role", JStr (user_role user));
   ("lastLogin", json_opt JDate (user_lastLogin user));
   ("passwordResetToken", json_opt JStr (user_passwordResetToken user));
   ("passwordResetExpires", json_opt JDate (user_passwordResetExpires user))].

(** [delete values.key] *)
Definition delete_key (key : string) (values : list (string * json))
  : list (string * json) :=
  filter (fun kv => negb (String.eqb (fst kv) key)) values.

(** [User.prototype.toJSON] *)
Definition User_toJSON (user : User) : json :=
  JObj (delete_key "passwordResetExpires"
          (delete_key "passwordResetToken"
             (delete_key "password" (User_get user)))).

(** ** models/portfolio.js *)

(** [validate: { min: { args: [0] } }] *)
Definition min0 (q : Q) : bool := Qle_bool 0 q.

(** [validate: { isInt: ... }] *)
Definition isInt (q : Q) : bool :=
  (Z.rem (Qnum q) (Zpos (Qden q)) =? 0)%Z.

(** The [beforeValidate] hook. *)
Definition beforeValidate (symbol : string) : string :=
  if truthy_str symbol then toUpperCase symbol else symbol.

(** The custom validator [isUppercase]. *)
Definition isUppercase (value : string) : bool :=
  String.eqb value (toUpperCase value).

Definition validate_symbol (symbol : string) : list string :=
  (check (notEmpty symbol) "Stock symbol is required"
   ++ check (len 1 20 symbol)
        "Stock symbol must be between 1 and 20 characters"
   ++ check (isUppercase symbol) "Stock symbol must be uppercase")%list.

(** [allowNull: false] with the [min] and [isInt] validators. *)
Definition validate_quantity (quantity : field Q) : list string :=
  match quantity with
  | Value q =>
      (check (min0 q) "Quantity cannot be negative"
       ++ check (isInt q) "Quantity must be an integer")%list
  | _ => ["Portfolio.quantity cannot be null"]
  end.

(** [allowNull: true]: validators are skipped on [null]. *)
Definition validate_purchasePrice (purchasePrice : option Q) : list string :=
  match purchasePrice with
  | Some q => check (min0 q) "Purchase price cannot be negative"
  | None => []
  end.

Definition nullable {A : Type} (f : field A) : option A :=
  match f with
  | Value a => Some a
  | _ => None
  end.

Definition same_holding (userId : Z) (symbol : string) (row : Portfolio)
  : bool :=
  (pf_userId row =? userId)%Z && String.eqb (pf_symbol row) symbol.

(** [Portfolio.findOne({ where: { userId, symbol } })] *)
Definition Portfolio_findOne (userId : Z) (symbol : string) (db : database)
  : option Portfolio :=
  find (same_holding userId symbol) (Portfolios db).

(** [Portfolio.create]: the hook, validation, then the insert, which the
    unique index [portfolio_user_symbol_unique] may refuse. *)
Definition Portfolio_create (userId : Z) (symbol : string)
    (quantity purchasePrice : field Q) (purchaseDate : Z)
    (notes : field string) (db : database)
  : orm_result (Portfolio * database) :=
  let symbol := beforeValidate symbol in
  match (validate_symbol symbol ++ validate_quantity quantity
         ++ validate_purchasePrice (nullable purchasePrice))%list,
        quantity with
  | [], Value q =>
      if existsb (same_holding userId symbol) (Portfolios db)
      then Failed SequelizeUniqueConstraintError
      else
        let row :=
          {| pf_id := next_portfolio_id db;
             pf_userId := userId;
             pf_symbol := symbol;
             pf_quantity := q;
             pf_purchasePrice := nullable purchasePrice;
             pf_purchaseDate := Some purchaseDate;
             pf_notes := nullable notes |} in
        Done (row,
              {| Users := Users db;
                 Portfolios := (Portfolios db ++ [row])%list;
                 next_user_id := next_user_id db;
                 next_portfolio_id := (next_portfolio_id db + 1)%Z |})
  | messages, _ => Failed (SequelizeValidationError messages)
  end.

(** [Portfolio.findOrCreate({ where, defaults })]; the flag is [created]. *)
Definition Portfolio_findOrCreate (userId : Z) (symbol : string)
    (quantity purchasePrice : field Q) (purchaseDate : Z)
    (notes : field string) (db : database)
  : orm_result (Portfolio * bool * database) :=
  match Portfolio_findOne userId symbol db with
  | Some portfolioItem => Done (portfolioItem, false, db)
  | None =>
      match Portfolio_create userId symbol quantity purchasePrice
              purchaseDate notes db with
      | Done (portfolioItem, db') => Done (portfolioItem, true, db')
      | Failed e => Failed e
      end
  end.

(** [portfolioItem.update({ quantity, purchasePrice, purchaseDate, notes })]:
    the values written are validated, then the row with the item's key is
    rewritten.  The symbol is not among the values written. *)
Definition Portfolio_update (portfolioItem : Portfolio)
    (quantity : field Q) (purchasePrice : option Q)
    (purchaseDate : option Z) (notes : option string) (db : database)
  : orm_result (Portfolio * database) :=
  match (validate_quantity quantity
         ++ validate_purchasePrice purchasePrice)%list, quantity with
  | [], Value q =>
      let row :=
        {| pf_id := pf_id portfolioItem;
           pf_userId := pf_userId portfolioItem;
           pf_symbol := pf_symbol portfolioItem;
           pf_quantity := q;
           pf_purchasePrice := purchasePrice;
           pf_purchaseDate := purchaseDate;
           pf_notes := notes |} in
      Done (row,
            {| Users := Users db;
               Portfolios :=
                 map (fun r => if (pf_id r =? pf_id portfolioItem)%Z
                               then row else r)
                     (Portfolios db);
               next_user_id := next_user_id db;
               next_portfolio_id := next_portfolio_id db |})
  | messages, _ => Failed (SequelizeValidationError messages)
  end.

(** [Portfolio.destroy({ where: { userId, symbol } })]: the number of rows
    removed and the table without them. *)
Definition Portfolio_destroy (userId : Z) (symbol : string) (db : database)
  : nat * database :=
  (List.length (filter (same_holding userId symbol) (Portfolios db)),
   {| Users := Users db;
      Portfolios :=
        filter (fun r => negb (same_holding userId symbol r)) (Portfolios db);
      next_user_id := next_user_id db;
      next_portfolio_id := next_portfolio_id db |}).

(** [order: [['symbol', 'ASC']]] *)
Fixpoint insert_by_symbol (row : Portfolio) (rows : list Portfolio)
  : list Portfolio :=
  match rows with
  | [] => [row]
  | r :: rest =>
      if String.leb (pf_symbol row) (pf_symbol r) then row :: r :: rest
      else r :: insert_by_symbol row rest
  end.

(** [Portfolio.findAll({ where: { userId }, order })] *)
Definition Portfolio_findAll (userId : Z) (db : database) : list Portfolio :=
  fold_right insert_by_symbol []
    (filter (fun r => (pf_userId r =? userId)%Z) (Portfolios db)).

Definition Portfolio_toJSON (row : Portfolio) : list (string * json) :=
  [("id", JNum (inject_Z (pf_id row)));
   ("userId", JNum (inject_Z (pf_userId row)));
   ("symbol", JStr (pf_symbol row));
   ("quantity", JNum (pf_quantity row));
   ("purchasePrice", json_opt JNum (pf_purchasePrice row));
   ("purchaseDate", json_opt JDate (pf_purchaseDate row));
   ("notes", json_opt JStr (pf_notes row))].

End Models.

(** ** index.js: requests *)

Record signup_body := {
  su_name : field string;
  su_email : field string;
  su_password : field string
}.

Record login_body := {
  li_email : field string;
  li_password : field string
}.

Record portfolio_body := {
  pb_symbol : field string;
  pb_quantity : field Q;
  pb_purchasePrice : field Q;
  pb_purchaseDate : field Z;
  pb_notes : field string
}.

(** [req.headers] *)
Record headers := {
  authorization : option string
}.

(** The routes of the application.  The helmet, CORS and rate-limiting
    middleware in front of them is not part of the model. *)
Inductive request :=
| PostSignup (b : signup_body)
| PostLogin (b : login_body)
| GetProfile (h : headers)
| GetPortfolio (h : headers)
| PostPortfolio (h : headers) (b : portfolio_body)
| DeletePortfolio (h : headers) (symbol : string).

(** The value of a string field when it is truthy. *)
Definition present (f : field string) : option string :=
  match f with
  | Value s => if truthy_str s then Some s else None
  | _ => None
  end.

(** [a || b] for a number, a date and a string field against a column. *)
Definition or_number (a : field Q) (b : option Q) : option Q :=
  if truthy_number_field a then nullable a else b.

(** [purchaseDate || new Date()] *)
Definition or_now (a : field Z) (now : Z) : Z :=
  match a with
  | Value t => t
  | _ => now
  end.

Definition or_date (a : field Z) (b : option Z) : option Z :=
  match a with
  | Value t => Some t
  | _ => b
  end.

Definition or_notes (a : field string) (b : option string) : option string :=
  if truthy_string_field a then nullable a else b.

(** What the middleware does with a request: answer it, or call [next()]
    with [req.user] set. *)
Inductive middleware_result :=
| Answered (r : response)
| Next (user : claims).

Section Handlers.

Context {TP : ThirdParty}.

Variable env : environment.

(** [authHeader && authHeader.split(' ')[1]], when truthy. *)
Definition bearer_token (h : headers) : option string :=
  match authorization h with
  | Some authHeader =>
      if truthy_str authHeader then
        match nth_error (split_space authHeader) 1 with
        | Some token => if truthy_str token then Some token else None
        | None => None
        end
      else None
  | None => None
  end.

Definition authenticateToken (rt : runtime) (h : headers) : middleware_result :=
  match bearer_token h with
  | None => Answered (error_response 401 "Authentication required")
  | Some token =>
      match jwt_verify token (signing_secret env) (clock rt) with
      | Verified user => Next user
      | VerifyError name =>
          if String.eqb name "TokenExpiredError"
          then Answered (error_response 401 "Token expired")
          else Answered (error_response 403 "Invalid token")
      end
  end.

(** A route declared as [app.verb(path, authenticateToken, handler)]. *)
Definition protected (rt : runtime) (h : headers)
    (handler : claims -> database -> response * database) (db : database)
  : response * database :=
  match authenticateToken rt h with
  | Answered r => (r, db)
  | Next user => handler user db
  end.

(** [jwt.sign({ id, email, role }, JWT_SECRET || 'changeme',
              { expiresIn: '7d' })] *)
Definition issue_token (rt : runtime) (user : User) : string :=
  jwt_sign {| claim_id := user_id user;
              claim_email := user_email user;
              claim_role := user_role user |}
           (signing_secret env) "7d" (clock rt).

Definition validation_response (messages : list string) : response :=
  {| status := 400;
     body := JObj [("error", JStr "Validation error");
                   ("messages", JArr (map JStr messages))] |}.

(** [app.post('/api/signup')] *)
Definition signup (rt : runtime) (b : signup_body) (db : database)
  : response * database :=
  match present (su_name b), present (su_email b), present (su_password b) with
  | Some name, Some email, Some password =>
      match User_create rt name email password db with
      | Done (user, db') =>
          ({| status := 201;
              body := JObj [("token", JStr (issue_token rt user));
                            ("user", User_toJSON user)] |}, db')
      | Failed (SequelizeValidationError messages) =>
          (validation_response messages, db)
      | Failed SequelizeUniqueConstraintError =>
          (error_response 409 "Email already exists", db)
      end
  | _, _, _ => (error_response 400 "Missing required fields", db)
  end.

(** [app.post('/api/login')] *)
Definition login (rt : runtime) (b : login_body) (db : database)
  : response * database :=
  match present (li_email b), present (li_password b) with
  | Some email, Some password =>
      match User_findOne email db with
      | None => (error_response 401 "Invalid credentials", db)
      | Some user =>
          if negb (validPassword user password)
          then (error_response 401 "Invalid credentials", db)
          else
            let user := touch_lastLogin rt user in
            ({| status := 200;
                body := JObj [("token", JStr (issue_token rt user));
                              ("user", User_toJSON user)] |},
             User_save user db)
      end
  | _, _ => (error_response 400 "Email and password are required", db)
  end.

(** [app.get('/api/profile')], after the middleware *)
Definition profile (user : claims) (db : database) : response * database :=
  match User_findByPk (claim_id user) db with
  | None => (error_response 404 "User not found", db)
  | Some user =>
      ({| status := 200; body := JObj [("user", User_toJSON user)] |}, db)
  end.

(** [stockData.price || portfolioItem.purchasePrice || 0] and the like. *)
Definition or_zero (q : Q) : Q := if Qeq_bool q 0 then 0%Q else q.

Definition price_or (price : Q) (purchasePrice : option Q) : Q :=
  if Qeq_bool price 0
  then match purchasePrice with
       | Some p => or_zero p
       | None => 0%Q
       end
  else price.

(** The callback of [portfolios.map]: the item with the market data, or
    with placeholders when fetching the data threw. *)
Definition enhance (rt : runtime) (n : nat) (portfolioItem : Portfolio)
  : json * nat :=
  let common :=
    [("id", JNum (inject_Z (pf_id portfolioItem)));
     ("symbol", JStr (pf_symbol portfolioItem));
     ("quantity", JNum (pf_quantity portfolioItem));
     ("purchasePrice", json_opt JNum (pf_purchasePrice portfolioItem));
     ("purchaseDate", json_opt JDate (pf_purchaseDate portfolioItem));
     ("notes", json_opt JStr (pf_notes portfolioItem))] in
  match fetchStockDataForBackend env rt n (pf_symbol portfolioItem) with
  | Returned (stockData, n') =>
      (JObj (common ++
             [("name", JStr (if truthy_str (sd_name stockData)
                             then sd_name stockData
                             else pf_symbol portfolioItem));
              ("price", JNum (price_or (sd_price stockData)
                                       (pf_purchasePrice portfolioItem)));
              ("change", JNum (or_zero (sd_change stockData)));
              ("changePercent",
               JNum (or_zero (sd_changePercent stockData)))])%list,
       n')
  | Thrown =>
      (JObj (common ++
             [("name", JStr (pf_symbol portfolioItem));
              ("price", JNum (price_or 0 (pf_purchasePrice portfolioItem)));
              ("change", JNum 0);
              ("changePercent", JNum 0)])%list,
       n)
  end.

Fixpoint enhanceAll (rt : runtime) (n : nat) (portfolios : list Portfolio)
  : list json :=
  match portfolios with
  | [] => []
  | portfolioItem :: rest =>
      let (enhanced, n') := enhance rt n portfolioItem in
      enhanced :: enhanceAll rt n' rest
  end.

(** [app.get('/api/portfolio')], after the middleware *)
Definition getPortfolio (rt : runtime) (user : claims) (db : database)
  : response * database :=
  let portfolios := Portfolio_findAll (claim_id user) db in
  ({| status := 200;
      body := JObj [("portfolio", JArr (enhanceAll rt 0 portfolios))] |}, db).

(** The [catch] block of the add handler. *)
Definition add_failure (e : orm_error) : response :=
  match e with
  | SequelizeValidationError messages => validation_response messages
  | SequelizeUniqueConstraintError => error_response 500 "Server error"
  end.

Definition add_success (created : bool) (portfolioItem : Portfolio)
  : response :=
  {| status := if created then 201 else 200;
     body := JObj [("success", JBool true);
                   ("portfolioItem", JObj (Portfolio_toJSON portfolioItem));
                   ("message",
                    JStr (if created then "Stock added to portfolio"
                          else "Stock updated in portfolio"))] |}.

(** [app.post('/api/portfolio')], after the middleware *)
Definition addToPortfolio (rt : runtime) (b : portfolio_body) (user : claims)
    (db : database) : response * database :=
  match present (pb_symbol b), pb_quantity b with
  | None, _ => (error_response 400 "Symbol and quantity are required", db)
  | _, Undefined =>
      (error_response 400 "Symbol and quantity are required", db)
  | Some symbol, quantity =>
      match Portfolio_findOrCreate (claim_id user) (toUpperCase symbol)
              quantity (pb_purchasePrice b)
              (or_now (pb_purchaseDate b) (clock rt))
              (pb_notes b) db with
      | Failed e => (add_failure e, db)
      | Done (portfolioItem, true, db') =>
          (add_success true portfolioItem, db')
      | Done (portfolioItem, false, db') =>
          match Portfolio_update portfolioItem quantity
                  (or_number (pb_purchasePrice b)
                             (pf_purchasePrice portfolioItem))
                  (or_date (pb_purchaseDate b)
                           (pf_purchaseDate portfolioItem))
                  (or_notes (pb_notes b) (pf_notes portfolioItem)) db' with
          | Failed e => (add_failure e, db')
          | Done (portfolioItem', db'') =>
              (add_success false portfolioItem', db'')
          end
      end
  end.

(** [app.delete('/api/portfolio/:symbol')], after the middleware *)
Definition removeFromPortfolio (symbol : string) (user : claims)
    (db : database) : response * database :=
  if negb (truthy_str symbol)
  then (error_response 400 "Symbol is required", db)
  else
    let (deleted, db') :=
      Portfolio_destroy (claim_id user) (toUpperCase symbol) db in
    if (deleted =? 0)%nat
    then (error_response 404 "Stock not found in portfolio", db')
    else ({| status := 200;
             body := JObj [("success", JBool true);
                           ("message", JStr "Stock removed from portfolio")] |},
          db').

(** The application: one request against the database. *)
Definition app (rt : runtime) (req : request) (db : database)
  : response * database :=
  match req with
  | PostSignup b => signup rt b db
  | PostLogin b => login rt b db
  | GetProfile h => protected rt h profile db
  | GetPortfolio h => protected rt h (getPortfolio rt) db
  | PostPortfolio h b => protected rt h (addToPortfolio rt b) db
  | DeletePortfolio h symbol => protected rt h (removeFromPortfolio symbol) db
  end.

End Handlers.

End Backend.

(* ===================================================================== *)
(** * Vocabulary for the statements about the backend                     *)
(* ===================================================================== *)

Module BackendSpec.

Import Js Backend.

Section Spec.

Context {TP : ThirdParty}.

Variable env : environment.

(** The handler behind a bearer-protected route, with the headers the
    middleware reads. *)
Definition protected_route (rt : runtime) (req : request)
  : option (headers * (claims -> database -> response * database)) :=
  match req with
  | PostSignup _ => None
  | PostLogin _ => None
  | GetProfile h => Some (h, profile)
  | GetPortfolio h => Some (h, getPortfolio env rt)
  | PostPortfolio h b => Some (h, addToPortfolio rt b)
  | DeletePortfolio h symbol => Some (h, removeFromPortfolio symbol)
  end.

(** The payload [{ id, email, role }] of a user. *)
Definition claims_of (user : User) : claims :=
  {| claim_id := user_id user;
     claim_email := user_email user;
     claim_role := user_role user |}.

(** The request carries a verified bearer token for [user]. *)
Definition authenticated (rt : runtime) (h : headers) (user : claims) : Prop :=
  authenticateToken env rt h = Next user.

(** The user [userId] holds [symbol]. *)
Definition holds_symbol (db : database) (userId : Z) (symbol : string)
  : Prop :=
  exists row, In row (Portfolios db)
              /\ pf_userId row = userId /\ pf_symbol row = symbol.

(** ** Invariants of the tables *)

Definition holding_key (row : Portfolio) : Z * string :=
  (pf_userId row, pf_symbol row).

(** No two rows of [Portfolios] share [(userId, symbol)]. *)
Definition unique_holdings (db : database) : Prop :=
  NoDup (map holding_key (Portfolios db)).

(** The primary key: ids are distinct and below the auto-increment
    counter. *)
Definition primary_keys_ok (db : database) : Prop :=
  NoDup (map pf_id (Portfolios db))
  /\ forall row, In row (Portfolios db) ->
                 (pf_id row < next_portfolio_id db)%Z.

(** The two declared keys of [Portfolios] together. *)
Definition holdings_consistent (db : database) : Prop :=
  primary_keys_ok db /\ unique_holdings db.

(** Every stored symbol equals its own upper-case form. *)
Definition symbols_uppercase (db : database) : Prop :=
  forall row, In row (Portfolios db) ->
              pf_symbol row = toUpperCase (pf_symbol row).

Definition integral (q : Q) : Prop := exists z : Z, (q == inject_Z z)%Q.

(** The bounds the validators of the two models declare. *)
Definition valid_quantity (quantity : field Q) : Prop :=
  exists q, quantity = Value q /\ (0 <= q)%Q /\ integral q.

Definition valid_price (purchasePrice : option Q) : Prop :=
  forall p, purchasePrice = Some p -> (0 <= p)%Q.

Definition length_within (lo hi : nat) (s : string) : Prop :=
  (lo <= String.length s /\ String.length s <= hi)%nat.

Definition portfolio_row_valid (row : Portfolio) : Prop :=
  (0 <= pf_quantity row)%Q /\ integral (pf_quantity row)
  /\ valid_price (pf_purchasePrice row)
  /\ length_within 1 20 (pf_symbol row).

(** The stored password is the bcrypt hash of a password that had the
    declared length. *)
Definition user_row_valid (user : User) : Prop :=
  length_within 2 100 (user_name user)
  /\ exists salt password,
       user_password user = bcrypt_hash salt password
       /\ length_within 8 100 password.

Definition rows_valid (db : database) : Prop :=
  (forall row, In row (Portfolios db) -> portfolio_row_valid row)
  /\ (forall user, In user (Users db) -> user_row_valid user).

(** The row [Portfolio.create] inserts. *)
Definition created_row (userId : Z) (symbol : string) (q : Q)
    (purchasePrice : field Q) (purchaseDate : Z) (notes : field string)
    (db : database) : Portfolio :=
  {| pf_id := next_portfolio_id db;
     pf_userId := userId;
     pf_symbol := beforeValidate symbol;
     pf_quantity := q;
     pf_purchasePrice := nullable purchasePrice;
     pf_purchaseDate := Some purchaseDate;
     pf_notes := nullable notes |}.

Definition with_new_row (row : Portfolio) (db : database) : database :=
  {| Users := Users db;
     Portfolios := (Portfolios db ++ [row])%list;
     next_user_id := next_user_id db;
     next_portfolio_id := (next_portfolio_id db + 1)%Z |}.

(** The row [portfolioItem.update] writes. *)
Definition updated_row (portfolioItem : Portfolio) (q : Q)
    (purchasePrice : option Q) (purchaseDate : option Z)
    (notes : option string) : Portfolio :=
  {| pf_id := pf_id portfolioItem;
     pf_userId := pf_userId portfolioItem;
     pf_symbol := pf_symbol portfolioItem;
     pf_quantity := q;
     pf_purchasePrice := purchasePrice;
     pf_purchaseDate := purchaseDate;
     pf_notes := notes |}.

Definition with_row_replaced (id : Z) (row : Portfolio) (db : database)
  : database :=
  {| Users := Users db;
     Portfolios := map (fun r => if (pf_id r =? id)%Z then row else r)
                       (Portfolios db);
     next_user_id := next_user_id db;
     next_portfolio_id := next_portfolio_id db |}.

Definition create_values_valid (symbol : string)
    (quantity purchasePrice : field Q) : Prop :=
  validate_symbol (beforeValidate symbol) = []
  /\ valid_quantity quantity /\ valid_price (nullable purchasePrice).

(** The words of the claim for a request body of the add route. *)
Definition out_of_bounds (b : portfolio_body) : Prop :=
  (exists q, pb_quantity b = Value q /\ ((q < 0)%Q \/ ~ integral q))
  \/ (exists p, pb_purchasePrice b = Value p /\ (p < 0)%Q)
  \/ (exists s, pb_symbol b = Value s /\ (20 < String.length s)%nat).

(** ** Secrets *)

(** Two user rows that agree on everything but the password hash and the
    two password-reset columns. *)
Definition same_public (u1 u2 : User) : Prop :=
  user_id u1 = user_id u2 /\ user_name u1 = user_name u2
  /\ user_email u1 = user_email u2 /\ user_role u1 = user_role u2
  /\ user_lastLogin u1 = user_lastLogin u2.

(** Two databases whose user rows differ only in those columns. *)
Definition differ_only_in_secrets (db1 db2 : database) : Prop :=
  Forall2 same_public (Users db1) (Users db2)
  /\ Portfolios db1 = Portfolios db2
  /\ next_user_id db1 = next_user_id db2
  /\ next_portfolio_id db1 = next_portfolio_id db2.

(** The routes that answer with a user object. *)
Definition answers_with_user (req : request) : Prop :=
  match req with
  | PostSignup _ => True
  | PostLogin _ => True
  | GetProfile _ => True
  | _ => False
  end.

(** What the password check of a login request says, if it is reached. *)
Definition login_verdict (b : login_body) (db : database) : option bool :=
  match present (li_email b), present (li_password b) with
  | Some email, Some password =>
      match User_findOne email db with
      | Some user => Some (validPassword user password)
      | None => None
      end
  | _, _ => None
  end.

(** The sentence of the specification about secrets, read for the three
    routes: the body does not depend on the secret columns. *)
Definition bodies_ignore_secret_columns : Prop :=
  forall (rt : runtime) (req : request) (db1 db2 : database),
    answers_with_user req ->
    differ_only_in_secrets db1 db2 ->
    body (fst (app env rt req db1)) = body (fst (app env rt req db2)).

(** [body] with another symbol. *)
Definition with_symbol (b : portfolio_body) (symbol : field string)
  : portfolio_body :=
  {| pb_symbol := symbol;
     pb_quantity := pb_quantity b;
     pb_purchasePrice := pb_purchasePrice b;
     pb_purchaseDate := pb_purchaseDate b;
     pb_notes := pb_notes b |}.

(** The sentence of the specification about missing portfolio fields, read
    for every request to the add route. *)
Definition every_add_lacking_fields_gets_400 : Prop :=
  forall (rt : runtime) (h : headers) (b : portfolio_body) (db : database),
    present (pb_symbol b) = None \/ pb_quantity b = Undefined ->
    status (fst (app env rt (PostPortfolio h b) db)) = 400%Z.

(** The sentence of the specification about adding a symbol the user
    holds, read for every add request that passes the middleware. *)
Definition every_add_of_a_held_symbol_updates : Prop :=
  forall (rt : runtime) (h : headers) (user : claims) (b : portfolio_body)
         (s : string) (db : database),
    authenticated rt h user ->
    present (pb_symbol b) = Some s ->
    holds_symbol db (claim_id user) (toUpperCase s) ->
    status (fst (app env rt (PostPortfolio h b) db)) = 200%Z.

(** A quantity that the [isInt] validator accepts as [String(value)]
    writes it: a whole number that is not negative and is below 1e21, from
    where on JavaScript writes a number with an exponent. *)
Definition plain_quantity (quantity : field Q) : Prop :=
  exists q, quantity = Value q /\ (0 <= q)%Q /\ integral q
            /\ (q < inject_Z (10 ^ 21))%Q.

(** The upper-case form of the symbol passes the validators of the
    [symbol] column. *)
Definition symbol_fits (s : string) : Prop :=
  notEmpty (toUpperCase s) = true
  /\ (String.length (toUpperCase s) <= 20)%nat.

End Spec.

End BackendSpec.

(* ===================================================================== *)
(** * Concrete inputs used by the examples                                *)
(* ===================================================================== *)

Module Fixtures.

Import Js News Backend.

(** A table-driven stand-in for the third-party functions: the token
    ["good"] verifies for user 1, ["old"] has expired, anything else has a
    bad signature; a password matches the hash that wraps it. *)
Definition alice_claims : claims :=
  {| claim_id := 1; claim_email := "alice@example.com";
     claim_role := "user" |}.

Definition table_driven : ThirdParty :=
  {| bcrypt_hash := fun salt password => "h(" ++ password ++ ")";
     bcrypt_compare := fun password hash =>
                         String.eqb hash ("h(" ++ password ++ ")");
     jwt_sign := fun _ _ _ _ => "good";
     jwt_verify := fun token _ _ =>
                     if String.eqb token "good" then Verified alice_claims
                     else if String.eqb token "old"
                          then VerifyError "TokenExpiredError"
                          else VerifyError "JsonWebTokenError";
     isEmail := fun s => includes s "@";
     notEmpty := truthy_str |}.

Definition test_env : environment :=
  {| JWT_SECRET := Some "s3cret"; ALPHA_VANTAGE_API_KEY := None |}.

Definition test_runtime : runtime :=
  {| clock := 1700000000000; salt := "salt"; random := fun _ => (1 # 2)%Q |}.

Definition alice : User :=
  {| user_id := 1; user_name := "Alice";
     user_email := "alice@example.com";
     user_password := "h(correct horse)";
     user_role := "user"; user_lastLogin := None;
     user_passwordResetToken := None;
     user_passwordResetExpires := None |}.

Definition alice_tcs : Portfolio :=
  {| pf_id := 1; pf_userId := 1; pf_symbol := "TCS"; pf_quantity := 10;
     pf_purchasePrice := Some (4000 # 1)%Q; pf_purchaseDate := None;
     pf_notes := None |}.

Definition test_db : database :=
  {| Users := [alice]; Portfolios := [alice_tcs];
     next_user_id := 2; next_portfolio_id := 2 |}.

Definition bearer (token : string) : headers :=
  {| authorization := Some ("Bearer " ++ token) |}.

Definition no_headers : headers := {| authorization := None |}.

Definition empty_portfolio_body : portfolio_body :=
  {| pb_symbol := Undefined; pb_quantity := Undefined;
     pb_purchasePrice := Undefined; pb_purchaseDate := Undefined;
     pb_notes := Undefined |}.

(** Alice with another password hash. *)
Definition alice_rehashed : User :=
  {| user_id := 1; user_name := "Alice";
     user_email := "alice@example.com";
     user_password := "h(battery staple)";
     user_role := "user"; user_lastLogin := None;
     user_passwordResetToken := None;
     user_passwordResetExpires := None |}.

Definition test_db_rehashed : database :=
  {| Users := [alice_rehashed]; Portfolios := [alice_tcs];
     next_user_id := 2; next_portfolio_id := 2 |}.

Definition alice_login : login_body :=
  {| li_email := Value "alice@example.com";
     li_password := Value "correct horse" |}.

(** A provider that answers the global request with one article, the
    India request with no [data], and rejects every keyword search. *)
Definition sensex_article : article :=
  {| art_uuid := "u1";
     art_title := "Sensex gains as banks rally";
     art_description := "Indian shares closed higher.";
     art_snippet := EmptyString;
     art_url := "https://example.com/1";
     art_source := "example.com";
     art_published_at := Some (1700000000000 - 3600000)%Z;
     art_entities := None |}.

Definition keyword_outage : world :=
  {| now := 1700000000000;
     VITE_MARKETAUX_API_KEY := Some "key";
     provider := fun r =>
       match req_search r, req_countries r with
       | Some _, _ => FetchThrows
       | None, None => FetchResponse true (JsonData (Some [sensex_article]))
       | None, Some _ => FetchResponse true (JsonData None)
       end;
     storage_accepts := true |}.

(** A provider that rejects every request. *)
Definition total_outage : world :=
  {| now := 1700000000000;
     VITE_MARKETAUX_API_KEY := Some "key";
     provider := fun _ => FetchThrows;
     storage_accepts := true |}.

Definition cold_start : service_state :=
  {| newsCache := None; localStorage_newsCache := LsAbsent |}.

(** A memory cache filled five minutes ago. *)
Definition warm_state : service_state :=
  {| newsCache :=
       Some {| cache_data := getFallbackNews 0;
               cache_timestamp := (1700000000000 - 5 * 60 * 1000)%Z |};
     localStorage_newsCache := LsAbsent |}.

(** [{ symbol: 'tcs', quantity: 5 }] and [{ symbol: 'INFY', quantity: -1 }] *)
Definition five_tcs : portfolio_body :=
  {| pb_symbol := Value "tcs"; pb_quantity := Value 5%Q;
     pb_purchasePrice := Undefined; pb_purchaseDate := Undefined;
     pb_notes := Undefined |}.

Definition minus_one_infy : portfolio_body :=
  {| pb_symbol := Value "INFY"; pb_quantity := Value (-1 # 1)%Q;
     pb_purchasePrice := Undefined; pb_purchaseDate := Undefined;
     pb_notes := Undefined |}.

(** [{ symbol: 'tcs', quantity: -1 }] *)
Definition minus_one_tcs : portfolio_body :=
  {| pb_symbol := Value "tcs"; pb_quantity := Value (-1 # 1)%Q;
     pb_purchasePrice := Undefined; pb_purchaseDate := Undefined;
     pb_notes := Undefined |}.

End Fixtures.

(* ===================================================================== *)
(** * Further vocabulary for the backend                                  *)
(* ===================================================================== *)

Module RouteSpec.

Import Js Backend BackendSpec.

(** The keys of [Users]: the primary key with its auto-increment counter,
    and the unique index on [email]. *)
Definition users_consistent (db : database) : Prop :=
  NoDup (map user_id (Users db))
  /\ (forall user, In user (Users db) -> (user_id user < next_user_id db)%Z)
  /\ NoDup (map user_email (Users db)).

(** What identifies an account and lets its owner in. *)
Definition credentials (user : User) : Z * string * string * string * string :=
  (user_id user, user_name user, user_email user, user_password user,
   user_role user).

(** The status codes each route can answer with. *)
Definition route_statuses (req : request) : list Z :=
  match req with
  | PostSignup _ => [201; 400; 409]
  | PostLogin _ => [200; 400; 401]
  | GetProfile _ => [200; 401; 403; 404]
  | GetPortfolio _ => [200; 401; 403]
  | PostPortfolio _ _ => [200; 201; 400; 401; 403]
  | DeletePortfolio _ _ => [200; 400; 401; 403; 404]
  end%Z.

(** The rows of [Portfolios] that belong to a user. *)
Definition owned_by (userId : Z) (row : Portfolio) : bool :=
  (pf_userId row =? userId)%Z.

(** [object[key]] on a JSON object. *)
Definition json_member (key : string) (j : json) : option json :=
  match j with
  | JObj members =>
      option_map snd (find (fun kv => String.eqb (fst kv) key) members)
  | _ => None
  end.

(** The text has no space in it. *)
Fixpoint spaceless (s : string) : bool :=
  match s with
  | EmptyString => true
  | String c r => negb (Ascii.eqb c " "%char) && spaceless r
  end.

(** Every code unit of the text is below 128.  On such text the case
    mappings of the model are those of JavaScript. *)
Fixpoint ascii_text (s : string) : bool :=
  match s with
  | EmptyString => true
  | String c r => (N_of_ascii c <? 128)%N && ascii_text r
  end.

Section Routes.

Context {TP : ThirdParty}.

Variable env : environment.

(** The user a request acts for: the payload of its token, when the route
    is protected and the token verifies. *)
Definition acting_user (rt : runtime) (req : request) : option claims :=
  match protected_route env rt req with
  | Some (h, _) =>
      match authenticateToken env rt h with
      | Next user => Some user
      | Answered _ => None
      end
  | None => None
  end.

End Routes.

End RouteSpec.

(* ===================================================================== *)
(** * Vocabulary for the portfolio list and the stock data                *)
(* ===================================================================== *)

Module ListingSpec.

Import Js Backend BackendSpec RouteSpec.

(** [order: [['symbol', 'ASC']]] between two rows. *)
Definition by_symbol (a b : Portfolio) : Prop :=
  String.leb (pf_symbol a) (pf_symbol b) = true.

(** The item of the list written for a row: the columns of the row without
    [userId], and a name that is not empty. *)
Definition describes (row : Portfolio) (item : json) : Prop :=
  json_member "id" item = Some (JNum (inject_Z (pf_id row)))
  /\ json_member "symbol" item = Some (JStr (pf_symbol row))
  /\ json_member "quantity" item = Some (JNum (pf_quantity row))
  /\ json_member "purchasePrice" item
     = Some (json_opt JNum (pf_purchasePrice row))
  /\ json_member "userId" item = None
  /\ exists name, json_member "name" item = Some (JStr name)
                  /\ name <> EmptyString.

(** [Math.random()] returns a number from 0 up to, not including, 1. *)
Definition unit_interval (rt : runtime) : Prop :=
  forall n, (0 <= random rt n /\ random rt n < 1)%Q.

(** A second user and a second holding. *)
Definition bob_claims : claims :=
  {| claim_id := 2; claim_email := "bob@example.com"; claim_role := "user" |}.

Definition alice_infy : Portfolio :=
  {| pf_id := 2; pf_userId := 1; pf_symbol := "INFY"; pf_quantity := 3;
     pf_purchasePrice := None; pf_purchaseDate := None; pf_notes := None |}.

Definition bob_tcs : Portfolio :=
  {| pf_id := 3; pf_userId := 2; pf_symbol := "TCS"; pf_quantity := 1;
     pf_purchasePrice := None; pf_purchaseDate := None; pf_notes := None |}.

Definition two_users_db : database :=
  {| Users := [Fixtures.alice];
     Portfolios := [Fixtures.alice_tcs; bob_tcs; alice_infy];
     next_user_id := 3; next_portfolio_id := 4 |}.

Definition no_accounts : database :=
  {| Users := []; Portfolios := []; next_user_id := 1;
     next_portfolio_id := 1 |}.

Definition alice_signup : signup_body :=
  {| su_name := Value "Alice"; su_email := Value "alice@example.com";
     su_password := Value "correct horse" |}.

Definition five_infy : portfolio_body :=
  {| pb_symbol := Value "infy"; pb_quantity := Value 5%Q;
     pb_purchasePrice := Value 0%Q; pb_purchaseDate := Undefined;
     pb_notes := Value EmptyString |}.


End ListingSpec.

(* ===================================================================== *)
(** * The portfolio filter of the news feed, and further vocabulary       *)
(* ===================================================================== *)

Module NewsMore.

Import Js News NewsSpec.

(** ** filterNewsByStocks *)

(** The callback of [news.filter]: a relevant stock equals a stock of the
    user up to case, or a stock of the user occurs, in lower case, in the
    lower-cased headline or summary. *)
Definition mentionsStock (stocks : list string) (item : NewsItem) : bool :=
  existsb (fun stock =>
             existsb (fun userStock =>
                        String.eqb (toUpperCase userStock) (toUpperCase stock))
                     stocks)
          (item_relevantStocks item)
  || existsb (fun userStock =>
                includes (toLowerCase (item_headline item))
                         (toLowerCase userStock)
                || includes (toLowerCase (item_summary item))
                            (toLowerCase userStock))
             stocks.

Definition filterNewsByStocks (news : list NewsItem) (stocks : list string)
  : list NewsItem :=
  filter (mentionsStock stocks) news.

(** [activeTab === 'portfolio'
       ? (portfolioStocks.length > 0
            ? filterNewsByStocks(news, portfolioStocks) : [])
       : news] in the news feed. *)
Definition filteredNews (portfolioTab : bool) (news : list NewsItem)
    (portfolioStocks : list string) : list NewsItem :=
  if portfolioTab
  then if (0 <? List.length portfolioStocks)%nat
       then filterNewsByStocks news portfolioStocks
       else []
  else news.

(** ** Vocabulary *)

(** The test [index === self.findIndex(...)] of [uniqueArticles]. *)
Definition firstAt (allArticles : list article) (ia : nat * article) : bool :=
  match findIndex (fun a => String.eqb (art_uuid a) (art_uuid (snd ia)))
                  allArticles with
  | Some j => Nat.eqb (fst ia) j
  | None => false
  end.

(** The articles of [l] whose uuid occurs neither in [seen] nor earlier in
    [l]. *)
Fixpoint keepFirst (seen l : list article) : list article :=
  match l with
  | [] => []
  | a :: r =>
      if isNew seen a then a :: keepFirst (seen ++ [a])%list r
      else keepFirst (seen ++ [a])%list r
  end.

Definition has_uuid (u : string) (a : article) : bool :=
  String.eqb (art_uuid a) u.

(** [a] is not older than [b], both carrying a time. *)
Definition newest_first (a b : NewsItem) : Prop :=
  exists ta tb, item_timestamp a = Some ta /\ item_timestamp b = Some tb
                /\ (tb <= ta)%Z.

(** The item carries a time within the last three days, and is flagged
    recent exactly when the time is within the last 24 hours. *)
Definition timed (w : world) (item : NewsItem) : Prop :=
  exists t, item_timestamp item = Some t
            /\ (now w - 3 * day_ms <= t)%Z
            /\ item_isRecent item = (now w - day_ms <=? t)%Z.

(** The requests of one run of the three strategies: the global one, the
    India one or not, and the first [j] keyword searches. *)
Definition request_plan (apiKey : string) (india : bool) (j : nat)
  : list query :=
  (globalParams apiKey
   :: (if india then [indiaParams apiKey] else [])
   ++ map (keywordParams apiKey) (firstn j search_keywords))%list.

(** A headline about a holding, and one about nothing the user holds. *)
Definition tcs_item : NewsItem :=
  {| item_id := "n1"; item_headline := "TCS wins a large deal";
     item_summary := "The order book grows."; item_source := "wire";
     item_timestamp := Some 1700000000000%Z; item_url := "#";
     item_relevantStocks := []; item_category := Company;
     item_isRecent := true |}.

Definition later_world (w : world) (elapsed : Z) : world :=
  {| now := (now w + elapsed)%Z;
     VITE_MARKETAUX_API_KEY := None;
     provider := fun _ => FetchThrows;
     storage_accepts := false |}.

End NewsMore.

(* ===================================================================== *)
(** * The AI service                                                      *)
(* ===================================================================== *)

(** The service that asks OpenRouter for analyses.  The model served
    enters as an oracle: what a completion call does.  A reply that parses
    is read through the [x || default] expressions of the code, under the
    assumption that a field which is present has the type the prompt asks
    for.  Numbers are exact rationals. *)
Module AiService.

Import Js News.

Record AIInsight := {
  ins_stock : string;
  ins_sentiment : string;
  ins_impact : string;
  ins_confidence : Q;
  ins_reasoning : string;
  ins_recommendation : string
}.

Record MarketSentiment := {
  ms_overall : string;
  ms_confidence : Q;
  ms_summary : string;
  ms_keyFactors : list string
}.

Record RiskAssessment := {
  ra_riskLevel : string;
  ra_diversificationScore : Q;
  ra_recommendations : list string;
  ra_riskFactors : list string
}.

(** What one call of [openai.chat.completions.create] followed by reading
    [choices[0].message.content] and [JSON.parse] comes to: the call (or
    the reading) throws, the content is falsy, the content does not parse,
    or it parses to an object. *)
Inductive completion (A : Type) :=
| ApiThrows
| NoContent
| Unparsable
| Parsed (analysis : A).
Arguments ApiThrows {A}.
Arguments NoContent {A}.
Arguments Unparsable {A}.
Arguments Parsed {A} analysis.

(** The fields read from a parsed reply; [None] is a missing field. *)
Record insight_analysis := {
  an_sentiment : option string;
  an_impact : option string;
  an_confidence : option Q;
  an_reasoning : option string;
  an_recommendation : option string
}.

Record market_analysis := {
  ma_overall : option string;
  ma_confidence : option Q;
  ma_summary : option string;
  ma_keyFactors : option (list string)
}.

Record risk_analysis := {
  rk_riskLevel : option string;
  rk_diversificationScore : option Q;
  rk_recommendations : option (list string);
  rk_riskFactors : option (list string)
}.

(** The environment of the service.  [insight_completion n stock news] is
    the [n]-th completion call of [analyzeNewsImpact], made for [stock]
    with the news put into the prompt. *)
Record ai_world := {
  VITE_OPENROUTER_API_KEY : option string;
  import_openai : bool;
  insight_completion :
    nat -> string -> list NewsItem -> completion insight_analysis;
  market_completion : list NewsItem -> completion market_analysis;
  risk_completion : nat -> completion risk_analysis
}.

(** [getOpenAIClient]: throws without a key, and when the dynamic import
    of the package is rejected. *)
Definition getOpenAIClient (w : ai_world) : outcome unit :=
  match VITE_OPENROUTER_API_KEY w with
  | Some apiKey =>
      if truthy_str apiKey
      then if import_openai w then Returned tt else Thrown
      else Thrown
  | None => Thrown
  end.

(** [x || d] on a text and on a number. *)
Definition text_or (x : option string) (d : string) : string :=
  match x with
  | Some s => if truthy_str s then s else d
  | None => d
  end.

Definition number_or (x : option Q) (d : Q) : Q :=
  match x with
  | Some q => if Qeq_bool q 0 then d else q
  | None => d
  end.

(** [Math.min(Math.max(x, 0), 1)] *)
Definition clamp01 (x : Q) : Q := Qmin (Qmax x 0) 1.

(** ** The keyword fallback *)

Definition positiveKeywords : list string :=
  ["profit"; "growth"; "wins"; "surge"; "high"; "strong"; "robust";
   "improves"; "beats"; "exceeds"].

Definition negativeKeywords : list string :=
  ["loss"; "decline"; "falls"; "weak"; "concern"; "issue"; "problem";
   "drops"; "misses"].

(** The two [forEach] loops over the keywords, for one item. *)
Definition scoreItem (sentimentScore : Z) (item : NewsItem) : Z :=
  let text := toLowerCase (item_headline item ++ " " ++ item_summary item) in
  let afterPositive :=
    fold_left (fun score keyword =>
                 if includes text keyword then (score + 1)%Z else score)
              positiveKeywords sentimentScore in
  fold_left (fun score keyword =>
               if includes text keyword then (score - 1)%Z else score)
            negativeKeywords afterPositive.

Definition sentimentScoreOf (relevantNews : list NewsItem) : Z :=
  fold_left scoreItem relevantNews 0%Z.

Definition sentimentOf (sentimentScore : Z) : string :=
  if (0 <? sentimentScore)%Z then "positive"
  else if (sentimentScore <? 0)%Z then "negative" else "neutral".

Definition impactOf (sentimentScore : Z) : string :=
  if (2 <=? Z.abs sentimentScore)%Z then "high"
  else if (1 <=? Z.abs sentimentScore)%Z then "medium" else "low".

Definition confidenceOf (sentimentScore : Z) : Q :=
  Qmin (7 # 10) ((4 # 10) + inject_Z (Z.abs sentimentScore) * (1 # 10)).

Definition getFallbackInsight (stock : string) (relevantNews : list NewsItem)
  : AIInsight :=
  let sentimentScore := sentimentScoreOf relevantNews in
  let sentiment := sentimentOf sentimentScore in
  {| ins_stock := stock;
     ins_sentiment := sentiment;
     ins_impact := impactOf sentimentScore;
     ins_confidence := confidenceOf sentimentScore;
     ins_reasoning :=
       "Based on keyword analysis of "
       ++ NilEmpty.string_of_uint (Nat.to_uint (List.length relevantNews))
       ++ " news items. " ++ sentiment ++ " sentiment detected.";
     ins_recommendation :=
       if String.eqb sentiment "positive"
       then "Consider maintaining or increasing position."
       else if String.eqb sentiment "negative"
            then "Monitor closely and consider risk management."
            else "Hold current position and await further developments." |}.

(** ** analyzeNewsImpact *)

(** The callback of [news.filter] for one stock. *)
Definition relevantTo (stock : string) (item : NewsItem) : bool :=
  existsb (fun newsStock =>
             String.eqb (toUpperCase newsStock) (toUpperCase stock))
          (item_relevantStocks item)
  || includes (toLowerCase (item_headline item)) (toLowerCase stock)
  || includes (toLowerCase (item_summary item)) (toLowerCase stock).

Definition noNewsInsight (stock : string) : AIInsight :=
  {| ins_stock := stock;
     ins_sentiment := "neutral";
     ins_impact := "low";
     ins_confidence := 3 # 10;
     ins_reasoning :=
       "No specific news found for this stock in recent updates.";
     ins_recommendation :=
       "Monitor for upcoming developments and earnings reports." |}.

Definition parsedInsight (stock : string) (analysis : insight_analysis)
  : AIInsight :=
  {| ins_stock := stock;
     ins_sentiment := text_or (an_sentiment analysis) "neutral";
     ins_impact := text_or (an_impact analysis) "low";
     ins_confidence := clamp01 (number_or (an_confidence analysis) (1 # 2));
     ins_reasoning :=
       text_or (an_reasoning analysis)
               "Analysis completed based on available news.";
     ins_recommendation :=
       text_or (an_recommendation analysis) "Monitor stock performance." |}.

(** The [for (const stock of portfolioStocks)] loop; [calls] counts the
    completion calls made so far. *)
Fixpoint insightsLoop (w : ai_world) (news : list NewsItem)
    (portfolioStocks : list string) (calls : nat) : list AIInsight :=
  match portfolioStocks with
  | [] => []
  | stock :: rest =>
      let relevantNews := filter (relevantTo stock) news in
      if (List.length relevantNews =? 0)%nat
      then noNewsInsight stock :: insightsLoop w news rest calls
      else
        match insight_completion w calls stock relevantNews with
        | Parsed analysis =>
            parsedInsight stock analysis
            :: insightsLoop w news rest (S calls)
        | NoContent => insightsLoop w news rest (S calls)
        | Unparsable =>
            getFallbackInsight stock relevantNews
            :: insightsLoop w news rest (S calls)
        | ApiThrows =>
            getFallbackInsight stock relevantNews
            :: insightsLoop w news rest (S calls)
        end
  end.

Definition analyzeNewsImpact (w : ai_world) (news : list NewsItem)
    (portfolioStocks : list string) : list AIInsight :=
  match getOpenAIClient w with
  | Returned _ => insightsLoop w news portfolioStocks 0
  | Thrown => map (fun stock => getFallbackInsight stock news) portfolioStocks
  end.

(** ** analyzeMarketSentiment *)

Definition isCategory (c : category) (item : NewsItem) : bool :=
  match c, item_category item with
  | Market, Market => true
  | Company, Company => true
  | Policy, Policy => true
  | Economy, Economy => true
  | _, _ => false
  end.

Definition headlineHas (keyword : string) (item : NewsItem) : bool :=
  includes (toLowerCase (item_headline item)) keyword.

Definition getFallbackMarketSentiment (news : list NewsItem)
  : MarketSentiment :=
  let marketNews :=
    filter (fun item => isCategory Market item || isCategory Policy item)
           news in
  let positiveCount :=
    List.length
      (filter (fun item => headlineHas "high" item || headlineHas "surge" item
                           || headlineHas "growth" item) marketNews) in
  let negativeCount :=
    List.length
      (filter (fun item => headlineHas "fall" item
                           || headlineHas "decline" item
                           || headlineHas "concern" item) marketNews) in
  let overall :=
    if (negativeCount <? positiveCount)%nat then "bullish"
    else if (positiveCount <? negativeCount)%nat then "bearish"
         else "neutral" in
  {| ms_overall := overall;
     ms_confidence := 6 # 10;
     ms_summary :=
       "Market sentiment appears " ++ overall
       ++ " based on recent news analysis using fallback method.";
     ms_keyFactors :=
       ["News sentiment analysis"; "Market performance indicators";
        "Policy developments"; "Economic trends"] |}.

Definition list_or (x : option (list string)) (d : list string)
  : list string :=
  match x with
  | Some l => l
  | None => d
  end.

Definition analyzeMarketSentiment (w : ai_world) (news : list NewsItem)
  : MarketSentiment :=
  match getOpenAIClient w with
  | Thrown => getFallbackMarketSentiment news
  | Returned _ =>
      let marketNews :=
        firstn 10
          (filter (fun item => isCategory Market item
                               || isCategory Policy item
                               || isCategory Economy item) news) in
      if (List.length marketNews =? 0)%nat
      then {| ms_overall := "neutral";
              ms_confidence := 3 # 10;
              ms_summary :=
                "Insufficient market news for sentiment analysis.";
              ms_keyFactors := ["Limited news data available"] |}
      else
        match market_completion w marketNews with
        | Parsed analysis =>
            {| ms_overall := text_or (ma_overall analysis) "neutral";
               ms_confidence :=
                 clamp01 (number_or (ma_confidence analysis) (1 # 2));
               ms_summary :=
                 text_or (ma_summary analysis)
                         "Market sentiment analysis completed.";
               ms_keyFactors :=
                 list_or (ma_keyFactors analysis)
                   ["Market analysis"; "Economic factors";
                    "Policy developments"; "Global trends"] |}
        | _ => getFallbackMarketSentiment news
        end
  end.

(** ** analyzePortfolioRisk *)

(** The fallback at the end of [analyzePortfolioRisk]; only the number of
    stocks is read. *)
Definition fallbackRisk (count : nat) : RiskAssessment :=
  {| ra_riskLevel :=
       if (count <? 3)%nat then "high"
       else if (count <? 7)%nat then "medium" else "low";
     ra_diversificationScore := Qmin (Z.of_nat count # 10) 1;
     ra_recommendations :=
       ["Consider adding more diverse stocks"; "Monitor market conditions";
        "Review portfolio allocation"];
     ra_riskFactors :=
       ["Limited diversification"; "Market volatility";
        "Sector concentration"] |}.

(** [count] is [stocks.length]; the completion is the one asked for these
    stocks. *)
Definition analyzePortfolioRisk (w : ai_world) (count : nat)
  : RiskAssessment :=
  match getOpenAIClient w with
  | Thrown => fallbackRisk count
  | Returned _ =>
      match risk_completion w count with
      | Parsed analysis =>
          {| ra_riskLevel := text_or (rk_riskLevel analysis) "medium";
             ra_diversificationScore :=
               clamp01 (number_or (rk_diversificationScore analysis) (1 # 2));
             ra_recommendations :=
               list_or (rk_recommendations analysis)
                 ["Monitor portfolio regularly"; "Consider diversification";
                  "Review risk tolerance"];
             ra_riskFactors :=
               list_or (rk_riskFactors analysis)
                 ["Market volatility"; "Sector concentration";
                  "Economic factors"] |}
      | _ => fallbackRisk count
      end
  end.

End AiService.

(* ===================================================================== *)
(** * Vocabulary for the statements about the AI service                  *)
(* ===================================================================== *)

Module AiSpec.

Import Js News AiService.

Definition within_unit (q : Q) : Prop := (0 <= q /\ q <= 1)%Q.

(** What an insight says about the stock, apart from its name. *)
Definition verdict (i : AIInsight) : string * string * Q :=
  (ins_sentiment i, ins_impact i, ins_confidence i).

(** The news of no interest to the market fallback. *)
Definition offMarket (item : NewsItem) : bool :=
  isCategory Company item || isCategory Economy item.

(** How risky a level is. *)
Definition riskRank (level : string) : nat :=
  if String.eqb level "high" then 2
  else if String.eqb level "medium" then 1 else 0.

(** A service without a key, and one whose model never answers. *)
Definition no_key : ai_world :=
  {| VITE_OPENROUTER_API_KEY := None;
     import_openai := true;
     insight_completion := fun _ _ _ => ApiThrows;
     market_completion := fun _ => ApiThrows;
     risk_completion := fun _ => ApiThrows |}.

Definition silent_model : ai_world :=
  {| VITE_OPENROUTER_API_KEY := Some "sk";
     import_openai := true;
     insight_completion := fun _ _ _ => NoContent;
     market_completion := fun _ => NoContent;
     risk_completion := fun _ => NoContent |}.

Definition surge_item : NewsItem :=
  {| item_id := "n2"; item_headline := "Nifty hits record high";
     item_summary := "Strong growth lifts the index."; item_source := "wire";
     item_timestamp := Some 1700000000000%Z; item_url := "#";
     item_relevantStocks := ["TCS"]; item_category := Market;
     item_isRecent := true |}.

End AiSpec.

(* ===================================================================== *)
(** * The application shell                                               *)
(* ===================================================================== *)

(** [checkAuthStatus] of the [App] component.  [JSON.parse] enters as a function that returns the parsed user or
    throws. *)
Module AppShell.

Import Js.

(** The two keys of [localStorage] the shell reads. *)
Record storage := {
  ls_token : option string;
  ls_user : option string
}.

Section Shell.

Variable parsed_user : Type.

Variable JSON_parse : string -> outcome parsed_user.

(** The React state: [user] and [isAuthenticated]. *)
Record app_state := {
  st_user : option parsed_user;
  st_isAuthenticated : bool
}.

(** [checkAuthStatus()]: the value returned, the state set and the storage
    afterwards. *)
Definition checkAuthStatus (ls : storage) : bool * app_state * storage :=
  match ls_token ls, ls_user ls with
  | Some token, Some userData =>
      if truthy_str token && truthy_str userData
      then
        match JSON_parse userData with
        | Returned parsedUser =>
            (true,
             {| st_user := Some parsedUser; st_isAuthenticated := true |},
             ls)
        | Thrown =>
            (false,
             {| st_user := None; st_isAuthenticated := false |},
             {| ls_token := None; ls_user := None |})
        end
      else (false, {| st_user := None; st_isAuthenticated := false |}, ls)
  | _, _ => (false, {| st_user := None; st_isAuthenticated := false |}, ls)
  end.

End Shell.

Arguments st_user {parsed_user} a.
Arguments st_isAuthenticated {parsed_user} a.

(** A parser that accepts only the text [{}]. *)
Definition braces_only (s : string) : outcome unit :=
  if String.eqb s "{}" then Returned tt else Thrown.

End AppShell.

(* ===================================================================== *)
(** * News for given stocks                                               *)
(* ===================================================================== *)

(** [fetchStockSpecificNews] of the news service.  Its one request has
    other parameters than those of [fetchNews], so the provider enters as
    a second function. *)
Module StockNews.

Import Js News.

(** The parameters that vary: the key, the [symbols] text and the day of
    [published_after], counted in days since the epoch. *)
Record stock_query := {
  sq_api_token : string;
  sq_symbols : string;
  sq_published_after : Z
}.

(** [symbols.map(symbol => `${symbol}.NSE,${symbol}.BSE`).join(',')] *)
Definition symbolsParam (symbols : list string) : string :=
  String.concat "," (map (fun symbol => symbol ++ ".NSE," ++ symbol ++ ".BSE")
                         symbols).

(** [new Date(Date.now() - 24 * 60 * 60 * 1000).toISOString().split('T')[0]] *)
Definition publishedAfter (w : world) : Z := ((now w - day_ms) / day_ms)%Z.

(** [s.split('.')[0]] *)
Fixpoint before_dot (s : string) : string :=
  match s with
  | EmptyString => EmptyString
  | String c r => if Ascii.eqb c "."%char then EmptyString
                  else String c (before_dot r)
  end.

(** The response as the body of the [try] reads it: a response that is
    not ok throws, and so does [data.data.map] when [data] is missing. *)
Definition stockArticles (fetched : fetch_outcome) : outcome (list article) :=
  match fetched with
  | FetchThrows => Thrown
  | FetchResponse false _ => Thrown
  | FetchResponse true JsonThrows => Thrown
  | FetchResponse true (JsonData None) => Thrown
  | FetchResponse true (JsonData (Some data)) => Returned data
  end.

(** The callback of [data.data.map]; [article.entities.filter] throws when
    the article has no [entities].  The item has no [isRecent], which
    reads as false. *)
Definition stockItem (symbols : list string) (a : article)
  : outcome NewsItem :=
  match art_entities a with
  | None => Thrown
  | Some entities =>
      let summary :=
        or_str (art_description a) (or_str (art_snippet a) EmptyString) in
      Returned
        {| item_id := art_uuid a;
           item_headline := art_title a;
           item_summary := summary;
           item_source := art_source a;
           item_timestamp := art_published_at a;
           item_url := art_url a;
           item_relevantStocks :=
             filter (fun symbol =>
                       existsb (String.eqb (toUpperCase symbol)) symbols)
               (map (fun e => before_dot (ent_symbol e))
                  (filter (fun e => String.eqb (ent_type e) "equity")
                          entities));
           item_category := categorizeNews (art_title a) summary;
           item_isRecent := false |}
  end.

Fixpoint stockItems (symbols : list string) (data : list article)
  : outcome (list NewsItem) :=
  match data with
  | [] => Returned []
  | a :: rest =>
      match stockItem symbols a, stockItems symbols rest with
      | Returned item, Returned items => Returned (item :: items)
      | _, _ => Thrown
      end
  end.

Definition fetchStockSpecificNews (w : world)
    (stock_provider : stock_query -> fetch_outcome) (symbols : list string)
  : list NewsItem :=
  match getApiKey w with
  | Thrown => []
  | Returned apiKey =>
      match stockArticles
              (stock_provider {| sq_api_token := apiKey;
                                 sq_symbols := symbolsParam symbols;
                                 sq_published_after := publishedAfter w |})
      with
      | Thrown => []
      | Returned data =>
          match stockItems symbols data with
          | Thrown => []
          | Returned items => items
          end
      end
  end.

(** The articles the one request returns, if the key is there and the
    response is usable. *)
Definition stock_data_of (w : world)
    (stock_provider : stock_query -> fetch_outcome) (symbols : list string)
  : option (list article) :=
  match getApiKey w with
  | Thrown => None
  | Returned apiKey =>
      match stockArticles
              (stock_provider {| sq_api_token := apiKey;
                                 sq_symbols := symbolsParam symbols;
                                 sq_published_after := publishedAfter w |})
      with
      | Thrown => None
      | Returned data => Some data
      end
  end.

(** The text has no dot in it. *)
Fixpoint dotless (s : string) : bool :=
  match s with
  | EmptyString => true
  | String c r => negb (Ascii.eqb c "."%char) && dotless r
  end.

(** An article about TCS, and a provider that returns it for any query. *)
Definition tcs_article : article :=
  {| art_uuid := "u2"; art_title := "TCS posts results";
     art_description := EmptyString; art_snippet := "Revenue up.";
     art_url := "https://example.com/2"; art_source := "example.com";
     art_published_at := Some 1700000000000%Z;
     art_entities :=
       Some [{| ent_symbol := "TCS.NSE"; ent_type := "equity";
                ent_country := "in" |}] |}.

Definition tcs_provider (q : stock_query) : fetch_outcome :=
  FetchResponse true (JsonData (Some [tcs_article])).

End StockNews.

(* ===================================================================== *)
(** * Facts about the string primitives                                   *)
(* ===================================================================== *)

Module JsFacts.

Import Js.

Lemma prefix_app (k s : string) :
  prefix k s = true <-> exists post, s = k ++ post.
Proof.
  revert s; induction k as [|c k IH]; intros s.
  - destruct s; simpl; split; eauto.
  - destruct s as [|d s]; simpl.
    + split; [discriminate | intros [post H]; discriminate].
    + destruct (ascii_dec c d) as [->|Hne].
      * rewrite IH. split; intros [post H]; exists post.
        -- now rewrite H.
        -- now inversion H.
      * split; [discriminate | intros [post H]; inversion H; congruence].
Qed.

Lemma includes_Substring (s k : string) :
  includes s k = true <-> Substring k s.
Proof.
  unfold Substring. induction s as [|c s IH].
  - cbn [includes]. rewrite orb_false_r, prefix_app. split.
    + intros [post H]. exists EmptyString, post. exact H.
    + intros [pre [post H]]. destruct pre; simpl in H.
      * now exists post.
      * discriminate.
  - cbn [includes]. rewrite orb_true_iff, prefix_app, IH. split.
    + intros [[post H] | [pre [post H]]].
      * exists EmptyString, post. exact H.
      * exists (String c pre), post. simpl. now rewrite H.
    + intros [pre [post H]]. destruct pre as [|d pre]; simpl in H.
      * left. now exists post.
      * right. inversion H. now exists pre, post.
Qed.

Lemma includes_any_Substring (s : string) (ks : list string) :
  includes_any s ks = true <-> exists k, In k ks /\ Substring k s.
Proof.
  unfold includes_any. rewrite existsb_exists.
  split; intros [k [Hin H]]; exists k; split; auto;
    now apply includes_Substring.
Qed.

Lemma upper_ascii_idem (c : ascii) : upper_ascii (upper_ascii c) = upper_ascii c.
Proof. destruct c as [[] [] [] [] [] [] [] []]; reflexivity. Qed.

Lemma toUpperCase_idem (s : string) : toUpperCase (toUpperCase s) = toUpperCase s.
Proof.
  induction s as [|c s IH]; simpl; [reflexivity|].
  now rewrite upper_ascii_idem, IH.
Qed.

Lemma toUpperCase_length (s : string) :
  String.length (toUpperCase s) = String.length s.
Proof. induction s; simpl; auto. Qed.

Lemma toUpperCase_empty (s : string) : toUpperCase s = EmptyString <-> s = EmptyString.
Proof. destruct s; simpl; split; congruence. Qed.

Lemma truthy_toUpperCase (s : string) :
  truthy_str (toUpperCase s) = truthy_str s.
Proof. destruct s; reflexivity. Qed.

End JsFacts.

(* ===================================================================== *)
(** * Results about the news service                                      *)
(* ===================================================================== *)

Module NewsFacts.

Import Js JsFacts News NewsSpec.

Lemma includes4 (t a b c d : string) :
  includes t a || includes t b || includes t c || includes t d
  = includes_any t [a; b; c; d].
Proof.
  unfold includes_any. simpl. rewrite orb_false_r.
  now rewrite !orb_assoc.
Qed.

Lemma categorizeNews_unfold (title description : string) :
  categorizeNews title description =
  let text := toLowerCase (title ++ " " ++ description) in
  if includes_any text policy_keywords then Policy
  else if includes_any text economy_keywords then Economy
  else if includes_any text market_index_keywords then Market
  else Company.
Proof.
  unfold categorizeNews, policy_keywords, economy_keywords,
    market_index_keywords.
  cbv zeta. now rewrite !includes4.
Qed.

Lemma mentions_dec (text : string) (group : list string) :
  (includes_any text group = true /\ mentions text group) \/
  (includes_any text group = false /\ ~ mentions text group).
Proof.
  destruct (includes_any text group) eqn:E.
  - left. split; auto. now apply includes_any_Substring.
  - right. split; auto. intros H.
    apply includes_any_Substring in H. congruence.
Qed.

(** C7. [categorizeNews] looks for fixed keywords in the lower-cased
    "title description" text: a policy keyword gives 'policy'; failing
    that an economy keyword gives 'economy'; failing that a market keyword
    gives 'market'; otherwise the answer is 'company'.  The answer is one
    of these four names and the earlier groups win. *)
Theorem categorizeNews_spec (title description : string) :
  let text := toLowerCase (title ++ " " ++ description) in
  (mentions text ["rbi"; "policy"; "regulation"; "government"] ->
     categorizeNews title description = Policy) /\
  (~ mentions text ["rbi"; "policy"; "regulation"; "government"] ->
   mentions text ["gdp"; "inflation"; "economy"; "economic"] ->
     categorizeNews title description = Economy) /\
  (~ mentions text ["rbi"; "policy"; "regulation"; "government"] ->
   ~ mentions text ["gdp"; "inflation"; "economy"; "economic"] ->
   mentions text ["nifty"; "sensex"; "market"; "index"] ->
     categorizeNews title description = Market) /\
  (~ mentions text ["rbi"; "policy"; "regulation"; "government"] ->
   ~ mentions text ["gdp"; "inflation"; "economy"; "economic"] ->
   ~ mentions text ["nifty"; "sensex"; "market"; "index"] ->
     categorizeNews title description = Company) /\
  In (category_name (categorizeNews title description))
     ["policy"; "economy"; "market"; "company"].
Proof.
  intros text. rewrite categorizeNews_unfold. cbv zeta. fold text.
  unfold policy_keywords, economy_keywords, market_index_keywords.
  destruct (mentions_dec text ["rbi"; "policy"; "regulation"; "government"])
    as [[E1 Hp] | [E1 Hp]];
  destruct (mentions_dec text ["gdp"; "inflation"; "economy"; "economic"])
    as [[E2 He] | [E2 He]];
  destruct (mentions_dec text ["nifty"; "sensex"; "market"; "index"])
    as [[E3 Hm] | [E3 Hm]];
  rewrite E1; try rewrite E2; try rewrite E3;
  repeat split; intros; try reflexivity; try contradiction;
    simpl; tauto.
Qed.

Lemma categorizeNews_spec_witness :
  categorizeNews "RBI holds rates as GDP grows" "Sensex flat" = Policy.
Proof.
  apply (proj1 (categorizeNews_spec "RBI holds rates as GDP grows" "Sensex flat")).
  exists "rbi". split; [simpl; auto|].
  exists EmptyString, " holds rates as gdp grows sensex flat". reflexivity.
Defined.

End NewsFacts.

(* ===================================================================== *)
(** * Results about the cache and the fallback of the news service        *)
(* ===================================================================== *)

Module NewsCacheFacts.

Import Js News NewsSpec.

Lemma unexpired_age (w : world) (e : cache_entry) :
  unexpired w e = true <-> (age w e < CACHE_DURATION)%Z.
Proof. unfold unexpired, age. apply Z.ltb_lt. Qed.

Lemma unexpired_false_age (w : world) (e : cache_entry) :
  unexpired w e = false <-> ~ (age w e < CACHE_DURATION)%Z.
Proof. unfold unexpired, age. rewrite Z.ltb_ge. lia. Qed.

Lemma isCacheActive_fresh (w : world) (st : service_state) :
  isCacheActive w st = true <-> memory_fresh w st.
Proof.
  unfold isCacheActive, memory_fresh. destruct (newsCache st) as [c|].
  - rewrite unexpired_age. split.
    + intros H. now exists c.
    + intros [c' [E H]]. now inversion E; subst.
  - split; [discriminate | intros [c [E _]]; discriminate].
Qed.

Lemma fetchNews_hit (w : world) (st : service_state) (c : cache_entry) :
  newsCache st = Some c -> (age w c < CACHE_DURATION)%Z ->
  fetchNews w st =
  {| served := FromCache; items := cache_data c;
     requests := []; state_after := st |}.
Proof.
  intros E H. unfold fetchNews. rewrite E.
  apply unexpired_age in H. now rewrite H.
Qed.

Lemma fetchNews_miss (w : world) (st : service_state) :
  isCacheActive w st = false -> fetchNews w st = fetchFresh w st.
Proof.
  unfold isCacheActive, fetchNews. destruct (newsCache st) as [c|]; auto.
  now intros ->.
Qed.

Lemma fetchFresh_not_from_cache (w : world) (st : service_state) :
  served (fetchFresh w st) <> FromCache.
Proof.
  unfold fetchFresh, useFallback.
  destruct (getApiKey w) as [k|]; [|discriminate].
  destruct (collectArticles w k) as [sent [all|]]; [|discriminate].
  simpl. destruct (List.length (processArticles w all) =? 0)%nat;
    discriminate.
Qed.



Lemma getCachedNews_memory (w : world) (st : service_state) (c : cache_entry) :
  newsCache st = Some c -> (age w c < CACHE_DURATION)%Z ->
  getCachedNews w st = (cache_data c, st).
Proof.
  intros E H. unfold getCachedNews. rewrite E.
  apply unexpired_age in H. now rewrite H.
Qed.


Lemma cachedInLocalStorage_fresh (w : world) (st : service_state)
    (e : cache_entry) :
  localStorage_newsCache st = LsEntry e -> (age w e < CACHE_DURATION)%Z ->
  cachedInLocalStorage w st =
  (cache_data e, {| newsCache := Some e;
                    localStorage_newsCache := localStorage_newsCache st |}).
Proof.
  intros E H. unfold cachedInLocalStorage. rewrite E.
  apply unexpired_age in H. now rewrite H.
Qed.

Lemma cachedInLocalStorage_none (w : world) (st : service_state) :
  ~ stored_fresh w st -> cachedInLocalStorage w st = ([], st).
Proof.
  intros H. unfold cachedInLocalStorage.
  destruct (localStorage_newsCache st) as [| |e] eqn:E; auto.
  destruct (unexpired w e) eqn:U; auto.
  exfalso. apply H. exists e. split; auto. now apply unexpired_age.
Qed.


End NewsCacheFacts.

(* ===================================================================== *)
(** * Results about authentication                                        *)
(* ===================================================================== *)

Module AuthFacts.

Import Js JsFacts Backend BackendSpec Fixtures.

Section Auth.

Context {TP : ThirdParty}.

Variable env : environment.

Lemma User_findOne_Some (email : string) (db : database) (user : User) :
  User_findOne email db = Some user ->
  In user (Users db) /\ user_email user = email.
Proof.
  unfold User_findOne. intros H. apply find_some in H.
  destruct H as [Hin He]. split; auto. now apply String.eqb_eq.
Qed.

Lemma User_findOne_None (email : string) (db : database) :
  User_findOne email db = None <->
  forall user, In user (Users db) -> user_email user <> email.
Proof.
  unfold User_findOne. split.
  - intros H user Hin He.
    apply (find_none _ _ H) in Hin. apply String.eqb_neq in Hin. auto.
  - intros H. destruct (find _ _) as [user|] eqn:E; auto.
    apply find_some in E. destruct E as [Hin He].
    apply String.eqb_eq in He. exfalso. eapply H; eauto.
Qed.

(** C1. A login request that carries an e-mail and a password gets a token
    exactly when a user with that e-mail exists and the password matches
    the stored hash: the answer is then 200 with the JWT signed over the
    user's id, e-mail and role with [expiresIn: '7d'] (and the user without
    its secrets).  When no user has that e-mail, or the password does not
    match, the answer is 401 "Invalid credentials", which carries no token,
    and the database is untouched. *)
Theorem login_token_or_401 (rt : runtime) (b : login_body) (db : database)
    (email password : string) :
  present (li_email b) = Some email ->
  present (li_password b) = Some password ->
  (forall user,
     User_findOne email db = Some user ->
     bcrypt_compare password (user_password user) = true ->
     In user (Users db) /\ user_email user = email /\
     login env rt b db =
     ({| status := 200;
         body := JObj [("token",
                        JStr (jwt_sign (claims_of user) (signing_secret env)
                                       "7d" (clock rt)));
                       ("user", User_toJSON (touch_lastLogin rt user))] |},
      User_save (touch_lastLogin rt user) db)) /\
  ((forall user, In user (Users db) -> user_email user <> email) ->
     login env rt b db = (error_response 401 "Invalid credentials", db)) /\
  (forall user,
     User_findOne email db = Some user ->
     bcrypt_compare password (user_password user) = false ->
     login env rt b db = (error_response 401 "Invalid credentials", db)).
Proof.
  intros He Hp. unfold login. rewrite He, Hp. repeat split.
  - now apply (User_findOne_Some _ _ _ H).
  - now apply (User_findOne_Some _ _ _ H).
  - rewrite H. unfold validPassword. rewrite H0. reflexivity.
  - intros H. apply User_findOne_None in H. now rewrite H.
  - intros user H H0. rewrite H. unfold validPassword. now rewrite H0.
Qed.

(** ** The bearer middleware *)

Lemma protected_route_app (rt : runtime) (req : request) (h : headers)
    (handler : claims -> database -> response * database) (db : database) :
  protected_route env rt req = Some (h, handler) ->
  app env rt req db = protected env rt h handler db.
Proof.
  destruct req; simpl; intros E; inversion E; subst; reflexivity.
Qed.

Lemma authenticateToken_Next (rt : runtime) (h : headers) (user : claims) :
  authenticateToken env rt h = Next user <->
  exists token, bearer_token h = Some token
                /\ jwt_verify token (signing_secret env) (clock rt)
                   = Verified user.
Proof.
  unfold authenticateToken. destruct (bearer_token h) as [token|].
  - destruct (jwt_verify token (signing_secret env) (clock rt))
      as [u|name] eqn:V.
    + split.
      * intros H. inversion H; subst. now exists token.
      * intros [t [E H]]. inversion E; subst. congruence.
    + split.
      * destruct (String.eqb name "TokenExpiredError"); discriminate.
      * intros [t [E H]]. inversion E; subst. congruence.
  - split; [discriminate | intros [t [E _]]; discriminate].
Qed.

(** C2. On the bearer-protected routes (profile, portfolio list, add and
    delete): without a token the answer is 401 and the handler is not run
    (the answer is the same whatever the handler, and the database is
    unchanged); an expired token gives 401 "Token expired"; a token that
    fails verification in any other way gives 403 "Invalid token"; and the
    handler runs, with the verified payload, exactly when [jwt.verify]
    returns. *)
Theorem bearer_middleware (rt : runtime) (req : request) (h : headers)
    (handler : claims -> database -> response * database) (db : database) :
  protected_route env rt req = Some (h, handler) ->
  (bearer_token h = None ->
     app env rt req db = (error_response 401 "Authentication required", db)
     /\ forall other, protected env rt h other db
                      = (error_response 401 "Authentication required", db)) /\
  (forall token,
     bearer_token h = Some token ->
     jwt_verify token (signing_secret env) (clock rt)
       = VerifyError "TokenExpiredError" ->
     app env rt req db = (error_response 401 "Token expired", db)
     /\ forall other, protected env rt h other db
                      = (error_response 401 "Token expired", db)) /\
  (forall token name,
     bearer_token h = Some token ->
     jwt_verify token (signing_secret env) (clock rt) = VerifyError name ->
     name <> "TokenExpiredError" ->
     app env rt req db = (error_response 403 "Invalid token", db)
     /\ forall other, protected env rt h other db
                      = (error_response 403 "Invalid token", db)) /\
  (forall token user,
     bearer_token h = Some token ->
     jwt_verify token (signing_secret env) (clock rt) = Verified user ->
     app env rt req db = handler user db) /\
  (forall user,
     authenticateToken env rt h = Next user <->
     exists token, bearer_token h = Some token
                   /\ jwt_verify token (signing_secret env) (clock rt)
                      = Verified user).
Proof.
  intros R. rewrite (protected_route_app _ _ _ _ _ R).
  unfold protected, authenticateToken. repeat split.
  - now rewrite H.
  - intros other. now rewrite H.
  - now rewrite H, H0.
  - intros other. now rewrite H, H0.
  - rewrite H, H0. apply String.eqb_neq in H1. now rewrite H1.
  - intros other. rewrite H, H0. apply String.eqb_neq in H1. now rewrite H1.
  - intros token user H H0. now rewrite H, H0.
  - apply authenticateToken_Next.
  - apply authenticateToken_Next.
Qed.

End Auth.

Example bearer_token_plain : bearer_token (bearer "abc.def.ghi") = Some "abc.def.ghi".
Proof. reflexivity. Qed.

Example bearer_token_scheme_only :
  bearer_token {| authorization := Some "Bearer" |} = None.
Proof. reflexivity. Qed.

Example bearer_token_missing : bearer_token no_headers = None.
Proof. reflexivity. Qed.

Lemma login_token_or_401_witness :
  login (TP := table_driven) test_env test_runtime
        {| li_email := Value "alice@example.com";
           li_password := Value "wrong" |} test_db
  = (error_response 401 "Invalid credentials", test_db).
Proof.
  refine (proj2 (proj2 (login_token_or_401 (TP := table_driven) test_env
            test_runtime _ test_db "alice@example.com" "wrong" _ _))
            alice _ _); reflexivity.
Defined.

Lemma bearer_middleware_witness :
  app (TP := table_driven) test_env test_runtime
      (GetProfile (bearer "old")) test_db
  = (error_response 401 "Token expired", test_db).
Proof.
  refine (proj1 (proj1 (proj2 (bearer_middleware (TP := table_driven) test_env
            test_runtime (GetProfile (bearer "old")) (bearer "old") profile
            test_db _)) "old" _ _)); reflexivity.
Defined.

End AuthFacts.

(* ===================================================================== *)
(** * Results about status codes for missing fields and resources         *)
(* ===================================================================== *)

Module StatusFacts.

Import Js JsFacts Backend BackendSpec Fixtures.

Lemma same_holding_true (userId : Z) (symbol : string) (row : Portfolio) :
  same_holding userId symbol row = true <->
  pf_userId row = userId /\ pf_symbol row = symbol.
Proof.
  unfold same_holding. now rewrite andb_true_iff, Z.eqb_eq, String.eqb_eq.
Qed.

Lemma filter_keeps_all {A : Type} (p : A -> bool) (l : list A) :
  (forall x, In x l -> p x = true) -> filter p l = l.
Proof.
  induction l as [|a l IH]; simpl; intros H; [reflexivity|].
  rewrite (H a (or_introl eq_refl)). f_equal. apply IH. auto.
Qed.

Lemma filter_drops_all {A : Type} (p : A -> bool) (l : list A) :
  (forall x, In x l -> p x = false) -> filter p l = [].
Proof.
  induction l as [|a l IH]; simpl; intros H; [reflexivity|].
  rewrite (H a (or_introl eq_refl)). apply IH. auto.
Qed.

Lemma Portfolio_destroy_absent (userId : Z) (symbol : string) (db : database) :
  ~ holds_symbol db userId symbol ->
  Portfolio_destroy userId symbol db = (O, db).
Proof.
  intros H.
  assert (Hall : forall row, In row (Portfolios db) ->
                             same_holding userId symbol row = false).
  { intros row Hin. destruct (same_holding userId symbol row) eqn:E; auto.
    exfalso. apply H. apply same_holding_true in E. now exists row. }
  unfold Portfolio_destroy. rewrite (filter_drops_all _ _ Hall).
  rewrite filter_keeps_all.
  - now destruct db.
  - intros row Hin. now rewrite (Hall row Hin).
Qed.

Section Status.

Context {TP : ThirdParty}.

Variable env : environment.

Lemma signup_missing (rt : runtime) (b : signup_body) (db : database) :
  present (su_name b) = None \/ present (su_email b) = None
  \/ present (su_password b) = None ->
  signup env rt b db = (error_response 400 "Missing required fields", db).
Proof.
  unfold signup. intros [H | [H | H]]; rewrite H.
  - reflexivity.
  - now destruct (present (su_name b)).
  - now destruct (present (su_name b)), (present (su_email b)).
Qed.

Lemma addToPortfolio_missing (rt : runtime) (b : portfolio_body)
    (user : claims) (db : database) :
  present (pb_symbol b) = None \/ pb_quantity b = Undefined ->
  addToPortfolio rt b user db
  = (error_response 400 "Symbol and quantity are required", db).
Proof.
  unfold addToPortfolio. intros [H | H]; rewrite H.
  - reflexivity.
  - now destruct (present (pb_symbol b)).
Qed.

Lemma removeFromPortfolio_absent (symbol : string) (user : claims)
    (db : database) :
  symbol <> EmptyString ->
  ~ holds_symbol db (claim_id user) (toUpperCase symbol) ->
  removeFromPortfolio symbol user db
  = (error_response 404 "Stock not found in portfolio", db).
Proof.
  intros Hs H. unfold removeFromPortfolio.
  assert (T : truthy_str symbol = true).
  { unfold truthy_str. apply String.eqb_neq in Hs. now rewrite Hs. }
  rewrite T. cbn [negb]. now rewrite (Portfolio_destroy_absent _ _ _ H).
Qed.

(** C3 (as amended). A signup request lacking name, e-mail or password is
    answered 400.  A portfolio-add request that passes the bearer
    middleware and lacks the symbol or the quantity is answered 400.  A
    delete request that passes the bearer middleware, for a symbol the
    user does not hold, is answered 404 "Stock not found in portfolio"
    and the database is left exactly as it was, so no row of any user is
    removed. *)
Theorem missing_fields_400_missing_rows_404 (rt : runtime) (db : database) :
  (forall b,
     present (su_name b) = None \/ present (su_email b) = None
     \/ present (su_password b) = None ->
     app env rt (PostSignup b) db
     = (error_response 400 "Missing required fields", db)) /\
  (forall h user b,
     authenticated env rt h user ->
     present (pb_symbol b) = None \/ pb_quantity b = Undefined ->
     app env rt (PostPortfolio h b) db
     = (error_response 400 "Symbol and quantity are required", db)) /\
  (forall h user symbol,
     authenticated env rt h user ->
     symbol <> EmptyString ->
     ~ holds_symbol db (claim_id user) (toUpperCase symbol) ->
     app env rt (DeletePortfolio h symbol) db
     = (error_response 404 "Stock not found in portfolio", db)).
Proof.
  unfold authenticated. repeat split.
  - intros b H. simpl. now apply signup_missing.
  - intros h user b A H. simpl. unfold protected. rewrite A.
    now apply addToPortfolio_missing.
  - intros h user symbol A Hs H. simpl. unfold protected. rewrite A.
    now apply removeFromPortfolio_absent.
Qed.

End Status.

(** C3, as first stated, fails: an add request without a token and without
    a symbol is answered 401 by the middleware, not 400. *)
Lemma add_without_token_is_401 :
  present (pb_symbol empty_portfolio_body) = None /\
  app (TP := table_driven) test_env test_runtime
      (PostPortfolio no_headers empty_portfolio_body) test_db
  = (error_response 401 "Authentication required", test_db) /\
  ~ (forall (TP : ThirdParty) (env : environment),
       every_add_lacking_fields_gets_400 env).
Proof.
  split; [reflexivity|]. split; [reflexivity|].
  intros H.
  specialize (H table_driven test_env test_runtime no_headers
                empty_portfolio_body test_db (or_introl eq_refl)).
  discriminate H.
Qed.

Lemma missing_fields_400_missing_rows_404_witness :
  app (TP := table_driven) test_env test_runtime
      (DeletePortfolio (bearer "good") "infy") test_db
  = (error_response 404 "Stock not found in portfolio", test_db).
Proof.
  refine (proj2 (proj2 (missing_fields_400_missing_rows_404
            (TP := table_driven) test_env test_runtime test_db))
            (bearer "good") alice_claims "infy" _ _ _).
  - reflexivity.
  - discriminate.
  - intros [row [[E | []] [_ H]]]. subst row. discriminate H.
Defined.

End StatusFacts.

(* ===================================================================== *)
(** * Results about the Sequelize models                                  *)
(* ===================================================================== *)

Module ModelFacts.

Import Js JsFacts Backend BackendSpec StatusFacts.

Lemma check_nil (ok : bool) (msg : string) : check ok msg = [] <-> ok = true.
Proof. destruct ok; simpl; split; congruence. Qed.

Lemma app_nil_iff {A : Type} (l1 l2 : list A) :
  (l1 ++ l2)%list = [] <-> l1 = [] /\ l2 = [].
Proof.
  split.
  - intros H. now apply app_eq_nil in H.
  - intros [-> ->]. reflexivity.
Qed.

Lemma len_spec (lo hi : nat) (s : string) :
  len lo hi s = true <-> length_within lo hi s.
Proof.
  unfold len, length_within.
  now rewrite andb_true_iff, !Nat.leb_le.
Qed.

Lemma min0_spec (q : Q) : min0 q = true <-> (0 <= q)%Q.
Proof. unfold min0. apply Qle_bool_iff. Qed.

Lemma isInt_spec (q : Q) : isInt q = true <-> integral q.
Proof.
  unfold isInt, integral. rewrite Z.eqb_eq.
  rewrite Z.rem_divide by discriminate. split.
  - intros [z H]. exists z. unfold Qeq. simpl. lia.
  - intros [z H]. exists z. unfold Qeq in H. simpl in H. lia.
Qed.

Lemma isUppercase_spec (s : string) :
  isUppercase s = true <-> s = toUpperCase s.
Proof. unfold isUppercase. apply String.eqb_eq. Qed.

Lemma validate_quantity_nil (quantity : field Q) :
  validate_quantity quantity = [] <-> valid_quantity quantity.
Proof.
  unfold valid_quantity. destruct quantity as [| |q]; simpl.
  - split; [discriminate | intros [q [E _]]; discriminate].
  - split; [discriminate | intros [q [E _]]; discriminate].
  - rewrite app_nil_iff, !check_nil, min0_spec, isInt_spec. split.
    + intros [H1 H2]. now exists q.
    + intros [q' [E [H1 H2]]]. inversion E; subst. auto.
Qed.

Lemma validate_purchasePrice_nil (purchasePrice : option Q) :
  validate_purchasePrice purchasePrice = [] <-> valid_price purchasePrice.
Proof.
  unfold valid_price. destruct purchasePrice as [p|]; simpl.
  - rewrite check_nil, min0_spec. split.
    + intros H p' E. now inversion E; subst.
    + intros H. now apply H.
  - split; [intros _ p E; discriminate | reflexivity].
Qed.

Lemma beforeValidate_toUpperCase (symbol : string) :
  beforeValidate symbol = toUpperCase symbol.
Proof.
  unfold beforeValidate. destruct symbol; reflexivity.
Qed.

Lemma beforeValidate_upper (s : string) :
  beforeValidate (toUpperCase s) = toUpperCase s.
Proof.
  unfold beforeValidate. destruct (truthy_str (toUpperCase s)); auto.
  apply toUpperCase_idem.
Qed.

Section Models.

Context {TP : ThirdParty}.

Lemma validate_symbol_nil (symbol : string) :
  validate_symbol symbol = [] <->
  notEmpty symbol = true /\ length_within 1 20 symbol
  /\ symbol = toUpperCase symbol.
Proof.
  unfold validate_symbol.
  now rewrite !app_nil_iff, !check_nil, len_spec, isUppercase_spec.
Qed.

Lemma Portfolio_create_cases (userId : Z) (symbol : string)
    (quantity purchasePrice : field Q) (purchaseDate : Z)
    (notes : field string) (db : database) :
  (exists messages,
     Portfolio_create userId symbol quantity purchasePrice purchaseDate
       notes db = Failed (SequelizeValidationError messages)
     /\ ~ create_values_valid symbol quantity purchasePrice) \/
  (create_values_valid symbol quantity purchasePrice
   /\ existsb (same_holding userId (beforeValidate symbol)) (Portfolios db)
      = true
   /\ Portfolio_create userId symbol quantity purchasePrice purchaseDate
        notes db = Failed SequelizeUniqueConstraintError) \/
  (exists q,
     quantity = Value q
     /\ create_values_valid symbol quantity purchasePrice
     /\ existsb (same_holding userId (beforeValidate symbol)) (Portfolios db)
        = false
     /\ Portfolio_create userId symbol quantity purchasePrice purchaseDate
          notes db
        = Done (created_row userId symbol q purchasePrice purchaseDate
                            notes db,
                with_new_row (created_row userId symbol q purchasePrice
                                          purchaseDate notes db) db)).
Proof.
  unfold Portfolio_create, create_values_valid. cbv zeta.
  destruct (validate_symbol (beforeValidate symbol)
            ++ validate_quantity quantity
            ++ validate_purchasePrice (nullable purchasePrice))%list
    as [|m ms] eqn:E.
  - apply app_nil_iff in E. destruct E as [E1 E2].
    apply app_nil_iff in E2. destruct E2 as [E2 E3].
    apply validate_quantity_nil in E2.
    apply validate_purchasePrice_nil in E3.
    destruct E2 as [q [-> Hq]].
    assert (Hv : valid_quantity (Value q)) by now exists q.
    destruct (existsb _ _) eqn:X.
    + right. left. auto.
    + right. right. exists q. auto.
  - left. exists (m :: ms). split; [now destruct quantity|].
    intros [H1 [H2 H3]].
    apply validate_quantity_nil in H2.
    apply validate_purchasePrice_nil in H3.
    rewrite H1, H2, H3 in E. discriminate.
Qed.

Lemma Portfolio_update_cases (portfolioItem : Portfolio)
    (quantity : field Q) (purchasePrice : option Q)
    (purchaseDate : option Z) (notes : option string) (db : database) :
  (exists messages,
     Portfolio_update portfolioItem quantity purchasePrice purchaseDate
       notes db = Failed (SequelizeValidationError messages)
     /\ ~ (valid_quantity quantity /\ valid_price purchasePrice)) \/
  (exists q,
     quantity = Value q
     /\ valid_quantity quantity /\ valid_price purchasePrice
     /\ Portfolio_update portfolioItem quantity purchasePrice purchaseDate
          notes db
        = Done (updated_row portfolioItem q purchasePrice purchaseDate notes,
                with_row_replaced (pf_id portfolioItem)
                  (updated_row portfolioItem q purchasePrice purchaseDate
                               notes) db)).
Proof.
  unfold Portfolio_update.
  destruct (validate_quantity quantity
            ++ validate_purchasePrice purchasePrice)%list
    as [|m ms] eqn:E.
  - apply app_nil_iff in E. destruct E as [E1 E2].
    apply validate_quantity_nil in E1.
    apply validate_purchasePrice_nil in E2.
    destruct E1 as [q [-> Hq]].
    right. exists q. repeat split; auto. now exists q.
  - left. exists (m :: ms). split; [now destruct quantity|].
    intros [H1 H2].
    apply validate_quantity_nil in H1.
    apply validate_purchasePrice_nil in H2.
    rewrite H1, H2 in E. discriminate.
Qed.

Lemma Portfolio_findOne_Some (userId : Z) (symbol : string) (db : database)
    (row : Portfolio) :
  Portfolio_findOne userId symbol db = Some row ->
  In row (Portfolios db) /\ pf_userId row = userId /\ pf_symbol row = symbol.
Proof.
  unfold Portfolio_findOne. intros H. apply find_some in H.
  destruct H as [Hin H]. apply same_holding_true in H. tauto.
Qed.

Lemma Portfolio_findOne_None (userId : Z) (symbol : string) (db : database) :
  Portfolio_findOne userId symbol db = None <->
  ~ holds_symbol db userId symbol.
Proof.
  unfold Portfolio_findOne, holds_symbol. split.
  - intros H [row [Hin [H1 H2]]].
    apply (find_none _ _ H) in Hin.
    assert (T : same_holding userId symbol row = true)
      by now apply same_holding_true.
    congruence.
  - intros H. destruct (find _ _) as [row|] eqn:E; auto.
    apply find_some in E. destruct E as [Hin E].
    apply same_holding_true in E. exfalso. apply H. now exists row.
Qed.

Lemma existsb_same_holding (userId : Z) (symbol : string) (db : database) :
  existsb (same_holding userId symbol) (Portfolios db) = false <->
  ~ holds_symbol db userId symbol.
Proof.
  unfold holds_symbol. split.
  - intros H [row [Hin [H1 H2]]].
    assert (T : existsb (same_holding userId symbol) (Portfolios db) = true).
    { apply existsb_exists. exists row. split; auto.
      now apply same_holding_true. }
    congruence.
  - intros H. destruct (existsb _ _) eqn:E; auto.
    apply existsb_exists in E. destruct E as [row [Hin E]].
    apply same_holding_true in E. exfalso. apply H. now exists row.
Qed.

End Models.

End ModelFacts.

(* ===================================================================== *)
(** * Results about the portfolio routes                                  *)
(* ===================================================================== *)

Module PortfolioFacts.

Import Js JsFacts Backend BackendSpec StatusFacts ModelFacts.

Section Portfolio.

Context {TP : ThirdParty}.

Variable env : environment.

Lemma present_Some (f : field string) (s : string) :
  present f = Some s -> f = Value s /\ s <> EmptyString.
Proof.
  destruct f as [| |v]; simpl; try discriminate.
  destruct (truthy_str v) eqn:T; [|discriminate].
  intros E. inversion E; subst. split; auto.
  intros ->. discriminate T.
Qed.

Lemma present_Value (s : string) :
  present (Value s) = if truthy_str s then Some s else None.
Proof. reflexivity. Qed.

(** Every way [addToPortfolio] can go. *)
Lemma addToPortfolio_cases (rt : runtime) (b : portfolio_body)
    (user : claims) (db : database) :
  ((present (pb_symbol b) = None \/ pb_quantity b = Undefined)
   /\ addToPortfolio rt b user db
      = (error_response 400 "Symbol and quantity are required", db)) \/
  (exists s,
     present (pb_symbol b) = Some s /\ pb_quantity b <> Undefined /\
     ((~ holds_symbol db (claim_id user) (toUpperCase s) /\
       ((exists messages,
           ~ create_values_valid (toUpperCase s) (pb_quantity b)
               (pb_purchasePrice b)
           /\ addToPortfolio rt b user db
              = (validation_response messages, db)) \/
        (exists q,
           pb_quantity b = Value q
           /\ create_values_valid (toUpperCase s) (pb_quantity b)
                (pb_purchasePrice b)
           /\ addToPortfolio rt b user db
              = (let row := created_row (claim_id user) (toUpperCase s) q
                              (pb_purchasePrice b)
                              (or_now (pb_purchaseDate b) (clock rt))
                              (pb_notes b) db in
                 (add_success true row, with_new_row row db))))) \/
      (exists portfolioItem,
         Portfolio_findOne (claim_id user) (toUpperCase s) db
           = Some portfolioItem /\
         let purchasePrice := or_number (pb_purchasePrice b)
                                (pf_purchasePrice portfolioItem) in
         ((exists messages,
             ~ (valid_quantity (pb_quantity b) /\ valid_price purchasePrice)
             /\ addToPortfolio rt b user db
                = (validation_response messages, db)) \/
          (exists q,
             pb_quantity b = Value q
             /\ valid_quantity (pb_quantity b) /\ valid_price purchasePrice
             /\ addToPortfolio rt b user db
                = (let row := updated_row portfolioItem q purchasePrice
                                (or_date (pb_purchaseDate b)
                                         (pf_purchaseDate portfolioItem))
                                (or_notes (pb_notes b)
                                          (pf_notes portfolioItem)) in
                   (add_success false row,
                    with_row_replaced (pf_id portfolioItem) row db))))))).
Proof.
  unfold addToPortfolio.
  destruct (present (pb_symbol b)) as [s|] eqn:Ps; [|left; auto].
  destruct (pb_quantity b) as [| |q] eqn:Q; [left; auto| |];
    (right; exists s; split; [reflexivity|]; split; [discriminate|]);
    unfold Portfolio_findOrCreate;
    (destruct (Portfolio_findOne (claim_id user) (toUpperCase s) db)
       as [item|] eqn:F;
     [ right; exists item; split; [reflexivity|]; cbv zeta;
       match goal with
       | |- context [Portfolio_update ?i ?qq ?pp ?pd ?nn ?d] =>
           destruct (Portfolio_update_cases i qq pp pd nn d)
             as [[ms [E Hn]] | [q' [Eq [H1 [H2 E]]]]]; rewrite E
       end;
       [ left; exists ms; auto
       | right; exists q'; auto ]
     | left; split; [now apply Portfolio_findOne_None|];
       match goal with
       | |- context [Portfolio_create ?u ?sy ?qq ?pp ?pd ?nn ?d] =>
           destruct (Portfolio_create_cases u sy qq pp pd nn d)
             as [[ms [E Hn]] | [[Hv [X E]] | [q' [Eq [Hv [X E]]]]]];
           rewrite E
       end;
       [ left; exists ms; auto
       | exfalso; rewrite beforeValidate_upper in X;
         apply Portfolio_findOne_None in F;
         apply existsb_same_holding in F; congruence
       | right; exists q'; auto ] ]).
Qed.

(** ** What the three writes do to the keys *)

Lemma holds_symbol_key (db : database) (userId : Z) (symbol : string) :
  holds_symbol db userId symbol <->
  In (userId, symbol) (map holding_key (Portfolios db)).
Proof.
  unfold holds_symbol. rewrite in_map_iff. unfold holding_key. split.
  - intros [row [Hin [H1 H2]]]. exists row. subst. auto.
  - intros [row [E Hin]]. inversion E. exists row. auto.
Qed.

Lemma NoDup_snoc {A : Type} (l : list A) (x : A) :
  NoDup l -> ~ In x l -> NoDup (l ++ [x])%list.
Proof.
  intros Hl Hx. induction Hl as [|a l Ha Hl IH]; simpl.
  - constructor; [intros []|constructor].
  - constructor.
    + rewrite in_app_iff. intros [H | [H | []]]; [auto|].
      subst. apply Hx. now left.
    + apply IH. intros H. apply Hx. now right.
Qed.

Lemma filter_keeps_keys_distinct {K : Type} (keep : Portfolio -> bool)
    (key : Portfolio -> K) (rows : list Portfolio) :
  NoDup (map key rows) -> NoDup (map key (filter keep rows)).
Proof.
  induction rows as [|row rows IH]; simpl; intros H; [constructor|].
  inversion H as [|x xs Hx Hxs]; subst.
  destruct (keep row); simpl; [constructor|]; auto.
  intros Hin. apply Hx. apply in_map_iff in Hin.
  destruct Hin as [y [E Hy]]. apply filter_In in Hy.
  apply in_map_iff. exists y. tauto.
Qed.

Lemma NoDup_map_eq {A B : Type} (f : A -> B) (l : list A) (x y : A) :
  NoDup (map f l) -> In x l -> In y l -> f x = f y -> x = y.
Proof.
  induction l as [|a l IH]; simpl; intros H Hx Hy E; [contradiction|].
  inversion H as [|b bs Hb Hbs]; subst.
  destruct Hx as [-> | Hx], Hy as [-> | Hy]; auto.
  - exfalso. apply Hb. rewrite E. now apply in_map.
  - exfalso. apply Hb. rewrite <- E. now apply in_map.
Qed.

(** Under the primary key, rewriting the row with a given id touches that
    row only. *)
Lemma replaced_rows (portfolioItem row : Portfolio) (l : list Portfolio) :
  NoDup (map pf_id l) -> In portfolioItem l ->
  forall f : Portfolio -> Z * string,
    f row = f portfolioItem ->
    map f (map (fun r => if (pf_id r =? pf_id portfolioItem)%Z
                         then row else r) l)
    = map f l.
Proof.
  intros Hn Hin f Hf. rewrite map_map. apply map_ext_in.
  intros r Hr. destruct (pf_id r =? pf_id portfolioItem)%Z eqn:E; auto.
  apply Z.eqb_eq in E.
  rewrite (NoDup_map_eq pf_id l r portfolioItem Hn Hr Hin E). exact Hf.
Qed.

Lemma with_new_row_consistent (row : Portfolio) (db : database) :
  holdings_consistent db ->
  pf_id row = next_portfolio_id db ->
  ~ holds_symbol db (pf_userId row) (pf_symbol row) ->
  holdings_consistent (with_new_row row db).
Proof.
  intros [[Hn Hlt] Hu] Hid Hnew. unfold holdings_consistent,
    primary_keys_ok, unique_holdings, with_new_row. simpl.
  rewrite !map_app. simpl. repeat split.
  - apply NoDup_snoc; auto. intros Hin. apply in_map_iff in Hin.
    destruct Hin as [r [E Hr]]. apply Hlt in Hr. lia.
  - intros r Hr. apply in_app_iff in Hr. destruct Hr as [Hr | [<- | []]].
    + apply Hlt in Hr. lia.
    + lia.
  - apply NoDup_snoc; auto. intros Hin. apply Hnew.
    now apply holds_symbol_key.
Qed.

Lemma with_row_replaced_consistent (portfolioItem row : Portfolio)
    (db : database) :
  holdings_consistent db ->
  In portfolioItem (Portfolios db) ->
  pf_id row = pf_id portfolioItem ->
  holding_key row = holding_key portfolioItem ->
  holdings_consistent (with_row_replaced (pf_id portfolioItem) row db).
Proof.
  intros [[Hn Hlt] Hu] Hin Hid Hkey. unfold holdings_consistent,
    primary_keys_ok, unique_holdings, with_row_replaced. simpl.
  repeat split.
  - rewrite map_map.
    replace (map (fun x => pf_id (if (pf_id x =? pf_id portfolioItem)%Z
                                  then row else x)) (Portfolios db))
      with (map pf_id (Portfolios db)); auto.
    apply map_ext_in. intros r Hr.
    destruct (pf_id r =? pf_id portfolioItem)%Z eqn:E; auto.
    apply Z.eqb_eq in E. congruence.
  - intros r Hr. apply in_map_iff in Hr. destruct Hr as [r0 [E Hr0]].
    destruct (pf_id r0 =? pf_id portfolioItem)%Z; subst.
    + rewrite Hid. now apply Hlt.
    + now apply Hlt.
  - now rewrite (replaced_rows portfolioItem row _ Hn Hin holding_key Hkey).
Qed.

Lemma Portfolio_destroy_consistent (userId : Z) (symbol : string)
    (db : database) :
  holdings_consistent db ->
  holdings_consistent (snd (Portfolio_destroy userId symbol db)).
Proof.
  intros [[Hn Hlt] Hu]. unfold holdings_consistent, primary_keys_ok,
    unique_holdings, Portfolio_destroy. simpl. repeat split.
  - now apply filter_keeps_keys_distinct.
  - intros r Hr. apply filter_In in Hr. now apply Hlt.
  - now apply filter_keeps_keys_distinct.
Qed.

(** ** What each route does to the [Portfolios] table *)

Lemma signup_portfolios (rt : runtime) (b : signup_body) (db : database) :
  Portfolios (snd (signup env rt b db)) = Portfolios db
  /\ next_portfolio_id (snd (signup env rt b db)) = next_portfolio_id db.
Proof.
  unfold signup.
  destruct (present (su_name b)), (present (su_email b)),
    (present (su_password b)); auto.
  unfold User_create.
  destruct (validate_name s ++ validate_email s0 ++ validate_password s1)%list;
    auto.
  destruct (existsb _ _); auto.
Qed.

Lemma login_portfolios (rt : runtime) (b : login_body) (db : database) :
  Portfolios (snd (login env rt b db)) = Portfolios db
  /\ next_portfolio_id (snd (login env rt b db)) = next_portfolio_id db.
Proof.
  unfold login.
  destruct (present (li_email b)), (present (li_password b)); auto.
  destruct (User_findOne s db); auto.
  destruct (negb _); auto.
Qed.

Lemma protected_invariant (P : database -> Prop) (rt : runtime) (h : headers)
    (handler : claims -> database -> response * database) (db : database) :
  P db -> (forall user, P (snd (handler user db))) ->
  P (snd (protected env rt h handler db)).
Proof.
  intros H Hh. unfold protected.
  destruct (authenticateToken env rt h); simpl; auto.
Qed.

Lemma addToPortfolio_consistent (rt : runtime) (b : portfolio_body)
    (user : claims) (db : database) :
  holdings_consistent db ->
  holdings_consistent (snd (addToPortfolio rt b user db)).
Proof.
  intros H.
  destruct (addToPortfolio_cases rt b user db)
    as [[_ E] | [s [Ps [Pq [[Hn [[ms [_ E]] | [q [Eq [Hv E]]]]]
                         | [item [F [[ms [_ E]] | [q [Eq [H1 [H2 E]]]]]]]]]]]];
    rewrite E; simpl; auto.
  - apply with_new_row_consistent; auto. simpl.
    now rewrite beforeValidate_upper.
  - apply Portfolio_findOne_Some in F. destruct F as [Hin _].
    apply with_row_replaced_consistent; auto.
Qed.

Lemma removeFromPortfolio_consistent (symbol : string) (user : claims)
    (db : database) :
  holdings_consistent db ->
  holdings_consistent (snd (removeFromPortfolio symbol user db)).
Proof.
  intros H. unfold removeFromPortfolio.
  destruct (negb (truthy_str symbol)); [exact H|].
  pose proof (Portfolio_destroy_consistent (claim_id user)
                (toUpperCase symbol) db H) as D.
  destruct (Portfolio_destroy (claim_id user) (toUpperCase symbol) db)
    as [deleted db']. simpl in D.
  destruct (deleted =? 0)%nat; exact D.
Qed.

Lemma same_portfolios_consistent (db db' : database) :
  Portfolios db' = Portfolios db /\ next_portfolio_id db' = next_portfolio_id db ->
  holdings_consistent db -> holdings_consistent db'.
Proof.
  unfold holdings_consistent, primary_keys_ok, unique_holdings.
  intros [-> ->]. auto.
Qed.

Lemma app_consistent (rt : runtime) (req : request) (db : database) :
  holdings_consistent db -> holdings_consistent (snd (app env rt req db)).
Proof.
  intros H. destruct req; simpl.
  - eapply same_portfolios_consistent; [apply signup_portfolios | auto].
  - eapply same_portfolios_consistent; [apply login_portfolios | auto].
  - apply protected_invariant; auto. intros user. unfold profile.
    destruct (User_findByPk _ _); auto.
  - apply protected_invariant; auto.
  - apply protected_invariant; auto. intros user.
    now apply addToPortfolio_consistent.
  - apply protected_invariant; auto. intros user.
    now apply removeFromPortfolio_consistent.
Qed.

Lemma or_number_valid (a : field Q) (b : option Q) :
  valid_price (nullable a) -> valid_price b -> valid_price (or_number a b).
Proof. unfold or_number. destruct (truthy_number_field a); auto. Qed.

Lemma unique_index_enforced (userId : Z) (symbol : string)
    (quantity purchasePrice : field Q) (purchaseDate : Z)
    (notes : field string) (db : database) :
  create_values_valid symbol quantity purchasePrice ->
  holds_symbol db userId (toUpperCase symbol) ->
  Portfolio_create userId symbol quantity purchasePrice purchaseDate notes db
  = Failed SequelizeUniqueConstraintError.
Proof.
  intros Hv Hh.
  destruct (Portfolio_create_cases userId symbol quantity purchasePrice
              purchaseDate notes db)
    as [[ms [_ N]] | [[_ [_ E]] | [q [_ [_ [X _]]]]]].
  - contradiction.
  - exact E.
  - exfalso. rewrite beforeValidate_toUpperCase in X.
    apply existsb_same_holding in X. contradiction.
Qed.

Lemma add_never_duplicates (rt : runtime) (b : portfolio_body)
    (user : claims) (db : database) (s : string) :
  holdings_consistent db ->
  present (pb_symbol b) = Some s ->
  let result := addToPortfolio rt b user db in
  (holds_symbol db (claim_id user) (toUpperCase s) ->
     map holding_key (Portfolios (snd result))
     = map holding_key (Portfolios db)
     /\ (status (fst result) = 200%Z \/ status (fst result) = 400%Z)) /\
  (~ holds_symbol db (claim_id user) (toUpperCase s) ->
     (status (fst result) = 201%Z
      /\ exists row,
           holding_key row = (claim_id user, toUpperCase s)
           /\ Portfolios (snd result) = (Portfolios db ++ [row])%list)
     \/ (status (fst result) = 400%Z /\ snd result = db)).
Proof.
  intros Hc Ps result. subst result.
  destruct (addToPortfolio_cases rt b user db)
    as [[[C | C] E] | [s' [Ps' [Pq [[Hn [[ms [N E]] | [q [Eq [Hcv E]]]]]
                         | [item [F [[ms [N E]] | [q [Eq [H1 [H2 E]]]]]]]]]]]];
    try (rewrite Ps in Ps'; inversion Ps'; subst s');
    try congruence; rewrite E; simpl.
  - split; [auto|]. intros _. right. auto.
  - split; [contradiction|]. intros _. right. auto.
  - split; [contradiction|]. intros _. left. split; [reflexivity|].
    eexists. split; [|reflexivity].
    unfold holding_key. simpl. now rewrite beforeValidate_upper.
  - split; [auto|]. intros Hn. exfalso. apply Hn.
    apply Portfolio_findOne_Some in F. destruct F as [Hin [F1 F2]].
    now exists item.
  - apply Portfolio_findOne_Some in F. destruct F as [Hin [F1 F2]]. split.
    + intros _. split; [|auto]. destruct Hc as [[Hn _] _].
      now apply replaced_rows.
    + intros Hn. exfalso. apply Hn. now exists item.
Qed.

Lemma plain_quantity_valid (quantity : field Q) :
  plain_quantity quantity -> valid_quantity quantity.
Proof. intros [q [E [H1 [H2 _]]]]. now exists q. Qed.

Lemma nonempty_upper (s : string) :
  s <> EmptyString -> (1 <= String.length (toUpperCase s))%nat.
Proof. destruct s; [congruence | simpl; lia]. Qed.

(** An add with values that pass the validators, for a symbol the user
    holds: the row with that key is rewritten. *)
Lemma addToPortfolio_held (rt : runtime) (b : portfolio_body)
    (user : claims) (db : database) (s : string) :
  rows_valid db ->
  present (pb_symbol b) = Some s ->
  plain_quantity (pb_quantity b) ->
  valid_price (nullable (pb_purchasePrice b)) ->
  holds_symbol db (claim_id user) (toUpperCase s) ->
  exists portfolioItem row,
    In portfolioItem (Portfolios db)
    /\ holding_key portfolioItem = (claim_id user, toUpperCase s)
    /\ holding_key row = (claim_id user, toUpperCase s)
    /\ pf_id row = pf_id portfolioItem
    /\ Value (pf_quantity row) = pb_quantity b
    /\ addToPortfolio rt b user db
       = (add_success false row,
          with_row_replaced (pf_id portfolioItem) row db).
Proof.
  intros Hv Ps Pq Vp Hh. apply plain_quantity_valid in Pq.
  destruct (addToPortfolio_cases rt b user db)
    as [[[C | C] _] | [s' [Ps' [Pq' [[Hn _]
                     | [item [F [[ms [N E]] | [q [Eq [H1 [H2 E]]]]]]]]]]]].
  - congruence.
  - destruct Pq as [q [Eq _]]. congruence.
  - rewrite Ps in Ps'. inversion Ps'; subst s'. contradiction.
  - rewrite Ps in Ps'. inversion Ps'; subst s'.
    apply Portfolio_findOne_Some in F. destruct F as [Hin [F1 F2]].
    exfalso. apply N. split; auto. apply or_number_valid; auto.
    destruct Hv as [Hv _]. apply (Hv item Hin).
  - rewrite Ps in Ps'. inversion Ps'; subst s'.
    apply Portfolio_findOne_Some in F. destruct F as [Hin [F1 F2]].
    rewrite E. cbv zeta.
    match goal with
    | |- context [(add_success false ?r, _)] => exists item, r
    end.
    split; [exact Hin|]. split; [unfold holding_key; now rewrite F1, F2|].
    split; [unfold holding_key; simpl; now rewrite F1, F2|].
    split; [reflexivity|]. split; [simpl; now rewrite Eq | reflexivity].
Qed.

(** An add with values that pass the validators, for a symbol the user
    does not hold: one row with that key is appended. *)
Lemma addToPortfolio_new (rt : runtime) (b : portfolio_body)
    (user : claims) (db : database) (s : string) :
  present (pb_symbol b) = Some s ->
  plain_quantity (pb_quantity b) ->
  valid_price (nullable (pb_purchasePrice b)) ->
  ~ holds_symbol db (claim_id user) (toUpperCase s) ->
  symbol_fits s ->
  exists row,
    holding_key row = (claim_id user, toUpperCase s)
    /\ Value (pf_quantity row) = pb_quantity b
    /\ addToPortfolio rt b user db
       = (add_success true row, with_new_row row db).
Proof.
  intros Ps Pq Vp Hn [Hne Hlen]. apply plain_quantity_valid in Pq.
  destruct (addToPortfolio_cases rt b user db)
    as [[[C | C] _] | [s' [Ps' [Pq' [[_ [[ms [N E]] | [q [Eq [Hcv E]]]]]
                     | [item [F _]]]]]]].
  - congruence.
  - destruct Pq as [q [Eq _]]. congruence.
  - rewrite Ps in Ps'. inversion Ps'; subst s'.
    exfalso. apply N. repeat split; auto.
    rewrite beforeValidate_upper. apply validate_symbol_nil.
    repeat split; auto.
    + apply nonempty_upper. apply present_Some in Ps. tauto.
    + now rewrite toUpperCase_idem.
  - rewrite Ps in Ps'. inversion Ps'; subst s'.
    rewrite E. cbv zeta.
    match goal with
    | |- context [(add_success true ?r, _)] => exists r
    end.
    split; [unfold holding_key; simpl; now rewrite beforeValidate_upper|].
    split; [simpl; now rewrite Eq | reflexivity].
  - rewrite Ps in Ps'. inversion Ps'; subst s'.
    apply Portfolio_findOne_Some in F. destruct F as [Hin [F1 F2]].
    exfalso. apply Hn. now exists item.
Qed.

(** C5 (as amended). [(userId, symbol)] identifies a holding and every
    request keeps it so: if the primary key and the unique index hold of
    the table before a request, they hold after it, and [Portfolio.create]
    on a held key is refused by the unique index.  Whatever the values, an
    add request that passes the middleware leaves the list of keys as it
    was when the user holds the symbol (200, or 400 when the values are
    refused), and appends one row (201) or changes nothing (400) when the
    user does not.  When the values pass the validators (the quantity is a
    whole number from 0 to below 1e21, the price is absent or not
    negative), an add for a held symbol is answered 200 and rewrites that
    row in place, and an add for a symbol the user does not hold, whose
    upper-case form is not blank and has at most 20 characters, is
    answered 201 and appends exactly one row with that key. *)
Theorem holdings_stay_unique (rt : runtime) (db : database) :
  holdings_consistent db ->
  rows_valid db ->
  (forall req, holdings_consistent (snd (app env rt req db))) /\
  (forall userId symbol quantity purchasePrice purchaseDate notes,
     create_values_valid symbol quantity purchasePrice ->
     holds_symbol db userId (toUpperCase symbol) ->
     Portfolio_create userId symbol quantity purchasePrice purchaseDate
       notes db = Failed SequelizeUniqueConstraintError) /\
  (forall h user b s,
     authenticated env rt h user ->
     present (pb_symbol b) = Some s ->
     let result := app env rt (PostPortfolio h b) db in
     (holds_symbol db (claim_id user) (toUpperCase s) ->
        map holding_key (Portfolios (snd result))
        = map holding_key (Portfolios db)
        /\ (status (fst result) = 200%Z \/ status (fst result) = 400%Z)) /\
     (~ holds_symbol db (claim_id user) (toUpperCase s) ->
        (status (fst result) = 201%Z
         /\ exists row,
              holding_key row = (claim_id user, toUpperCase s)
              /\ Portfolios (snd result) = (Portfolios db ++ [row])%list)
        \/ (status (fst result) = 400%Z /\ snd result = db))) /\
  (forall h user b s,
     authenticated env rt h user ->
     present (pb_symbol b) = Some s ->
     plain_quantity (pb_quantity b) ->
     valid_price (nullable (pb_purchasePrice b)) ->
     let result := app env rt (PostPortfolio h b) db in
     (holds_symbol db (claim_id user) (toUpperCase s) ->
        status (fst result) = 200%Z
        /\ map holding_key (Portfolios (snd result))
           = map holding_key (Portfolios db)
        /\ exists portfolioItem row,
             In portfolioItem (Portfolios db)
             /\ holding_key portfolioItem = (claim_id user, toUpperCase s)
             /\ holding_key row = (claim_id user, toUpperCase s)
             /\ Value (pf_quantity row) = pb_quantity b
             /\ result = (add_success false row,
                          with_row_replaced (pf_id portfolioItem) row db)) /\
     (~ holds_symbol db (claim_id user) (toUpperCase s) ->
      symbol_fits s ->
        status (fst result) = 201%Z
        /\ exists row,
             holding_key row = (claim_id user, toUpperCase s)
             /\ Value (pf_quantity row) = pb_quantity b
             /\ Portfolios (snd result) = (Portfolios db ++ [row])%list
             /\ result = (add_success true row, with_new_row row db))).
Proof.
  intros Hc Hv. split; [intros req; now apply app_consistent|].
  split; [intros; now apply unique_index_enforced|].
  split.
  { intros h user b s A Ps. simpl. unfold protected.
    unfold authenticated in A. rewrite A.
    now apply add_never_duplicates. }
  intros h user b s A Ps Vq Vp result. subst result. simpl.
  unfold protected. unfold authenticated in A. rewrite A. split.
  - intros Hh.
    destruct (addToPortfolio_held rt b user db s Hv Ps Vq Vp Hh)
      as [item [row [Hin [K1 [K2 [Hid [Q E]]]]]]].
    rewrite E. cbn [fst snd status add_success]. split; [reflexivity|].
    split.
    + destruct Hc as [[Hn _] _]. apply replaced_rows; auto.
      unfold holding_key in *. congruence.
    + exists item, row. auto.
  - intros Hn Hf.
    destruct (addToPortfolio_new rt b user db s Ps Vq Vp Hn Hf)
      as [row [K [Q E]]].
    rewrite E. cbn [fst snd status add_success]. split; [reflexivity|].
    exists row. auto.
Qed.

(** ** Upper-case symbols *)

Lemma same_portfolios_uppercase (db db' : database) :
  Portfolios db' = Portfolios db /\ next_portfolio_id db' = next_portfolio_id db ->
  symbols_uppercase db -> symbols_uppercase db'.
Proof. unfold symbols_uppercase. intros [-> _]. auto. Qed.

Lemma with_row_replaced_In (id : Z) (row r : Portfolio) (db : database) :
  In r (Portfolios (with_row_replaced id row db)) ->
  r = row \/ In r (Portfolios db).
Proof.
  simpl. rewrite in_map_iff. intros [r0 [E H]].
  destruct (pf_id r0 =? id)%Z; subst; auto.
Qed.

Lemma with_new_row_In (row r : Portfolio) (db : database) :
  In r (Portfolios (with_new_row row db)) ->
  r = row \/ In r (Portfolios db).
Proof.
  simpl. rewrite in_app_iff. intros [H | [H | []]]; auto.
Qed.

Lemma removeFromPortfolio_In (symbol : string) (user : claims)
    (db : database) (r : Portfolio) :
  In r (Portfolios (snd (removeFromPortfolio symbol user db))) ->
  In r (Portfolios db).
Proof.
  unfold removeFromPortfolio.
  destruct (negb (truthy_str symbol)); [auto|].
  unfold Portfolio_destroy.
  destruct (_ =? 0)%nat; simpl; intros H; now apply filter_In in H.
Qed.

Lemma removeFromPortfolio_users (symbol : string) (user : claims)
    (db : database) :
  Users (snd (removeFromPortfolio symbol user db)) = Users db.
Proof.
  unfold removeFromPortfolio.
  destruct (negb (truthy_str symbol)); [auto|].
  unfold Portfolio_destroy. now destruct (_ =? 0)%nat.
Qed.

Lemma addToPortfolio_uppercase (rt : runtime) (b : portfolio_body)
    (user : claims) (db : database) :
  symbols_uppercase db ->
  symbols_uppercase (snd (addToPortfolio rt b user db)).
Proof.
  intros H.
  destruct (addToPortfolio_cases rt b user db)
    as [[_ E] | [s [Ps [Pq [[Hn [[ms [_ E]] | [q [Eq [Hv E]]]]]
                         | [item [F [[ms [_ E]] | [q [Eq [H1 [H2 E]]]]]]]]]]]];
    rewrite E; simpl; auto.
  - intros r Hr. apply with_new_row_In in Hr. destruct Hr as [-> | Hr]; auto.
    simpl. rewrite beforeValidate_upper. now rewrite toUpperCase_idem.
  - apply Portfolio_findOne_Some in F. destruct F as [Hin _].
    intros r Hr. apply with_row_replaced_In in Hr.
    destruct Hr as [-> | Hr]; auto. simpl. now apply H.
Qed.

Lemma app_uppercase (rt : runtime) (req : request) (db : database) :
  symbols_uppercase db -> symbols_uppercase (snd (app env rt req db)).
Proof.
  intros H. destruct req; simpl.
  - eapply same_portfolios_uppercase; [apply signup_portfolios | auto].
  - eapply same_portfolios_uppercase; [apply login_portfolios | auto].
  - apply protected_invariant; auto. intros user. unfold profile.
    destruct (User_findByPk _ _); auto.
  - apply protected_invariant; auto.
  - apply protected_invariant; auto. intros user.
    now apply addToPortfolio_uppercase.
  - apply protected_invariant; auto. intros user r Hr.
    apply removeFromPortfolio_In in Hr. auto.
Qed.

Lemma truthy_same_upper (s s' : string) :
  toUpperCase s = toUpperCase s' -> truthy_str s = truthy_str s'.
Proof.
  intros H. rewrite <- (truthy_toUpperCase s), <- (truthy_toUpperCase s').
  now rewrite H.
Qed.

Lemma addToPortfolio_case_insensitive (rt : runtime) (b : portfolio_body)
    (user : claims) (db : database) (s s' : string) :
  toUpperCase s = toUpperCase s' ->
  addToPortfolio rt (with_symbol b (Value s)) user db
  = addToPortfolio rt (with_symbol b (Value s')) user db.
Proof.
  intros H. unfold addToPortfolio, with_symbol. simpl.
  rewrite (truthy_same_upper s s' H).
  destruct (truthy_str s'); [|reflexivity].
  destruct (pb_quantity b); rewrite ?H; reflexivity.
Qed.

Lemma removeFromPortfolio_case_insensitive (user : claims) (db : database)
    (s s' : string) :
  toUpperCase s = toUpperCase s' ->
  removeFromPortfolio s user db = removeFromPortfolio s' user db.
Proof.
  intros H. unfold removeFromPortfolio.
  now rewrite (truthy_same_upper s s' H), H.
Qed.

(** The delete handler looks the holding up under the upper-case form of
    the symbol it is given. *)
Lemma removeFromPortfolio_held (symbol : string) (user : claims)
    (db : database) :
  symbol <> EmptyString ->
  holds_symbol db (claim_id user) (toUpperCase symbol) ->
  removeFromPortfolio symbol user db
  = ({| status := 200;
        body := JObj [("success", JBool true);
                      ("message", JStr "Stock removed from portfolio")] |},
     snd (Portfolio_destroy (claim_id user) (toUpperCase symbol) db)).
Proof.
  intros Hs [row [Hin [H1 H2]]]. unfold removeFromPortfolio.
  assert (T : truthy_str symbol = true)
    by (destruct symbol; [congruence | reflexivity]).
  rewrite T. cbn [negb].
  destruct (Portfolio_destroy (claim_id user) (toUpperCase symbol) db)
    as [deleted db'] eqn:D.
  assert (Hd : deleted <> O).
  { unfold Portfolio_destroy in D. inversion D as [[D1 D2]].
    intros Z0.
    assert (Hf : In row (filter (same_holding (claim_id user)
                                   (toUpperCase symbol)) (Portfolios db))).
    { apply filter_In. split; auto. now apply same_holding_true. }
    destruct (filter _ (Portfolios db)); [destruct Hf | discriminate]. }
  apply Nat.eqb_neq in Hd. rewrite Hd. reflexivity.
Qed.

Lemma destroyed_key_is_gone (userId : Z) (symbol : string) (db : database) :
  ~ holds_symbol (snd (Portfolio_destroy userId symbol db)) userId symbol.
Proof.
  intros [row [Hin [H1 H2]]]. simpl in Hin. apply filter_In in Hin.
  destruct Hin as [_ Hin].
  assert (T : same_holding userId symbol row = true)
    by now apply same_holding_true.
  rewrite T in Hin. discriminate.
Qed.

Lemma replaced_row_In (portfolioItem row : Portfolio) (db : database) :
  In portfolioItem (Portfolios db) ->
  In row (Portfolios (with_row_replaced (pf_id portfolioItem) row db)).
Proof.
  intros Hin. simpl. apply in_map_iff. exists portfolioItem.
  now rewrite Z.eqb_refl.
Qed.

(** C10. Symbols are upper-cased at every boundary.  The [beforeValidate]
    hook turns a symbol into its upper-case form; if every stored symbol
    equals its own upper-case form before a request, the same holds after
    it; the add and delete routes answer, and change the database, in the
    same way for two symbols that differ only in case, such as 'tcs' and
    'TCS'.  Both handlers query under the upper-case form of the symbol
    they are given: a delete of [s] by a user who holds the upper-case
    form of [s] is answered 200 and removes exactly the rows with that
    key; an add of [s] with values that pass the validators rewrites the
    row stored under the upper-case form of [s] when the user holds it,
    and otherwise stores a new row whose symbol is the upper-case form of
    [s]. *)
Theorem symbols_uppercase_everywhere (rt : runtime) (db : database) :
  (forall symbol, beforeValidate symbol = toUpperCase symbol) /\
  (symbols_uppercase db ->
   forall req, symbols_uppercase (snd (app env rt req db))) /\
  (forall h b s s',
     toUpperCase s = toUpperCase s' ->
     app env rt (PostPortfolio h (with_symbol b (Value s))) db
     = app env rt (PostPortfolio h (with_symbol b (Value s'))) db) /\
  (forall h s s',
     toUpperCase s = toUpperCase s' ->
     app env rt (DeletePortfolio h s) db
     = app env rt (DeletePortfolio h s') db) /\
  (forall h user s,
     authenticated env rt h user ->
     s <> EmptyString ->
     holds_symbol db (claim_id user) (toUpperCase s) ->
     let result := app env rt (DeletePortfolio h s) db in
     status (fst result) = 200%Z
     /\ Portfolios (snd result)
        = filter (fun row => negb (same_holding (claim_id user)
                                     (toUpperCase s) row))
                 (Portfolios db)
     /\ ~ holds_symbol (snd result) (claim_id user) (toUpperCase s)) /\
  (forall h user b s,
     authenticated env rt h user ->
     present (pb_symbol b) = Some s ->
     plain_quantity (pb_quantity b) ->
     valid_price (nullable (pb_purchasePrice b)) ->
     rows_valid db ->
     let result := app env rt (PostPortfolio h b) db in
     (holds_symbol db (claim_id user) (toUpperCase s) ->
        exists portfolioItem row,
          In portfolioItem (Portfolios db)
          /\ pf_userId portfolioItem = claim_id user
          /\ pf_symbol portfolioItem = toUpperCase s
          /\ pf_id row = pf_id portfolioItem
          /\ pf_symbol row = toUpperCase s
          /\ Value (pf_quantity row) = pb_quantity b
          /\ In row (Portfolios (snd result))
          /\ result = (add_success false row,
                       with_row_replaced (pf_id portfolioItem) row db)) /\
     (~ holds_symbol db (claim_id user) (toUpperCase s) ->
      symbol_fits s ->
        exists row,
          pf_userId row = claim_id user
          /\ pf_symbol row = toUpperCase s
          /\ Value (pf_quantity row) = pb_quantity b
          /\ In row (Portfolios (snd result))
          /\ result = (add_success true row, with_new_row row db))).
Proof.
  split; [apply beforeValidate_toUpperCase|].
  split; [intros H req; now apply app_uppercase|].
  split.
  { intros h b s s' H. simpl. unfold protected.
    destruct (authenticateToken env rt h); auto.
    now apply addToPortfolio_case_insensitive. }
  split.
  { intros h s s' H. simpl. unfold protected.
    destruct (authenticateToken env rt h); auto.
    now apply removeFromPortfolio_case_insensitive. }
  split.
  { intros h user s A Hs Hh result. subst result. simpl. unfold protected.
    unfold authenticated in A. rewrite A.
    rewrite (removeFromPortfolio_held s user db Hs Hh). cbn [fst snd status].
    split; [reflexivity|]. split; [reflexivity|].
    apply destroyed_key_is_gone. }
  intros h user b s A Ps Pq Vp Hv result. subst result. simpl.
  unfold protected. unfold authenticated in A. rewrite A. split.
  - intros Hh.
    destruct (addToPortfolio_held rt b user db s Hv Ps Pq Vp Hh)
      as [item [row [Hin [K1 [K2 [Hid [Q E]]]]]]].
    unfold holding_key in K1, K2.
    injection K1 as U1 S1. injection K2 as U2 S2.
    exists item, row. rewrite E. cbn [fst snd].
    split; [exact Hin|]. split; [exact U1|]. split; [exact S1|].
    split; [exact Hid|]. split; [exact S2|]. split; [exact Q|].
    split; [now apply replaced_row_In | reflexivity].
  - intros Hn Hf.
    destruct (addToPortfolio_new rt b user db s Ps Pq Vp Hn Hf)
      as [row [K [Q E]]].
    unfold holding_key in K. injection K as U1 S1.
    exists row. rewrite E. cbn [fst snd].
    split; [exact U1|]. split; [exact S1|]. split; [exact Q|].
    split; [|reflexivity].
    simpl. apply in_or_app. right. now left.
Qed.

End Portfolio.

End PortfolioFacts.

(* ===================================================================== *)
(** * Results about declarative validation                                *)
(* ===================================================================== *)

Module ValidationFacts.

Import Js JsFacts Backend BackendSpec StatusFacts ModelFacts PortfolioFacts.

Section Validation.

Context {TP : ThirdParty}.

Variable env : environment.

Lemma validate_name_nil (name : string) :
  validate_name name = [] <->
  notEmpty name = true /\ length_within 2 100 name.
Proof.
  unfold validate_name. now rewrite app_nil_iff, !check_nil, len_spec.
Qed.

Lemma validate_password_nil (password : string) :
  validate_password password = [] <->
  notEmpty password = true /\ length_within 8 100 password.
Proof.
  unfold validate_password. now rewrite app_nil_iff, !check_nil, len_spec.
Qed.

Lemma User_create_cases (rt : runtime) (name email password : string)
    (db : database) :
  (exists messages,
     User_create rt name email password db
     = Failed (SequelizeValidationError messages)
     /\ ~ (validate_name name = [] /\ validate_email email = []
           /\ validate_password password = [])) \/
  (User_create rt name email password db
   = Failed SequelizeUniqueConstraintError) \/
  (exists user,
     validate_name name = [] /\ validate_password password = []
     /\ user_name user = name
     /\ user_password user = beforeCreate rt password
     /\ User_create rt name email password db
        = Done (user,
                {| Users := (Users db ++ [user])%list;
                   Portfolios := Portfolios db;
                   next_user_id := (next_user_id db + 1)%Z;
                   next_portfolio_id := next_portfolio_id db |})).
Proof.
  unfold User_create.
  destruct (validate_name name ++ validate_email email
            ++ validate_password password)%list as [|m ms] eqn:E.
  - apply app_nil_iff in E. destruct E as [E1 E2].
    apply app_nil_iff in E2. destruct E2 as [E2 E3].
    destruct (existsb _ _).
    + right. left. reflexivity.
    + right. right. eexists. repeat split; auto.
  - left. exists (m :: ms). split; [reflexivity|].
    intros [H1 [H2 H3]]. rewrite H1, H2, H3 in E. discriminate.
Qed.

(** ** Refusals *)

Lemma negative_not_valid (q : Q) : (q < 0)%Q -> ~ (0 <= q)%Q.
Proof. intros H. now apply Qlt_not_le. Qed.

Lemma beforeValidate_length (symbol : string) :
  String.length (beforeValidate symbol) = String.length symbol.
Proof.
  rewrite beforeValidate_toUpperCase. apply toUpperCase_length.
Qed.

Lemma Portfolio_create_refuses (userId : Z) (symbol : string)
    (quantity purchasePrice : field Q) (purchaseDate : Z)
    (notes : field string) (db : database) :
  ~ valid_quantity quantity \/ ~ valid_price (nullable purchasePrice)
  \/ ~ length_within 1 20 symbol ->
  exists messages,
    Portfolio_create userId symbol quantity purchasePrice purchaseDate
      notes db = Failed (SequelizeValidationError messages).
Proof.
  intros H.
  destruct (Portfolio_create_cases userId symbol quantity purchasePrice
              purchaseDate notes db)
    as [[ms [E _]] | [[[V1 [V2 V3]] _] | [q [_ [[V1 [V2 V3]] _]]]]];
    [now exists ms| |];
    exfalso; apply validate_symbol_nil in V1;
    destruct V1 as [_ [V1 _]]; unfold length_within in *;
    rewrite beforeValidate_length in V1; tauto.
Qed.

Lemma Portfolio_update_refuses (portfolioItem : Portfolio)
    (quantity : field Q) (purchasePrice : option Q)
    (purchaseDate : option Z) (notes : option string) (db : database) :
  ~ valid_quantity quantity \/ ~ valid_price purchasePrice ->
  exists messages,
    Portfolio_update portfolioItem quantity purchasePrice purchaseDate
      notes db = Failed (SequelizeValidationError messages).
Proof.
  intros H.
  destruct (Portfolio_update_cases portfolioItem quantity purchasePrice
              purchaseDate notes db)
    as [[ms [E _]] | [q [_ [V1 [V2 _]]]]]; [now exists ms | tauto].
Qed.

Lemma User_create_refuses (rt : runtime) (name email password : string)
    (db : database) :
  ~ length_within 2 100 name \/ (String.length password < 8)%nat ->
  exists messages,
    User_create rt name email password db
    = Failed (SequelizeValidationError messages).
Proof.
  intros H. unfold User_create.
  destruct (validate_name name ++ validate_email email
            ++ validate_password password)%list as [|m ms] eqn:E.
  - exfalso. apply app_nil_iff in E. destruct E as [E1 E2].
    apply app_nil_iff in E2. destruct E2 as [E2 E3].
    apply validate_name_nil in E1. apply validate_password_nil in E3.
    unfold length_within in *. lia.
  - now exists (m :: ms).
Qed.

Lemma negative_truthy (p : Q) :
  (p < 0)%Q -> truthy_number_field (Value p) = true.
Proof.
  intros H. simpl. destruct (Qeq_bool p 0) eqn:E; auto.
  apply Qeq_bool_iff in E. rewrite E in H. now apply Qlt_irrefl in H.
Qed.

Lemma addToPortfolio_refuses (rt : runtime) (b : portfolio_body)
    (user : claims) (db : database) :
  rows_valid db -> out_of_bounds b ->
  status (fst (addToPortfolio rt b user db)) = 400%Z
  /\ snd (addToPortfolio rt b user db) = db.
Proof.
  intros Hv Hb.
  destruct (addToPortfolio_cases rt b user db)
    as [[_ E] | [s [Ps [Pq [[Hn [[ms [_ E]] | [q [Eq [Hcv E]]]]]
                         | [item [F [[ms [_ E]] | [q [Eq [H1 [H2 E]]]]]]]]]]]];
    try (rewrite E; simpl; auto; fail); exfalso.
  - (* created although out of bounds *)
    destruct Hcv as [V1 [V2 V3]]. apply validate_symbol_nil in V1.
    destruct V1 as [_ [V1 _]]. unfold length_within in V1.
    rewrite beforeValidate_length, toUpperCase_length in V1.
    destruct Hb as [[q' [Eq' Hq]] | [[p [Ep Hp]] | [s' [Es Hs]]]].
    + destruct V2 as [q2 [E2 [G1 G2]]]. rewrite Eq' in E2.
      inversion E2; subst.
      destruct Hq as [Hq | Hq]; [now apply negative_not_valid in Hq | auto].
    + rewrite Ep in V3. simpl in V3.
      apply (negative_not_valid _ Hp). now apply V3.
    + apply present_Some in Ps. destruct Ps as [Ps _].
      rewrite Es in Ps. inversion Ps; subst. lia.
  - (* updated although out of bounds *)
    apply Portfolio_findOne_Some in F. destruct F as [Hin [_ F2]].
    destruct Hb as [[q' [Eq' Hq]] | [[p [Ep Hp]] | [s' [Es Hs]]]].
    + destruct H1 as [q2 [E2 [G1 G2]]]. rewrite Eq' in E2.
      inversion E2; subst.
      destruct Hq as [Hq | Hq]; [now apply negative_not_valid in Hq | auto].
    + rewrite Ep in H2. unfold or_number in H2.
      rewrite (negative_truthy _ Hp) in H2. simpl in H2.
      apply (negative_not_valid _ Hp). now apply H2.
    + apply present_Some in Ps. destruct Ps as [Ps _].
      rewrite Es in Ps. inversion Ps; subst.
      destruct Hv as [Hv _]. destruct (Hv item Hin) as [_ [_ [_ [_ L]]]].
      rewrite F2, toUpperCase_length in L. lia.
Qed.

Lemma signup_refuses (rt : runtime) (b : signup_body) (db : database) :
  (exists name, su_name b = Value name /\ ~ length_within 2 100 name)
  \/ (exists password, su_password b = Value password
                       /\ (String.length password < 8)%nat) ->
  status (fst (signup env rt b db)) = 400%Z
  /\ snd (signup env rt b db) = db.
Proof.
  intros H. unfold signup.
  destruct (present (su_name b)) as [name|] eqn:Pn; [|auto].
  destruct (present (su_email b)) as [email|] eqn:Pe; [|auto].
  destruct (present (su_password b)) as [password|] eqn:Pp; [|auto].
  apply present_Some in Pn. destruct Pn as [Pn _].
  apply present_Some in Pp. destruct Pp as [Pp _].
  destruct (User_create_refuses rt name email password db) as [ms E].
  - destruct H as [[n [E H]] | [p [E H]]].
    + left. congruence.
    + right. congruence.
  - rewrite E. auto.
Qed.

(** ** Stored rows stay within bounds *)

Lemma addToPortfolio_users (rt : runtime) (b : portfolio_body)
    (user : claims) (db : database) :
  Users (snd (addToPortfolio rt b user db)) = Users db.
Proof.
  destruct (addToPortfolio_cases rt b user db)
    as [[_ E] | [s [Ps [Pq [[Hn [[ms [_ E]] | [q [Eq [Hv E]]]]]
                         | [item [F [[ms [_ E]] | [q [Eq [H1 [H2 E]]]]]]]]]]]];
    rewrite E; reflexivity.
Qed.

Lemma addToPortfolio_rows_valid (rt : runtime) (b : portfolio_body)
    (user : claims) (db : database) :
  rows_valid db -> rows_valid (snd (addToPortfolio rt b user db)).
Proof.
  intros [Hp Hu]. split; [|now rewrite addToPortfolio_users].
  destruct (addToPortfolio_cases rt b user db)
    as [[_ E] | [s [Ps [Pq [[Hn [[ms [_ E]] | [q [Eq [Hv E]]]]]
                         | [item [F [[ms [_ E]] | [q [Eq [H1 [H2 E]]]]]]]]]]]];
    rewrite E; simpl; auto.
  - intros r Hr. apply with_new_row_In in Hr. destruct Hr as [-> | Hr]; auto.
    destruct Hv as [V1 [V2 V3]]. apply validate_symbol_nil in V1.
    destruct V2 as [q2 [E2 [G1 G2]]]. rewrite Eq in E2. inversion E2; subst.
    unfold portfolio_row_valid. simpl. tauto.
  - apply Portfolio_findOne_Some in F. destruct F as [Hin _].
    intros r Hr. apply with_row_replaced_In in Hr.
    destruct Hr as [-> | Hr]; auto.
    destruct H1 as [q2 [E2 [G1 G2]]]. rewrite Eq in E2. inversion E2; subst.
    destruct (Hp item Hin) as [_ [_ [_ L]]].
    unfold portfolio_row_valid. simpl. tauto.
Qed.

Lemma signup_rows_valid (rt : runtime) (b : signup_body) (db : database) :
  rows_valid db -> rows_valid (snd (signup env rt b db)).
Proof.
  intros [Hp Hu]. unfold signup.
  destruct (present (su_name b)) as [name|] eqn:Pn; [|split; auto].
  destruct (present (su_email b)) as [email|] eqn:Pe; [|split; auto].
  destruct (present (su_password b)) as [password|] eqn:Pp; [|split; auto].
  destruct (User_create_cases rt name email password db)
    as [[ms [E _]] | [E | [user [V1 [V2 [N [P E]]]]]]]; rewrite E;
    [split; auto | split; auto |].
  split; simpl; auto.
  intros u Hin. apply in_app_iff in Hin. destruct Hin as [Hin | [<- | []]];
    auto.
  apply validate_name_nil in V1. apply validate_password_nil in V2.
  split; [rewrite N; tauto|].
  exists (salt rt), password. split; [|tauto].
  rewrite P. unfold beforeCreate.
  apply present_Some in Pp. destruct Pp as [_ Pp].
  unfold truthy_str. apply String.eqb_neq in Pp. now rewrite Pp.
Qed.

Lemma login_rows_valid (rt : runtime) (b : login_body) (db : database) :
  rows_valid db -> rows_valid (snd (login env rt b db)).
Proof.
  intros [Hp Hu]. unfold login.
  destruct (present (li_email b)) as [email|]; [|split; auto].
  destruct (present (li_password b)) as [password|]; [|split; auto].
  destruct (User_findOne email db) as [user|] eqn:F; [|split; auto].
  destruct (negb (validPassword user password)); [split; auto|].
  split; simpl; auto.
  intros u Hin. apply in_map_iff in Hin. destruct Hin as [u0 [E Hin]].
  simpl in E. destruct (user_id u0 =? user_id user)%Z; subst u; auto.
  unfold User_findOne in F. apply find_some in F. destruct F as [F _].
  exact (Hu user F).
Qed.

Lemma app_rows_valid (rt : runtime) (req : request) (db : database) :
  rows_valid db -> rows_valid (snd (app env rt req db)).
Proof.
  intros H. destruct req; simpl.
  - now apply signup_rows_valid.
  - now apply login_rows_valid.
  - apply protected_invariant; auto. intros user. unfold profile.
    destruct (User_findByPk _ _); auto.
  - apply protected_invariant; auto.
  - apply protected_invariant; auto. intros user.
    now apply addToPortfolio_rows_valid.
  - apply protected_invariant; auto. intros user.
    destruct H as [Hp Hu]. split.
    + intros r Hr. apply removeFromPortfolio_In in Hr. auto.
    + now rewrite removeFromPortfolio_users.
Qed.

(** C6. The declared validators keep every stored row within bounds.
    [Portfolio.create] throws a validation error when the quantity is not
    a non-negative integer, the purchase price is negative or the symbol's
    length is outside 1..20, and [portfolioItem.update] does so for the
    quantity and the price; [User.create] does so when the name's length
    is outside 2..100 or the password has fewer than 8 characters.  The
    add and signup routes answer such requests with 400 and leave the
    database as it was.  Hence, if every stored row is within bounds
    before a request, every stored row is within bounds after it. *)
Theorem validators_keep_rows_in_bounds (rt : runtime) (db : database) :
  (forall userId symbol quantity purchasePrice purchaseDate notes,
     ~ valid_quantity quantity \/ ~ valid_price (nullable purchasePrice)
     \/ ~ length_within 1 20 symbol ->
     exists messages,
       Portfolio_create userId symbol quantity purchasePrice purchaseDate
         notes db = Failed (SequelizeValidationError messages)) /\
  (forall portfolioItem quantity purchasePrice purchaseDate notes,
     ~ valid_quantity quantity \/ ~ valid_price purchasePrice ->
     exists messages,
       Portfolio_update portfolioItem quantity purchasePrice purchaseDate
         notes db = Failed (SequelizeValidationError messages)) /\
  (forall name email password,
     ~ length_within 2 100 name \/ (String.length password < 8)%nat ->
     exists messages,
       User_create rt name email password db
       = Failed (SequelizeValidationError messages)) /\
  (forall h user b,
     authenticated env rt h user -> rows_valid db -> out_of_bounds b ->
     status (fst (app env rt (PostPortfolio h b) db)) = 400%Z
     /\ snd (app env rt (PostPortfolio h b) db) = db) /\
  (forall b,
     (exists name, su_name b = Value name /\ ~ length_within 2 100 name)
     \/ (exists password, su_password b = Value password
                          /\ (String.length password < 8)%nat) ->
     status (fst (app env rt (PostSignup b) db)) = 400%Z
     /\ snd (app env rt (PostSignup b) db) = db) /\
  (rows_valid db -> forall req, rows_valid (snd (app env rt req db))).
Proof.
  split; [intros; now apply Portfolio_create_refuses|].
  split; [intros; now apply Portfolio_update_refuses|].
  split; [intros; now apply User_create_refuses|].
  split.
  { intros h user b A Hv Hb. simpl. unfold protected.
    unfold authenticated in A. rewrite A.
    now apply addToPortfolio_refuses. }
  split; [intros b H; simpl; now apply signup_refuses|].
  intros H req. now apply app_rows_valid.
Qed.

End Validation.

End ValidationFacts.

(* ===================================================================== *)
(** * Results about secrets in response bodies                            *)
(* ===================================================================== *)

Module SecretFacts.

Import Js JsFacts Backend BackendSpec Fixtures.

Lemma User_toJSON_members (user : User) :
  User_toJSON user =
  JObj [("id", JNum (inject_Z (user_id user)));
        ("name", JStr (user_name user));
        ("email", JStr (user_email user));
        ("role", JStr (user_role user));
        ("lastLogin", json_opt JDate (user_lastLogin user))].
Proof. reflexivity. Qed.

Lemma User_toJSON_public (u1 u2 : User) :
  same_public u1 u2 -> User_toJSON u1 = User_toJSON u2.
Proof.
  intros [H1 [H2 [H3 [H4 H5]]]]. rewrite !User_toJSON_members.
  now rewrite H1, H2, H3, H4, H5.
Qed.

Lemma find_public (p : User -> bool) (l1 l2 : list User) :
  Forall2 same_public l1 l2 ->
  (forall u1 u2, same_public u1 u2 -> p u1 = p u2) ->
  match find p l1, find p l2 with
  | Some u1, Some u2 => same_public u1 u2
  | None, None => True
  | _, _ => False
  end.
Proof.
  intros H Hp. induction H as [|u1 u2 l1 l2 Hu Hl IH]; simpl; auto.
  rewrite <- (Hp u1 u2 Hu). destruct (p u1); auto.
Qed.

Lemma existsb_public (p : User -> bool) (l1 l2 : list User) :
  Forall2 same_public l1 l2 ->
  (forall u1 u2, same_public u1 u2 -> p u1 = p u2) ->
  existsb p l1 = existsb p l2.
Proof.
  intros H Hp. induction H as [|u1 u2 l1 l2 Hu Hl IH]; simpl; auto.
  now rewrite (Hp u1 u2 Hu), IH.
Qed.

Section Secrets.

Context {TP : ThirdParty}.

Variable env : environment.

Lemma issue_token_public (rt1 rt2 : runtime) (u1 u2 : User) :
  clock rt1 = clock rt2 -> same_public u1 u2 ->
  issue_token env rt1 u1 = issue_token env rt2 u2.
Proof.
  intros Hc [H1 [H2 [H3 [H4 H5]]]]. unfold issue_token.
  now rewrite Hc, H1, H3, H4.
Qed.

Lemma signup_ignores_secrets (rt1 rt2 : runtime) (b : signup_body)
    (db1 db2 : database) :
  clock rt1 = clock rt2 -> differ_only_in_secrets db1 db2 ->
  fst (signup env rt1 b db1) = fst (signup env rt2 b db2).
Proof.
  intros Hc [Hu [Hp [Hn Hm]]]. unfold signup.
  destruct (present (su_name b)) as [name|]; [|reflexivity].
  destruct (present (su_email b)) as [email|]; [|reflexivity].
  destruct (present (su_password b)) as [password|]; [|reflexivity].
  unfold User_create.
  destruct (validate_name name ++ validate_email email
            ++ validate_password password)%list; [|reflexivity].
  rewrite (existsb_public (fun u => String.eqb (user_email u) email)
             (Users db1) (Users db2) Hu).
  - destruct (existsb _ (Users db2)); [reflexivity|]. simpl.
    f_equal. f_equal. f_equal.
    + f_equal. f_equal. apply issue_token_public; auto.
      unfold same_public. simpl. auto.
    + f_equal. f_equal. rewrite !User_toJSON_members. simpl. now rewrite Hn.
  - intros u1 u2 [_ [_ [E _]]]. now rewrite E.
Qed.

Lemma profile_ignores_secrets (user : claims) (db1 db2 : database) :
  differ_only_in_secrets db1 db2 ->
  fst (profile user db1) = fst (profile user db2).
Proof.
  intros [Hu _]. unfold profile, User_findByPk.
  pose proof (find_public (fun u => (user_id u =? claim_id user)%Z)
                (Users db1) (Users db2) Hu) as F.
  destruct (find _ (Users db1)) as [u1|], (find _ (Users db2)) as [u2|];
    simpl.
  - rewrite (User_toJSON_public u1 u2); auto.
    apply F. intros a c [E _]. now rewrite E.
  - exfalso. apply F. intros a c [E _]. now rewrite E.
  - exfalso. apply F. intros a c [E _]. now rewrite E.
  - reflexivity.
Qed.

Lemma touch_lastLogin_public (rt1 rt2 : runtime) (u1 u2 : User) :
  clock rt1 = clock rt2 -> same_public u1 u2 ->
  same_public (touch_lastLogin rt1 u1) (touch_lastLogin rt2 u2).
Proof.
  intros Hc [H1 [H2 [H3 [H4 H5]]]]. unfold same_public. simpl.
  now rewrite Hc.
Qed.

Lemma login_ignores_secrets (rt1 rt2 : runtime) (b : login_body)
    (db1 db2 : database) :
  clock rt1 = clock rt2 -> differ_only_in_secrets db1 db2 ->
  login_verdict b db1 = login_verdict b db2 ->
  fst (login env rt1 b db1) = fst (login env rt2 b db2).
Proof.
  intros Hc [Hu _] Hv. unfold login, login_verdict in *.
  destruct (present (li_email b)) as [email|]; [|reflexivity].
  destruct (present (li_password b)) as [password|]; [|reflexivity].
  unfold User_findOne in *.
  pose proof (find_public (fun u => String.eqb (user_email u) email)
                (Users db1) (Users db2) Hu) as F.
  destruct (find _ (Users db1)) as [u1|], (find _ (Users db2)) as [u2|];
    try discriminate Hv; [|reflexivity].
  inversion Hv as [Hv']. rewrite Hv'.
  destruct (negb (validPassword u2 password)); [reflexivity|]. simpl.
  assert (P : same_public u1 u2).
  { apply F. intros a c [_ [_ [E _]]]. now rewrite E. }
  pose proof (touch_lastLogin_public rt1 rt2 u1 u2 Hc P) as T.
  now rewrite (issue_token_public rt1 rt2 _ _ Hc T),
    (User_toJSON_public _ _ T).
Qed.

(** C9 (as amended). Response bodies never carry a user's secrets:
    [User.toJSON] keeps the id, name, e-mail, role and last login and
    nothing else, so two user records that differ only in the password
    hash and the reset columns serialise alike.  For two databases that
    differ only in those columns (and whatever salts bcrypt draws) the
    signup and profile routes answer alike, and so does the login route
    whenever the password check gives the same verdict on both sides: the
    stored hash decides whether a login succeeds and nothing else. *)
Theorem bodies_free_of_secrets (rt1 rt2 : runtime) (db1 db2 : database) :
  clock rt1 = clock rt2 ->
  differ_only_in_secrets db1 db2 ->
  (forall user,
     User_toJSON user =
     JObj [("id", JNum (inject_Z (user_id user)));
           ("name", JStr (user_name user));
           ("email", JStr (user_email user));
           ("role", JStr (user_role user));
           ("lastLogin", json_opt JDate (user_lastLogin user))]) /\
  (forall u1 u2, same_public u1 u2 -> User_toJSON u1 = User_toJSON u2) /\
  (forall b, fst (app env rt1 (PostSignup b) db1)
             = fst (app env rt2 (PostSignup b) db2)) /\
  (forall h, fst (app env rt1 (GetProfile h) db1)
             = fst (app env rt2 (GetProfile h) db2)) /\
  (forall b, login_verdict b db1 = login_verdict b db2 ->
             fst (app env rt1 (PostLogin b) db1)
             = fst (app env rt2 (PostLogin b) db2)).
Proof.
  intros Hc Hd. split; [apply User_toJSON_members|].
  split; [apply User_toJSON_public|].
  split; [intros b; simpl; now apply signup_ignores_secrets|].
  split.
  - intros h. simpl. unfold protected, authenticateToken. rewrite Hc.
    destruct (bearer_token h) as [token|]; [|reflexivity].
    destruct (jwt_verify token (signing_secret env) (clock rt2))
      as [user|name].
    + now apply profile_ignores_secrets.
    + destruct (String.eqb name "TokenExpiredError"); reflexivity.
  - intros b Hv. simpl. now apply login_ignores_secrets.
Qed.

End Secrets.

(** C9, as first stated, fails for the login route: with the same request,
    a database whose hash matches the password answers with a token and
    one whose hash differs answers 401. *)
Lemma login_body_depends_on_hash :
  differ_only_in_secrets test_db test_db_rehashed /\
  status (fst (app (TP := table_driven) test_env test_runtime
                   (PostLogin alice_login) test_db)) = 200%Z /\
  fst (app (TP := table_driven) test_env test_runtime
           (PostLogin alice_login) test_db_rehashed)
  = error_response 401 "Invalid credentials" /\
  ~ (forall (TP : ThirdParty) (env : environment),
       bodies_ignore_secret_columns env).
Proof.
  assert (D : differ_only_in_secrets test_db test_db_rehashed).
  { repeat split. simpl. constructor; [|constructor].
    repeat split. }
  split; [exact D|]. split; [reflexivity|]. split; [reflexivity|].
  intros H.
  specialize (H table_driven test_env test_runtime (PostLogin alice_login)
                test_db test_db_rehashed I D).
  discriminate H.
Qed.

Lemma bodies_free_of_secrets_witness :
  fst (app (TP := table_driven) test_env test_runtime
           (GetProfile (bearer "good")) test_db)
  = fst (app (TP := table_driven) test_env test_runtime
             (GetProfile (bearer "good")) test_db_rehashed).
Proof.
  refine (proj1 (proj2 (proj2 (proj2 (bodies_free_of_secrets
            (TP := table_driven) test_env test_runtime test_runtime
            test_db test_db_rehashed eq_refl _)))) (bearer "good")).
  repeat split. simpl. constructor; [|constructor]. repeat split.
Defined.

End SecretFacts.

(* ===================================================================== *)
(** * Results about fallback data                                         *)
(* ===================================================================== *)

Module FallbackFacts.

Import Js News NewsSpec NewsCacheFacts Backend BackendSpec Fixtures.

(** ** The requests [fetchNews] sends *)









Lemma fetchFresh_no_key (w : world) (st : service_state) :
  getApiKey w = Thrown ->
  fetchFresh w st = useFallback w st [].
Proof. unfold fetchFresh. now intros ->. Qed.


(** ** The portfolio list *)

Lemma fetchStockDataForBackend_fallback (env : environment) (rt : runtime)
    (n : nat) (symbol : string) :
  fetchStockDataForBackend env rt n symbol
  = Returned (getFallbackStockData rt n symbol).
Proof.
  unfold fetchStockDataForBackend.
  destruct (ALPHA_VANTAGE_API_KEY env) as [key|]; [|reflexivity].
  destruct (truthy_str key); reflexivity.
Qed.




End FallbackFacts.

(* ===================================================================== *)
(** * The results at concrete inputs                                      *)
(* ===================================================================== *)

Module Examples.

Import Js News NewsSpec NewsCacheFacts.
Import Backend BackendSpec Fixtures PortfolioFacts ValidationFacts.

Lemma test_db_consistent : holdings_consistent test_db.
Proof.
  repeat split; simpl.
  - constructor; [intros []|constructor].
  - intros row [<- | []]. reflexivity.
  - constructor; [intros []|constructor].
Qed.

Lemma test_db_rows_valid : rows_valid (TP := table_driven) test_db.
Proof.
  split.
  - intros row [<- | []]. unfold portfolio_row_valid. simpl. repeat split.
    + discriminate.
    + exists 10%Z. reflexivity.
    + intros p E. inversion E. discriminate.
    + simpl. lia.
    + simpl. lia.
  - intros user [<- | []]. split; [split; simpl; lia|].
    exists "salt", "correct horse". split; [reflexivity|].
    split; simpl; lia.
Qed.


Lemma holdings_stay_unique_witness :
  status (fst (app (TP := table_driven) test_env test_runtime
                   (PostPortfolio (bearer "good") five_tcs) test_db))
  = 200%Z.
Proof.
  refine (proj1 (proj1 (proj2 (proj2 (proj2 (holdings_stay_unique
            (TP := table_driven) test_env test_runtime test_db
            test_db_consistent test_db_rows_valid)))
            (bearer "good") alice_claims five_tcs "tcs" _ _ _ _) _)).
  - reflexivity.
  - reflexivity.
  - exists 5%Q. split; [reflexivity|]. split; [discriminate|].
    split; [exists 5%Z; reflexivity | reflexivity].
  - intros p E. discriminate E.
  - exists alice_tcs. simpl. auto.
Defined.

(** C5, as first stated, fails: an add request for a symbol the user
    holds, with a quantity the validators refuse, is answered 400 and
    updates nothing. *)
Lemma held_symbol_with_refused_quantity_is_400 :
  authenticated (TP := table_driven) test_env test_runtime (bearer "good")
                alice_claims /\
  present (pb_symbol minus_one_tcs) = Some "tcs" /\
  holds_symbol test_db (claim_id alice_claims) (toUpperCase "tcs") /\
  status (fst (app (TP := table_driven) test_env test_runtime
                   (PostPortfolio (bearer "good") minus_one_tcs) test_db))
  = 400%Z /\
  snd (app (TP := table_driven) test_env test_runtime
           (PostPortfolio (bearer "good") minus_one_tcs) test_db)
  = test_db /\
  ~ (forall (TP : ThirdParty) (env : environment),
       every_add_of_a_held_symbol_updates env).
Proof.
  assert (Hh : holds_symbol test_db (claim_id alice_claims)
                 (toUpperCase "tcs"))
    by (exists alice_tcs; simpl; auto).
  split; [reflexivity|]. split; [reflexivity|]. split; [exact Hh|].
  split; [reflexivity|]. split; [reflexivity|].
  intros H.
  specialize (H table_driven test_env test_runtime (bearer "good")
                alice_claims minus_one_tcs "tcs" test_db eq_refl eq_refl Hh).
  discriminate H.
Qed.

Lemma symbols_uppercase_everywhere_witness :
  (status (fst (app (TP := table_driven) test_env test_runtime
                    (DeletePortfolio (bearer "good") "tcs") test_db))
   = 200%Z
   /\ Portfolios (snd (app (TP := table_driven) test_env test_runtime
                           (DeletePortfolio (bearer "good") "tcs") test_db))
      = []
   /\ ~ holds_symbol
         (snd (app (TP := table_driven) test_env test_runtime
                   (DeletePortfolio (bearer "good") "tcs") test_db))
         1 "TCS")
  /\ exists row,
       pf_symbol row = "TCS"
       /\ Value (pf_quantity row) = Value 5%Q
       /\ In row
            (Portfolios
               (snd (app (TP := table_driven) test_env test_runtime
                         (PostPortfolio (bearer "good") five_tcs) test_db))).
Proof.
  assert (Hh : holds_symbol test_db 1 "TCS")
    by (exists alice_tcs; simpl; auto).
  split.
  - refine (proj1 (proj2 (proj2 (proj2 (proj2 (symbols_uppercase_everywhere
              (TP := table_driven) test_env test_runtime test_db)))))
              (bearer "good") alice_claims "tcs" _ _ Hh).
    + reflexivity.
    + discriminate.
  - assert (Pq : plain_quantity (pb_quantity five_tcs)).
    { exists 5%Q. split; [reflexivity|]. split; [discriminate|].
      split; [exists 5%Z; reflexivity | reflexivity]. }
    assert (Vp : valid_price (nullable (pb_purchasePrice five_tcs)))
      by (intros p E; discriminate E).
    destruct (proj1 (proj2 (proj2 (proj2 (proj2 (proj2
                (symbols_uppercase_everywhere (TP := table_driven) test_env
                   test_runtime test_db)))))
                (bearer "good") alice_claims five_tcs "tcs" eq_refl eq_refl
                Pq Vp test_db_rows_valid) Hh)
      as [item [row [_ [_ [_ [_ [S [Q [Hin _]]]]]]]]].
    exists row. auto.
Defined.

Lemma validators_keep_rows_in_bounds_witness :
  status (fst (app (TP := table_driven) test_env test_runtime
                   (PostPortfolio (bearer "good") minus_one_infy) test_db))
  = 400%Z
  /\ snd (app (TP := table_driven) test_env test_runtime
              (PostPortfolio (bearer "good") minus_one_infy) test_db)
     = test_db.
Proof.
  refine (proj1 (proj2 (proj2 (proj2 (validators_keep_rows_in_bounds
            (TP := table_driven) test_env test_runtime test_db))))
            (bearer "good") alice_claims minus_one_infy _ _ _).
  - reflexivity.
  - exact test_db_rows_valid.
  - left. exists (-1 # 1)%Q. split; [reflexivity|]. left. reflexivity.
Defined.

(** ** The definitions on small inputs *)

Example toUpperCase_tcs : toUpperCase "tcs" = "TCS".
Proof. reflexivity. Qed.

Example toUpperCase_mixed : toUpperCase "Larsen&Toubro-1" = "LARSEN&TOUBRO-1".
Proof. reflexivity. Qed.

Example includes_inside : includes "the rbi said" "rbi" = true.
Proof. reflexivity. Qed.

Example includes_absent : includes "the bank said" "rbi" = false.
Proof. reflexivity. Qed.

Example split_space_bearer :
  split_space "Bearer abc def" = ["Bearer"; "abc"; "def"].
Proof. reflexivity. Qed.

Example split_space_trailing : split_space "Bearer " = ["Bearer"; EmptyString].
Proof. reflexivity. Qed.

Example categorize_policy_first :
  categorizeNews "Government reviews GDP data" "Nifty slips" = Policy.
Proof. reflexivity. Qed.

Example categorize_economy : categorizeNews "Inflation cools" EmptyString = Economy.
Proof. reflexivity. Qed.

Example categorize_market : categorizeNews "NIFTY at record high" EmptyString = Market.
Proof. reflexivity. Qed.

Example categorize_company : categorizeNews "Quarterly results" EmptyString = Company.
Proof. reflexivity. Qed.

Example whole_word_found : hasFinancialWords "Company profit up" EmptyString = true.
Proof. reflexivity. Qed.

Example whole_word_only :
  hasFinancialWords "Companywide tradeoffs" EmptyString = false.
Proof. reflexivity. Qed.

Example toFixed2_half_up : toFixed2 (12345 # 1000) = (1235 # 100).
Proof. reflexivity. Qed.

Example toFixed2_negative : toFixed2 (-12345 # 1000) = (-1235 # 100).
Proof. reflexivity. Qed.

Example known_symbol_quote :
  fst (getFallbackStockData test_runtime 0 "tcs")
  = {| sd_symbol := "TCS"; sd_name := "Tata Consultancy Services";
       sd_price := 415630 # 100; sd_change := -1845 # 100;
       sd_changePercent := -44 # 100 |}.
Proof. reflexivity. Qed.

Example unknown_symbol_name :
  sd_name (fst (getFallbackStockData test_runtime 0 "zomato")) = "Zomato Ltd".
Proof. reflexivity. Qed.

Example login_succeeds :
  status (fst (login (TP := table_driven) test_env test_runtime alice_login
                     test_db)) = 200%Z.
Proof. reflexivity. Qed.

Example signup_short_password :
  fst (signup (TP := table_driven) test_env test_runtime
         {| su_name := Value "Bob"; su_email := Value "bob@example.com";
            su_password := Value "short" |} test_db)
  = validation_response ["Password must be at least 8 characters long"].
Proof. reflexivity. Qed.

Example signup_taken_email :
  fst (signup (TP := table_driven) test_env test_runtime
         {| su_name := Value "Alice B"; su_email := Value "alice@example.com";
            su_password := Value "long enough" |} test_db)
  = error_response 409 "Email already exists".
Proof. reflexivity. Qed.

Example add_new_symbol :
  status (fst (app (TP := table_driven) test_env test_runtime
                   (PostPortfolio (bearer "good")
                      {| pb_symbol := Value "infy"; pb_quantity := Value 3%Q;
                         pb_purchasePrice := Null;
                         pb_purchaseDate := Undefined;
                         pb_notes := Undefined |}) test_db)) = 201%Z.
Proof. reflexivity. Qed.

Example delete_held_symbol :
  Portfolios (snd (app (TP := table_driven) test_env test_runtime
                       (DeletePortfolio (bearer "good") "tcs") test_db)) = [].
Proof. reflexivity. Qed.

Example bad_signature_is_403 :
  fst (app (TP := table_driven) test_env test_runtime
           (GetPortfolio (bearer "forged")) test_db)
  = error_response 403 "Invalid token".
Proof. reflexivity. Qed.

Example total_outage_requests :
  requests (fetchNews total_outage cold_start) = [globalParams "key"].
Proof. reflexivity. Qed.

Example fallback_has_fifteen_items :
  List.length (getFallbackNews 0) = 15%nat.
Proof. reflexivity. Qed.

End Examples.

(* ===================================================================== *)
(** * Further results about the routes                                    *)
(* ===================================================================== *)

Module RouteFacts.

Import Js JsFacts Backend BackendSpec RouteSpec Fixtures.
Import StatusFacts ModelFacts PortfolioFacts ValidationFacts.

Lemma filter_length_zero {A : Type} (p : A -> bool) (l : list A) :
  List.length (filter p l) = O -> filter (fun x => negb (p x)) l = l.
Proof.
  induction l as [|a l IH]; simpl; [reflexivity|].
  destruct (p a); simpl; [discriminate|].
  intros H. f_equal. auto.
Qed.

Lemma Portfolio_destroy_zero (userId : Z) (symbol : string) (db : database) :
  fst (Portfolio_destroy userId symbol db) = O ->
  snd (Portfolio_destroy userId symbol db) = db.
Proof.
  unfold Portfolio_destroy. simpl. intros H.
  rewrite (filter_length_zero _ _ H). now destruct db.
Qed.

Section Routes.

Context {TP : ThirdParty}.

Variable env : environment.

Lemma signup_cases (rt : runtime) (b : signup_body) (db : database) :
  (status (fst (signup env rt b db)) = 400%Z /\ snd (signup env rt b db) = db)
  \/ (status (fst (signup env rt b db)) = 409%Z
      /\ snd (signup env rt b db) = db)
  \/ (exists name email password user,
        present (su_name b) = Some name
        /\ present (su_email b) = Some email
        /\ present (su_password b) = Some password
        /\ User_create rt name email password db
           = Done (user,
                   {| Users := (Users db ++ [user])%list;
                      Portfolios := Portfolios db;
                      next_user_id := (next_user_id db + 1)%Z;
                      next_portfolio_id := next_portfolio_id db |})
        /\ signup env rt b db
           = ({| status := 201;
                 body := JObj [("token", JStr (issue_token env rt user));
                               ("user", User_toJSON user)] |},
              {| Users := (Users db ++ [user])%list;
                 Portfolios := Portfolios db;
                 next_user_id := (next_user_id db + 1)%Z;
                 next_portfolio_id := next_portfolio_id db |})).
Proof.
  unfold signup.
  destruct (present (su_name b)) as [name|]; [|left; auto].
  destruct (present (su_email b)) as [email|]; [|left; auto].
  destruct (present (su_password b)) as [password|]; [|left; auto].
  destruct (User_create_cases rt name email password db)
    as [[ms [E _]] | [E | [user [_ [_ [_ [_ E]]]]]]]; rewrite E.
  - left. auto.
  - right. left. auto.
  - right. right. exists name, email, password, user. auto.
Qed.

Lemma login_cases (rt : runtime) (b : login_body) (db : database) :
  (status (fst (login env rt b db)) = 400%Z /\ snd (login env rt b db) = db)
  \/ (status (fst (login env rt b db)) = 401%Z
      /\ snd (login env rt b db) = db)
  \/ (exists email password user,
        present (li_email b) = Some email
        /\ present (li_password b) = Some password
        /\ User_findOne email db = Some user
        /\ validPassword user password = true
        /\ login env rt b db
           = ({| status := 200;
                 body := JObj [("token",
                                JStr (issue_token env rt
                                        (touch_lastLogin rt user)));
                               ("user",
                                User_toJSON (touch_lastLogin rt user))] |},
              User_save (touch_lastLogin rt user) db)).
Proof.
  unfold login.
  destruct (present (li_email b)) as [email|]; [|left; auto].
  destruct (present (li_password b)) as [password|]; [|left; auto].
  destruct (User_findOne email db) as [user|] eqn:F; [|right; left; auto].
  destruct (validPassword user password) eqn:V; simpl.
  - right. right. exists email, password, user. auto.
  - right. left. auto.
Qed.

Lemma removeFromPortfolio_cases (symbol : string) (user : claims)
    (db : database) :
  (symbol = EmptyString
   /\ removeFromPortfolio symbol user db
      = (error_response 400 "Symbol is required", db))
  \/ (symbol <> EmptyString
      /\ ~ holds_symbol db (claim_id user) (toUpperCase symbol)
      /\ removeFromPortfolio symbol user db
         = (error_response 404 "Stock not found in portfolio", db))
  \/ (symbol <> EmptyString
      /\ holds_symbol db (claim_id user) (toUpperCase symbol)
      /\ removeFromPortfolio symbol user db
         = ({| status := 200;
               body := JObj [("success", JBool true);
                             ("message",
                              JStr "Stock removed from portfolio")] |},
            snd (Portfolio_destroy (claim_id user) (toUpperCase symbol) db))).
Proof.
  destruct symbol as [|c r] eqn:S; [left; auto|]. rewrite <- S.
  assert (Hs : symbol <> EmptyString) by (rewrite S; discriminate).
  right.
  destruct (Portfolio_findOne (claim_id user) (toUpperCase symbol) db)
    as [row|] eqn:F.
  - right. apply Portfolio_findOne_Some in F. destruct F as [Hin [F1 F2]].
    assert (Hh : holds_symbol db (claim_id user) (toUpperCase symbol))
      by now exists row.
    split; auto. split; auto.
    unfold removeFromPortfolio.
    assert (T : truthy_str symbol = true) by (rewrite S; reflexivity).
    rewrite T. cbn [negb].
    destruct (Portfolio_destroy (claim_id user) (toUpperCase symbol) db)
      as [deleted db'] eqn:D.
    assert (Hd : deleted <> O).
    { unfold Portfolio_destroy in D. inversion D as [[D1 D2]].
      intros Z0.
      assert (Hf : In row (filter (same_holding (claim_id user)
                                     (toUpperCase symbol)) (Portfolios db))).
      { apply filter_In. split; auto. now apply same_holding_true. }
      destruct (filter _ (Portfolios db)); [destruct Hf | discriminate]. }
    apply Nat.eqb_neq in Hd. rewrite Hd. reflexivity.
  - left. apply Portfolio_findOne_None in F. split; auto. split; auto.
    now apply removeFromPortfolio_absent.
Qed.

(** X1. A request that is answered with an error status (400 and above)
    leaves the database exactly as it was, and so does every request to
    the two GET routes, whatever it is answered with. *)
Theorem failed_requests_change_nothing (rt : runtime) (req : request)
    (db : database) :
  ((400 <= status (fst (app env rt req db)))%Z ->
   snd (app env rt req db) = db) /\
  (forall h, snd (app env rt (GetProfile h) db) = db
             /\ snd (app env rt (GetPortfolio h) db) = db).
Proof.
  split.
  - destruct req as [b | b | h | h | h b | h symbol]; simpl.
    + destruct (signup_cases rt b db)
        as [[_ E] | [[_ E] | [n [e [p [u [_ [_ [_ [_ E]]]]]]]]]]; auto.
      rewrite E. simpl. lia.
    + destruct (login_cases rt b db)
        as [[_ E] | [[_ E] | [e [p [u [_ [_ [_ [_ E]]]]]]]]]; auto.
      rewrite E. simpl. lia.
    + unfold protected. destruct (authenticateToken env rt h); auto.
      unfold profile. destruct (User_findByPk _ _); auto.
    + unfold protected. destruct (authenticateToken env rt h); auto.
    + unfold protected.
      destruct (authenticateToken env rt h) as [r|user]; auto.
      destruct (addToPortfolio_cases rt b user db)
        as [[_ E] | [s [Ps [Pq [[Hn [[ms [_ E]] | [q [Eq [Hv E]]]]]
                         | [item [F [[ms [_ E]] | [q [Eq [H1 [H2 E]]]]]]]]]]]];
        rewrite E; simpl; auto; lia.
    + unfold protected.
      destruct (authenticateToken env rt h) as [r|user]; auto.
      destruct (removeFromPortfolio_cases symbol user db)
        as [[_ E] | [[_ [_ E]] | [_ [_ E]]]]; rewrite E; simpl; auto; lia.
  - intros h. simpl. unfold protected.
    destruct (authenticateToken env rt h); simpl; auto.
    unfold profile. destruct (User_findByPk _ _); auto.
Qed.

(** X2. The handlers on well-typed requests.  For a request that the
    rate limiters let through, whose body is a JSON object with fields of
    the types the handlers expect (text for name, email, password, symbol
    and notes; numbers for quantity and price), and as long as no call to
    the database or to a library throws, each route answers with one of
    these status codes: signup 201, 400 or 409; login 200, 400 or 401;
    profile 200, 401, 403 or 404; the portfolio list 200, 401 or 403; add
    200, 201, 400, 401 or 403; delete 200, 400, 401, 403 or 404.  In
    particular the add route does not reach its 500 answer through the
    unique index, because [findOrCreate] has looked the holding up first.
    Outside these conditions the routes also answer 429 (a limiter) and
    500 (for instance a symbol that is a number, on which [toUpperCase]
    throws); the model has no such request. *)
Theorem routes_answer_with_their_codes (rt : runtime) (req : request)
    (db : database) :
  In (status (fst (app env rt req db))) (route_statuses req).
Proof.
  assert (G : forall h handler (codes : list Z),
             In 401%Z codes -> In 403%Z codes ->
             (forall user, In (status (fst (handler user db))) codes) ->
             In (status (fst (protected env rt h handler db))) codes).
  { intros h handler codes H1 H3 Hh. unfold protected, authenticateToken.
    destruct (bearer_token h) as [token|]; [|exact H1].
    destruct (jwt_verify _ _ _) as [user|name]; [apply Hh|].
    destruct (String.eqb name "TokenExpiredError"); auto. }
  destruct req as [b | b | h | h | h b | h symbol];
    unfold app, route_statuses.
  - destruct (signup_cases rt b db)
      as [[E _] | [[E _] | [n [e [p [u [_ [_ [_ [_ E]]]]]]]]]]; rewrite E;
      simpl; auto.
  - destruct (login_cases rt b db)
      as [[E _] | [[E _] | [e [p [u [_ [_ [_ [_ E]]]]]]]]]; rewrite E;
      simpl; auto.
  - apply G; [simpl; tauto | simpl; tauto |]. intros user. unfold profile.
    destruct (User_findByPk _ _); simpl; auto.
  - apply G; [simpl; tauto | simpl; tauto |]. intros user. simpl. auto.
  - apply G; [simpl; tauto | simpl; tauto |]. intros user.
    destruct (addToPortfolio_cases rt b user db)
      as [[_ E] | [s [Ps [Pq [[Hn [[ms [_ E]] | [q [Eq [Hv E]]]]]
                       | [item [F [[ms [_ E]] | [q [Eq [H1 [H2 E]]]]]]]]]]]];
      rewrite E; simpl; auto.
  - apply G; [simpl; tauto | simpl; tauto |]. intros user.
    destruct (removeFromPortfolio_cases symbol user db)
      as [[_ E] | [[_ [_ E]] | [_ [_ E]]]]; rewrite E; simpl; tauto.
Qed.

(** ** Holdings of other users *)

Lemma filter_filter_absorb {A : Type} (p q : A -> bool) (l : list A) :
  (forall x, In x l -> p x = true -> q x = true) ->
  filter p (filter q l) = filter p l.
Proof.
  induction l as [|a l IH]; simpl; intros H; [reflexivity|].
  destruct (q a) eqn:Q; simpl.
  - destruct (p a); [f_equal|]; apply IH; auto.
  - destruct (p a) eqn:P.
    + rewrite (H a (or_introl eq_refl) P) in Q. discriminate.
    + apply IH; auto.
Qed.

Lemma filter_replaced (userId : Z) (portfolioItem row : Portfolio)
    (l : list Portfolio) :
  NoDup (map pf_id l) -> In portfolioItem l ->
  owned_by userId portfolioItem = false -> owned_by userId row = false ->
  filter (owned_by userId)
    (map (fun r => if (pf_id r =? pf_id portfolioItem)%Z then row else r) l)
  = filter (owned_by userId) l.
Proof.
  intros Hn Hin Ho Hr.
  assert (G : forall l', (forall r, In r l' -> In r l) ->
            filter (owned_by userId)
              (map (fun r => if (pf_id r =? pf_id portfolioItem)%Z
                             then row else r) l')
            = filter (owned_by userId) l').
  { induction l' as [|a l' IH]; intros Hsub; simpl; [reflexivity|].
    destruct (pf_id a =? pf_id portfolioItem)%Z eqn:E.
    - apply Z.eqb_eq in E.
      assert (a = portfolioItem).
      { apply (NoDup_map_eq pf_id l); auto. apply Hsub. now left. }
      subst a. rewrite Hr, Ho. apply IH. intros r Hr'. apply Hsub. now right.
    - destruct (owned_by userId a); [f_equal|]; apply IH;
        intros r Hr'; apply Hsub; now right. }
  apply G. auto.
Qed.

(** X3. The holdings of a user change only through requests that carry a
    token verified for that user: under the primary key, every request
    that acts for nobody, or for another user id, leaves the rows owned by
    [userId] exactly as they were, in the same order. *)
Theorem holdings_change_only_for_their_owner (rt : runtime) (req : request)
    (db : database) (userId : Z) :
  primary_keys_ok db ->
  (forall user, acting_user env rt req = Some user ->
                claim_id user <> userId) ->
  filter (owned_by userId) (Portfolios (snd (app env rt req db)))
  = filter (owned_by userId) (Portfolios db).
Proof.
  intros [Hn _] Hact.
  assert (Hother : forall user row,
             claim_id user <> userId -> pf_userId row = claim_id user ->
             owned_by userId row = false).
  { intros user row Hne E. unfold owned_by. apply Z.eqb_neq. congruence. }
  destruct req as [b | b | h | h | h b | h symbol];
    unfold acting_user in Hact; simpl in Hact; simpl.
  - now rewrite (proj1 (signup_portfolios env rt b db)).
  - now rewrite (proj1 (login_portfolios env rt b db)).
  - unfold protected. destruct (authenticateToken env rt h); auto.
    unfold profile. destruct (User_findByPk _ _); auto.
  - unfold protected. destruct (authenticateToken env rt h); auto.
  - unfold protected.
    destruct (authenticateToken env rt h) as [r|user]; auto.
    specialize (Hact user eq_refl).
    destruct (addToPortfolio_cases rt b user db)
      as [[_ E] | [s [Ps [Pq [[Hnh [[ms [_ E]] | [q [Eq [Hv E]]]]]
                       | [item [F [[ms [_ E]] | [q [Eq [H1 [H2 E]]]]]]]]]]]];
      rewrite E; simpl; auto.
    + rewrite filter_app. cbn [filter].
      match goal with |- context [owned_by userId ?r] =>
        rewrite (Hother user r Hact) by reflexivity end.
      apply app_nil_r.
    + apply Portfolio_findOne_Some in F. destruct F as [Hin [F1 F2]].
      apply filter_replaced; auto.
      * now apply (Hother user).
      * now apply (Hother user).
  - unfold protected.
    destruct (authenticateToken env rt h) as [r|user]; auto.
    specialize (Hact user eq_refl).
    destruct (removeFromPortfolio_cases symbol user db)
      as [[_ E] | [[_ [_ E]] | [_ [_ E]]]]; rewrite E; simpl; auto.
    apply filter_filter_absorb. intros row _ Ho.
    unfold owned_by in Ho. apply Z.eqb_eq in Ho.
    unfold same_holding.
    destruct (pf_userId row =? claim_id user)%Z eqn:E'; auto.
    apply Z.eqb_eq in E'. congruence.
Qed.

(** ** Deleting *)

Lemma destroy_not_held (userId : Z) (symbol : string) (db : database) :
  ~ holds_symbol (snd (Portfolio_destroy userId symbol db)) userId symbol.
Proof.
  intros [row [Hin [H1 H2]]]. simpl in Hin. apply filter_In in Hin.
  destruct Hin as [_ Hin].
  assert (T : same_holding userId symbol row = true)
    by now apply same_holding_true.
  rewrite T in Hin. discriminate.
Qed.

(** X10. A delete request that passes the middleware, for a symbol the user
    holds (in any case), is answered 200 and removes the rows with that
    user and symbol and no other row; the [Users] table is untouched; the
    user no longer holds the symbol, so repeating the request is answered
    404. *)
Theorem delete_removes_exactly_the_holding (rt : runtime) (h : headers)
    (user : claims) (symbol : string) (db : database) :
  authenticated env rt h user ->
  symbol <> EmptyString ->
  holds_symbol db (claim_id user) (toUpperCase symbol) ->
  let result := app env rt (DeletePortfolio h symbol) db in
  status (fst result) = 200%Z
  /\ Portfolios (snd result)
     = filter (fun row => negb (same_holding (claim_id user)
                                  (toUpperCase symbol) row))
              (Portfolios db)
  /\ Users (snd result) = Users db
  /\ (forall row, In row (Portfolios db) ->
                  holding_key row <> (claim_id user, toUpperCase symbol) ->
                  In row (Portfolios (snd result)))
  /\ ~ holds_symbol (snd result) (claim_id user) (toUpperCase symbol)
  /\ app env rt (DeletePortfolio h symbol) (snd result)
     = (error_response 404 "Stock not found in portfolio", snd result).
Proof.
  intros A Hs Hh result. subst result. simpl. unfold protected.
  unfold authenticated in A. rewrite A.
  destruct (removeFromPortfolio_cases symbol user db)
    as [[C _] | [[_ [C _]] | [_ [_ E]]]]; try contradiction.
  rewrite E. cbn [fst snd status].
  split; [reflexivity|]. split; [reflexivity|]. split; [reflexivity|].
  split.
  { intros row Hin Hk. simpl. apply filter_In. split; auto.
    destruct (same_holding (claim_id user) (toUpperCase symbol) row) eqn:S;
      auto.
    apply same_holding_true in S. destruct S as [S1 S2].
    exfalso. apply Hk. unfold holding_key. now rewrite S1, S2. }
  split; [apply destroy_not_held|].
  apply removeFromPortfolio_absent; auto. apply destroy_not_held.
Qed.

(** X11. Adding a new symbol and deleting it again gives the table back:
    if an add request is answered 201, a later delete request of the same
    user for that symbol, in any case, is answered 200 and the [Portfolios]
    table is row for row what it was before the add. *)
Theorem add_then_delete_restores_the_table (rt rt' : runtime)
    (h h' : headers) (user user' : claims) (b : portfolio_body)
    (s symbol : string) (db : database) :
  authenticated env rt h user ->
  authenticated env rt' h' user' ->
  claim_id user' = claim_id user ->
  present (pb_symbol b) = Some s ->
  toUpperCase symbol = toUpperCase s ->
  status (fst (app env rt (PostPortfolio h b) db)) = 201%Z ->
  let added := snd (app env rt (PostPortfolio h b) db) in
  status (fst (app env rt' (DeletePortfolio h' symbol) added)) = 200%Z
  /\ Portfolios (snd (app env rt' (DeletePortfolio h' symbol) added))
     = Portfolios db.
Proof.
  intros A A' Hid Ps Hu. simpl. unfold protected.
  unfold authenticated in A, A'. rewrite A, A'.
  destruct (addToPortfolio_cases rt b user db)
    as [[_ E] | [s' [Ps' [Pq [[Hnh [[ms [_ E]] | [q [Eq [Hv E]]]]]
                     | [item [F [[ms [_ E]] | [q [Eq [H1 [H2 E]]]]]]]]]]]];
    rewrite E; cbn [fst snd status add_success validation_response
                    error_response]; try discriminate.
  intros _. rewrite Ps in Ps'. inversion Ps'; subst s'.
  set (row := created_row (claim_id user) (toUpperCase s) q
                (pb_purchasePrice b) (or_now (pb_purchaseDate b) (clock rt))
                (pb_notes b) db).
  assert (Hsym : symbol <> EmptyString).
  { apply present_Some in Ps. destruct Ps as [_ Ps]. intros ->.
    destruct s; [congruence | discriminate]. }
  assert (Hrow : same_holding (claim_id user') (toUpperCase symbol) row
                 = true).
  { apply same_holding_true. subst row. simpl.
    rewrite beforeValidate_upper. split; congruence. }
  destruct (removeFromPortfolio_cases symbol user' (with_new_row row db))
    as [[C _] | [[_ [C _]] | [_ [_ E']]]].
  - contradiction.
  - exfalso. apply C. exists row. apply same_holding_true in Hrow.
    simpl. rewrite in_app_iff. simpl. tauto.
  - rewrite E'. cbn [fst snd status]. split; [reflexivity|].
    simpl. rewrite filter_app. simpl. rewrite Hrow. simpl.
    rewrite app_nil_r. apply filter_keeps_all.
    intros r Hr. destruct (same_holding _ _ r) eqn:S; auto.
    exfalso. apply Hnh. apply same_holding_true in S.
    exists r. rewrite Hid, Hu in S. tauto.
Qed.


End Routes.

End RouteFacts.

(* ===================================================================== *)
(** * Results about accounts and tokens                                   *)
(* ===================================================================== *)

Module AccountFacts.

Import Js JsFacts Backend BackendSpec RouteSpec Fixtures.
Import AuthFacts StatusFacts ModelFacts PortfolioFacts ValidationFacts.
Import RouteFacts.

(** ** The header *)

Lemma split_word (cur word : string) :
  spaceless word = true -> split_space_aux cur word = [cur ++ word].
Proof.
  revert cur. induction word as [|c word IH]; intros cur H; simpl in *.
  - f_equal. induction cur; simpl; congruence.
  - apply andb_true_iff in H. destruct H as [Hc Hw].
    destruct (Ascii.eqb c " ") eqn:E; [discriminate|].
    rewrite IH by exact Hw. f_equal.
    clear. induction cur; simpl; congruence.
Qed.

Lemma split_first_word (cur word rest : string) :
  spaceless word = true ->
  split_space_aux cur (word ++ String " " rest)
  = (cur ++ word) :: split_space_aux EmptyString rest.
Proof.
  revert cur. induction word as [|c word IH]; intros cur H; simpl in *.
  - f_equal. induction cur; simpl; congruence.
  - apply andb_true_iff in H. destruct H as [Hc Hw].
    destruct (Ascii.eqb c " ") eqn:E; [discriminate|].
    rewrite IH by exact Hw. f_equal.
    clear. induction cur; simpl; congruence.
Qed.

Lemma split_no_space (cur s : string) :
  spaceless s = true -> nth_error (split_space_aux cur s) 1 = None.
Proof. intros H. now rewrite split_word. Qed.

Lemma truthy_nonempty (s : string) : s <> EmptyString -> truthy_str s = true.
Proof. destruct s; [congruence | reflexivity]. Qed.

Lemma spaced_truthy (a b : string) : truthy_str (a ++ " " ++ b) = true.
Proof. destruct a; reflexivity. Qed.

Lemma bearer_token_two_words (scheme token : string) :
  spaceless scheme = true -> spaceless token = true ->
  token <> EmptyString ->
  bearer_token {| authorization := Some (scheme ++ " " ++ token) |}
  = Some token.
Proof.
  intros Hs Ht Hne. unfold bearer_token. cbn [authorization].
  rewrite spaced_truthy. unfold split_space.
  change (" " ++ token) with (String " " token).
  rewrite split_first_word by exact Hs.
  rewrite split_word by exact Ht. cbn.
  now rewrite (truthy_nonempty _ Hne).
Qed.

(** X9. The middleware reads the token as the second word of the header,
    whatever the first word is and whatever follows a second space: for a
    first word and a non-empty token without spaces, [scheme token] and
    [scheme token rest] both give [token].  A header that has no space in
    it gives no token. *)
Theorem bearer_token_is_the_second_word (scheme token : string) :
  spaceless scheme = true -> spaceless token = true ->
  token <> EmptyString ->
  bearer_token {| authorization := Some (scheme ++ " " ++ token) |}
  = Some token
  /\ (forall rest,
        bearer_token
          {| authorization := Some (scheme ++ " " ++ token ++ " " ++ rest) |}
        = Some token)
  /\ bearer_token {| authorization := Some scheme |} = None
  /\ bearer_token {| authorization := Some token |} = None.
Proof.
  intros Hs Ht Hne.
  assert (T : truthy_str token = true) by now apply truthy_nonempty.
  assert (N : forall w, spaceless w = true ->
              bearer_token {| authorization := Some w |} = None).
  { intros w Hw. unfold bearer_token. cbn [authorization].
    destruct (truthy_str w); auto.
    unfold split_space. now rewrite split_no_space. }
  repeat split; auto.
  - now apply bearer_token_two_words.
  - intros rest. unfold bearer_token. cbn [authorization].
    rewrite spaced_truthy.
    unfold split_space.
    change (" " ++ token ++ " " ++ rest)
      with (String " " (token ++ String " " rest)).
    rewrite split_first_word by exact Hs.
    rewrite split_first_word by exact Ht. cbn. now rewrite T.
Qed.

(** ** The [Users] table *)

Lemma find_last {A : Type} (p : A -> bool) (l : list A) (x : A) :
  existsb p l = false -> p x = true -> find p (l ++ [x])%list = Some x.
Proof.
  induction l as [|a l IH]; simpl; intros H Hx.
  - now rewrite Hx.
  - apply orb_false_iff in H. destruct H as [Ha Hl].
    rewrite Ha. auto.
Qed.

Section Accounts.

Context {TP : ThirdParty}.

Variable env : environment.

Lemma User_create_Done (rt : runtime) (name email password : string)
    (db db' : database) (user : User) :
  User_create rt name email password db = Done (user, db') ->
  existsb (fun u => String.eqb (user_email u) email) (Users db) = false
  /\ user_id user = next_user_id db
  /\ user_email user = email
  /\ user_role user = "user"
  /\ user_password user = beforeCreate rt password.
Proof.
  unfold User_create.
  destruct (validate_name name ++ validate_email email
            ++ validate_password password)%list; [|discriminate].
  destruct (existsb _ (Users db)); [discriminate|].
  intros H. inversion H. subst. simpl. auto.
Qed.

Lemma credentials_ids (l l' : list User) :
  map credentials l' = map credentials l ->
  map user_id l' = map user_id l /\ map user_email l' = map user_email l.
Proof.
  revert l'. induction l as [|u l IH]; intros [|u' l']; simpl; intros H;
    try discriminate; auto.
  inversion H. destruct (IH l') as [I1 I2]; auto.
  split; congruence.
Qed.

Lemma users_consistent_same (db db' : database) :
  map credentials (Users db') = map credentials (Users db) ->
  next_user_id db' = next_user_id db ->
  users_consistent db -> users_consistent db'.
Proof.
  intros Hc Hn [C1 [C2 C3]]. apply credentials_ids in Hc.
  destruct Hc as [Hi He]. unfold users_consistent.
  rewrite Hi, He, Hn. repeat split; auto.
  intros user Hin. apply (in_map user_id) in Hin. rewrite Hi in Hin.
  apply in_map_iff in Hin. destruct Hin as [u [E Hu]].
  rewrite <- E. now apply C2.
Qed.

Lemma User_save_credentials (rt : runtime) (user : User) (db : database) :
  NoDup (map user_id (Users db)) -> In user (Users db) ->
  map credentials (Users (User_save (touch_lastLogin rt user) db))
  = map credentials (Users db).
Proof.
  intros Hn Hin. simpl. rewrite map_map. apply map_ext_in.
  intros u Hu. destruct (user_id u =? user_id user)%Z eqn:E; auto.
  apply Z.eqb_eq in E.
  now rewrite (NoDup_map_eq user_id (Users db) u user Hn Hu Hin E).
Qed.

(** What a request does to the credentials stored in [Users]: nothing, or
    one account is appended by a sign-up answered 201. *)
Lemma app_credentials (rt : runtime) (req : request) (db : database) :
  users_consistent db ->
  (map credentials (Users (snd (app env rt req db)))
   = map credentials (Users db)
   /\ next_user_id (snd (app env rt req db)) = next_user_id db)
  \/ (exists b name email password user,
        req = PostSignup b
        /\ status (fst (app env rt req db)) = 201%Z
        /\ User_create rt name email password db
           = Done (user, snd (app env rt req db))
        /\ Users (snd (app env rt req db)) = (Users db ++ [user])%list
        /\ next_user_id (snd (app env rt req db))
           = (next_user_id db + 1)%Z).
Proof.
  intros [C1 [C2 C3]].
  destruct req as [b | b | h | h | h b | h symbol]; simpl.
  - destruct (signup_cases env rt b db)
      as [[_ E] | [[_ E] | [name [email [password [user [_ [_ [_ [Hc E]]]]]]]]]].
    + left. now rewrite E.
    + left. now rewrite E.
    + right. exists b, name, email, password, user. rewrite E. simpl.
      auto.
  - left. destruct (login_cases env rt b db)
      as [[_ E] | [[_ E] | [email [password [user [_ [_ [F [_ E]]]]]]]]];
      rewrite E; auto.
    apply User_findOne_Some in F. destruct F as [Hin _].
    split; [now apply User_save_credentials | reflexivity].
  - left. unfold protected. destruct (authenticateToken env rt h); auto.
    unfold profile. destruct (User_findByPk _ _); auto.
  - left. unfold protected. destruct (authenticateToken env rt h); auto.
  - left. unfold protected. destruct (authenticateToken env rt h); auto.
    rewrite addToPortfolio_users. split; auto.
    destruct (addToPortfolio_cases rt b user db)
      as [[_ E] | [s [Ps [Pq [[Hnh [[ms [_ E]] | [q [Eq [Hv E]]]]]
                       | [item [F [[ms [_ E]] | [q [Eq [H1 [H2 E]]]]]]]]]]]];
      rewrite E; reflexivity.
  - left. unfold protected. destruct (authenticateToken env rt h); auto.
    rewrite removeFromPortfolio_users. split; auto.
    destruct (removeFromPortfolio_cases symbol user db)
      as [[_ E] | [[_ [_ E]] | [_ [_ E]]]]; rewrite E; reflexivity.
Qed.

Lemma existsb_email (email : string) (l : list User) :
  existsb (fun u => String.eqb (user_email u) email) l = false <->
  ~ In email (map user_email l).
Proof.
  induction l as [|u l IH]; simpl; [tauto|].
  rewrite orb_false_iff, IH, String.eqb_neq. tauto.
Qed.

(** X6. The keys of [Users] survive every request: ids stay distinct and
    below the counter, and no two accounts share an email.  A sign-up
    with an email that is taken creates nothing and is answered 400 or
    409. *)
Theorem accounts_stay_unique (rt : runtime) (req : request) (db : database) :
  users_consistent db ->
  users_consistent (snd (app env rt req db))
  /\ (forall b email,
        req = PostSignup b ->
        present (su_email b) = Some email ->
        In email (map user_email (Users db)) ->
        snd (app env rt req db) = db
        /\ (status (fst (app env rt req db)) = 400%Z
            \/ status (fst (app env rt req db)) = 409%Z)).
Proof.
  intros C. split.
  - destruct (app_credentials rt req db C)
      as [[Hc Hn] | [b [name [email [password [user [_ [_ [Hd [Hu Hn]]]]]]]]]].
    + now apply (users_consistent_same db).
    + apply User_create_Done in Hd.
      destruct Hd as [Hx [Hi [He _]]]. destruct C as [C1 [C2 C3]].
      unfold users_consistent. rewrite Hu, Hn, !map_app. simpl.
      repeat split.
      * apply NoDup_snoc; auto. intros Hin. apply in_map_iff in Hin.
        destruct Hin as [u [E Hin]]. specialize (C2 u Hin). lia.
      * intros u Hin. apply in_app_iff in Hin. destruct Hin as [Hin|[<-|[]]].
        -- specialize (C2 u Hin). lia.
        -- lia.
      * apply NoDup_snoc; auto. rewrite He. now apply existsb_email.
  - intros b email -> Pe Hin. simpl.
    destruct (signup_cases env rt b db)
      as [[S E] | [[S E] | [name [email' [password [user [_ [Pe' [_ [Hc E]]]]]]]]]];
      auto.
    exfalso. rewrite Pe in Pe'. inversion Pe'; subst email'.
    apply User_create_Done in Hc. destruct Hc as [Hx _].
    apply existsb_email in Hx. contradiction.
Qed.

(** X7. No request removes an account or rewrites what lets its owner in:
    after any request the id, name, email, password hash and role of the
    accounts stored before are what they were, in the same order; at most
    one account follows them, and only after a sign-up answered 201. *)
Theorem accounts_are_never_rewritten (rt : runtime) (req : request)
    (db : database) :
  users_consistent db ->
  exists added,
    map credentials (Users (snd (app env rt req db)))
    = (map credentials (Users db) ++ added)%list
    /\ (added = []
        \/ (exists b c, req = PostSignup b /\ added = [c]
                        /\ status (fst (app env rt req db)) = 201%Z)).
Proof.
  intros C.
  destruct (app_credentials rt req db C)
    as [[Hc Hn] | [b [name [email [password [user [-> [S [Hd [Hu Hn]]]]]]]]]].
  - exists []. rewrite app_nil_r. auto.
  - exists [credentials user]. rewrite Hu, map_app. split; auto.
    right. exists b, (credentials user). auto.
Qed.

(** X5. Signing up and then logging in: after a sign-up answered 201, a
    login with the same email is answered 200 exactly when bcrypt accepts
    the password sent against the hash of the password signed up with, and
    401 otherwise; when accepted, the body carries the account created by
    the sign-up, with [lastLogin] set to the time of the login. *)
Theorem signup_then_login (rt rt' : runtime) (b : signup_body)
    (li : login_body) (db : database) (email password attempt : string) :
  status (fst (app env rt (PostSignup b) db)) = 201%Z ->
  present (su_email b) = Some email ->
  present (su_password b) = Some password ->
  present (li_email li) = Some email ->
  present (li_password li) = Some attempt ->
  exists user,
    body (fst (app env rt (PostSignup b) db))
    = JObj [("token", JStr (issue_token env rt user));
            ("user", User_toJSON user)]
    /\ user_id user = next_user_id db
    /\ user_email user = email
    /\ fst (app env rt' (PostLogin li) (snd (app env rt (PostSignup b) db)))
       = if bcrypt_compare attempt (bcrypt_hash (salt rt) password)
         then {| status := 200;
                 body := JObj [("token",
                                JStr (issue_token env rt'
                                        (touch_lastLogin rt' user)));
                               ("user",
                                User_toJSON (touch_lastLogin rt' user))] |}
         else error_response 401 "Invalid credentials".
Proof.
  intros S Pe Pp Le Lp. simpl in *.
  destruct (signup_cases env rt b db)
    as [[S' _] | [[S' _] | [name [email' [password' [user [_ [Pe' [Pp' [Hc E]]]]]]]]]];
    try (rewrite S in S'; discriminate).
  rewrite Pe in Pe'. inversion Pe'; subst email'.
  rewrite Pp in Pp'. inversion Pp'; subst password'.
  apply User_create_Done in Hc. destruct Hc as [Hx [Hi [He [_ Hp]]]].
  exists user. rewrite E. cbn [fst snd body].
  split; [reflexivity|]. split; [exact Hi|]. split; [exact He|].
  unfold login. rewrite Le, Lp. unfold User_findOne. cbn [Users].
  rewrite (find_last _ _ user Hx) by (rewrite He; apply String.eqb_refl).
  unfold validPassword. rewrite Hp. unfold beforeCreate.
  apply present_Some in Pp. destruct Pp as [_ Pp].
  rewrite (truthy_nonempty _ Pp).
  destruct (bcrypt_compare attempt (bcrypt_hash (salt rt) password));
    reflexivity.
Qed.

Lemma find_by_id_last (l : list User) (user : User) :
  (forall u, In u l -> (user_id u < user_id user)%Z) ->
  find (fun u => (user_id u =? user_id user)%Z) (l ++ [user])%list
  = Some user.
Proof.
  intros H. apply find_last; [|apply Z.eqb_refl].
  apply not_true_is_false. intros Hx. apply existsb_exists in Hx.
  destruct Hx as [u [Hin E]]. apply Z.eqb_eq in E.
  specialize (H u Hin). lia.
Qed.

Lemma User_create_fresh (rt : runtime) (name email password : string)
    (db db' : database) (user : User) :
  User_create rt name email password db = Done (user, db') ->
  user_name user = name /\ user_lastLogin user = None.
Proof.
  unfold User_create.
  destruct (validate_name name ++ validate_email email
            ++ validate_password password)%list; [|discriminate].
  destruct (existsb _ (Users db)); [discriminate|].
  intros H. inversion H. subst. simpl. auto.
Qed.

(** X8. The token of a sign-up opens the profile of the account it
    created: if jsonwebtoken verifies the token of a sign-up answered 201
    for a payload with the id of the new account, and the token is one
    word, then a profile request with [Bearer token] is answered 200 with
    the stored row of that account (the id the counter gave, the name and
    the email signed up with, role "user", no login yet) written without
    its password, and changes nothing. *)
Theorem signup_token_opens_profile (rt rt' : runtime) (b : signup_body)
    (db : database) (name email token : string) (payload : claims) :
  users_consistent db ->
  status (fst (app env rt (PostSignup b) db)) = 201%Z ->
  json_member "token" (body (fst (app env rt (PostSignup b) db)))
  = Some (JStr token) ->
  present (su_name b) = Some name ->
  present (su_email b) = Some email ->
  spaceless token = true -> token <> EmptyString ->
  jwt_verify token (signing_secret env) (clock rt') = Verified payload ->
  claim_id payload = next_user_id db ->
  let db' := snd (app env rt (PostSignup b) db) in
  exists user,
    app env rt' (GetProfile {| authorization := Some ("Bearer " ++ token) |})
        db'
    = ({| status := 200; body := JObj [("user", User_toJSON user)] |}, db')
    /\ In user (Users db')
    /\ user_id user = next_user_id db
    /\ user_name user = name
    /\ user_email user = email
    /\ user_role user = "user"
    /\ user_lastLogin user = None
    /\ json_member "password" (User_toJSON user) = None.
Proof.
  intros [_ [C2 _]] S B Pn Pe Hs Hne Hv Hp. simpl in *.
  destruct (signup_cases env rt b db)
    as [[S' _] | [[S' _] | [name' [email' [password [user [Pn' [Pe' [_ [Hc E]]]]]]]]]];
    try (rewrite S in S'; discriminate).
  rewrite Pn in Pn'. inversion Pn'; subst name'.
  rewrite Pe in Pe'. inversion Pe'; subst email'.
  rewrite E in B |- *. cbn [fst snd body] in *.
  unfold json_member in B. simpl in B. inversion B as [Ht].
  destruct (User_create_fresh _ _ _ _ _ _ _ Hc) as [Hname Hlast].
  apply User_create_Done in Hc. destruct Hc as [_ [Hi [He [Hr _]]]].
  exists user.
  split.
  { unfold protected, authenticateToken.
    pose proof (bearer_token_two_words "Bearer" token eq_refl Hs Hne) as Hb.
    simpl in Hb. rewrite Ht, Hb, Hv.
    unfold profile, User_findByPk. cbn [Users]. rewrite Hp, <- Hi.
    rewrite find_by_id_last; [reflexivity|].
    intros u Hin. rewrite Hi. now apply C2. }
  split; [cbn [Users]; apply in_or_app; right; now left|].
  repeat split; auto.
Qed.

End Accounts.

End AccountFacts.

(* ===================================================================== *)
(** * Results about the portfolio list and the fallback stock data        *)
(* ===================================================================== *)

Module ListingFacts.

Import Js JsFacts Backend BackendSpec RouteSpec ListingSpec Fixtures.
Import FallbackFacts.

(** ** The fallback stock data *)

Lemma lower_of_upper (c : ascii) : lower_ascii (upper_ascii c) = lower_ascii c.
Proof. destruct c as [[] [] [] [] [] [] [] []]; reflexivity. Qed.

Lemma toLowerCase_of_upper (s : string) :
  toLowerCase (toUpperCase s) = toLowerCase s.
Proof.
  induction s as [|c s IH]; simpl; [reflexivity|].
  now rewrite lower_of_upper, IH.
Qed.

Lemma capitalize_of_upper (s : string) :
  capitalize (toUpperCase s) = capitalize s.
Proof.
  destruct s as [|c s]; simpl; [reflexivity|].
  now rewrite upper_ascii_idem, toLowerCase_of_upper.
Qed.

Lemma lookup_quote_In (key : string) (table : list (string * base_quote))
    (baseData : base_quote) :
  lookup_quote key table = Some baseData -> In (key, baseData) table.
Proof.
  induction table as [|[k v] table IH]; simpl; [discriminate|].
  destruct (String.eqb k key) eqn:E.
  - apply String.eqb_eq in E. intros H. inversion H. subst. now left.
  - intros H. right. auto.
Qed.

Lemma fallbackData_named :
  Forall (fun kv => base_name (snd kv) <> EmptyString
                    /\ (0 < base_price (snd kv))%Q)
         fallbackData.
Proof.
  unfold fallbackData.
  repeat (constructor; [split; [discriminate | reflexivity]|]).
  constructor.
Qed.

Lemma appended_nonempty (a b : string) :
  b <> EmptyString -> a ++ b <> EmptyString.
Proof. destruct a; simpl; [auto | discriminate]. Qed.

Lemma getFallbackStockData_named (rt : runtime) (n : nat) (symbol : string) :
  sd_name (fst (getFallbackStockData rt n symbol)) <> EmptyString.
Proof.
  unfold getFallbackStockData.
  destruct (lookup_quote (toUpperCase symbol) fallbackData) as [q|] eqn:E;
    simpl.
  - apply lookup_quote_In in E.
    pose proof (proj1 (Forall_forall _ _) fallbackData_named _ E) as [H _].
    exact H.
  - apply appended_nonempty. discriminate.
Qed.

(** X13. On ASCII text the fallback stock data looks only at the
    upper-case form of the symbol: two ASCII spellings of a symbol give
    the same record, the name included.  The record carries the
    upper-case form of the symbol and a name that is not empty; and the
    call reads one random number for a symbol of the table and two for
    any other. *)
Theorem fallback_stock_data_ignores_case (rt : runtime) (n : nat)
    (symbol : string) :
  (forall other,
     ascii_text symbol = true -> ascii_text other = true ->
     toUpperCase other = toUpperCase symbol ->
     getFallbackStockData rt n other = getFallbackStockData rt n symbol)
  /\ sd_symbol (fst (getFallbackStockData rt n symbol)) = toUpperCase symbol
  /\ sd_name (fst (getFallbackStockData rt n symbol)) <> EmptyString
  /\ snd (getFallbackStockData rt n symbol)
     = match lookup_quote (toUpperCase symbol) fallbackData with
       | Some _ => S n
       | None => S (S n)
       end.
Proof.
  split; [|split; [|split]].
  - intros other _ _ H. unfold getFallbackStockData. rewrite H.
    destruct (lookup_quote (toUpperCase symbol) fallbackData);
      [reflexivity|].
    rewrite <- (capitalize_of_upper other), H, capitalize_of_upper.
    reflexivity.
  - unfold getFallbackStockData.
    destruct (lookup_quote (toUpperCase symbol) fallbackData); reflexivity.
  - apply getFallbackStockData_named.
  - unfold getFallbackStockData.
    destruct (lookup_quote (toUpperCase symbol) fallbackData); reflexivity.
Qed.

(** ** Rounding to cents *)

Lemma cents (z : Z) : (z # 100 == inject_Z z * (1 # 100))%Q.
Proof. unfold Qeq, inject_Z. simpl. lia. Qed.

Lemma floor_bounds (y : Q) :
  (inject_Z (Qfloor y) <= y /\ y < inject_Z (Qfloor y) + 1)%Q.
Proof.
  split; [apply Qfloor_le|].
  pose proof (Qlt_floor y) as H. rewrite inject_Z_plus in H. exact H.
Qed.

Lemma toFixed2_near (x : Q) :
  (x - (1 # 200) <= toFixed2 x /\ toFixed2 x <= x + (1 # 200))%Q.
Proof.
  unfold toFixed2. destruct (Qle_bool 0 x).
  - rewrite cents.
    destruct (floor_bounds (x * 100 + (1 # 2))) as [H1 H2].
    split; lra.
  - rewrite cents, inject_Z_opp.
    destruct (floor_bounds (- x * 100 + (1 # 2))) as [H1 H2].
    split; lra.
Qed.

Lemma toFixed2_le (x y : Q) : (x <= y)%Q -> (toFixed2 x <= toFixed2 y)%Q.
Proof.
  intros H. unfold toFixed2.
  set (fx := Qfloor (x * 100 + (1 # 2))).
  set (fy := Qfloor (y * 100 + (1 # 2))).
  set (gx := Qfloor (- x * 100 + (1 # 2))).
  set (gy := Qfloor (- y * 100 + (1 # 2))).
  destruct (Qle_bool 0 x) eqn:Ex; destruct (Qle_bool 0 y) eqn:Ey;
    rewrite ?(cents fx), ?(cents fy), ?(cents (- gx)), ?(cents (- gy)),
      ?inject_Z_opp.
  - assert (F : (fx <= fy)%Z) by (apply Qfloor_resp_le; lra).
    rewrite Zle_Qle in F. lra.
  - apply Qle_bool_iff in Ex.
    assert (N : ~ (0 <= y)%Q) by (rewrite <- Qle_bool_iff; congruence).
    lra.
  - assert (N : ~ (0 <= x)%Q) by (rewrite <- Qle_bool_iff; congruence).
    apply Qle_bool_iff in Ey.
    assert (F : (0 <= gx)%Z).
    { change 0%Z with (Qfloor 0). apply Qfloor_resp_le. lra. }
    assert (G : (0 <= fy)%Z).
    { change 0%Z with (Qfloor 0). apply Qfloor_resp_le. lra. }
    rewrite Zle_Qle in F, G.
    change (inject_Z 0) with 0%Q in F, G. lra.
  - assert (F : (gy <= gx)%Z) by (apply Qfloor_resp_le; lra).
    rewrite Zle_Qle in F. lra.
Qed.

(** X14. With [Math.random()] in the unit interval, the fallback data for
    a symbol outside the table has a price from 500 to 3500 and a change
    from -3 to 3 percent; for a symbol of the table the price is within
    one percent of the table's price, up to the rounding to cents. *)
Theorem fallback_prices_stay_in_range (rt : runtime) (n : nat)
    (symbol : string) :
  unit_interval rt ->
  let stockData := fst (getFallbackStockData rt n symbol) in
  match lookup_quote (toUpperCase symbol) fallbackData with
  | None =>
      (500 <= sd_price stockData /\ sd_price stockData <= 3500)%Q
      /\ (-3 <= sd_changePercent stockData
          /\ sd_changePercent stockData <= 3)%Q
  | Some baseData =>
      (base_price baseData * (99 # 100) - (1 # 200) <= sd_price stockData
       /\ sd_price stockData
          <= base_price baseData * (101 # 100) + (1 # 200))%Q
  end.
Proof.
  intros U. unfold getFallbackStockData.
  destruct (lookup_quote (toUpperCase symbol) fallbackData) as [q|] eqn:E;
    cbn [fst sd_price sd_changePercent].
  - apply lookup_quote_In in E.
    pose proof (proj1 (Forall_forall _ _) fallbackData_named _ E) as [_ P].
    cbn [snd] in P. destruct (U n) as [R0 R1].
    set (v := ((random rt n - (1 # 2)) * (2 # 100))%Q).
    assert (V : (- (1 # 100) <= v /\ v <= 1 # 100)%Q)
      by (subst v; split; lra).
    destruct (toFixed2_near (base_price q * (1 + v))) as [N1 N2].
    destruct V as [V1 V2].
    assert (M1 : (base_price q * (99 # 100) <= base_price q * (1 + v))%Q).
    { setoid_replace (base_price q * (1 + v))%Q
        with (base_price q * (99 # 100)
              + base_price q * (v + (1 # 100)))%Q by ring.
      assert (0 <= base_price q * (v + (1 # 100)))%Q
        by (apply Qmult_le_0_compat; lra).
      lra. }
    assert (M2 : (base_price q * (1 + v) <= base_price q * (101 # 100))%Q).
    { setoid_replace (base_price q * (101 # 100))%Q
        with (base_price q * (1 + v)
              + base_price q * ((1 # 100) - v))%Q by ring.
      assert (0 <= base_price q * ((1 # 100) - v))%Q
        by (apply Qmult_le_0_compat; lra).
      lra. }
    split; lra.
  - destruct (U n) as [R0 R1]. destruct (U (S n)) as [S0 S1].
    split; split.
    + apply Qle_trans with (toFixed2 500); [vm_compute; discriminate|].
      apply toFixed2_le. lra.
    + apply Qle_trans with (toFixed2 3500); [apply toFixed2_le; lra|].
      vm_compute. discriminate.
    + apply Qle_trans with (toFixed2 (-3)); [vm_compute; discriminate|].
      apply toFixed2_le. lra.
    + apply Qle_trans with (toFixed2 3); [apply toFixed2_le; lra|].
      vm_compute. discriminate.
Qed.

(** ** The list *)

Lemma insert_by_symbol_perm (row : Portfolio) (rows : list Portfolio) :
  Permutation (insert_by_symbol row rows) (row :: rows).
Proof.
  induction rows as [|r rows IH]; simpl; [auto|].
  destruct (String.leb (pf_symbol row) (pf_symbol r)); [auto|].
  rewrite IH. apply perm_swap.
Qed.

Lemma insert_by_symbol_sorted (row : Portfolio) (rows : list Portfolio) :
  Sorted by_symbol rows -> Sorted by_symbol (insert_by_symbol row rows).
Proof.
  induction rows as [|r rows IH]; simpl; intros S.
  - repeat constructor.
  - destruct (String.leb (pf_symbol row) (pf_symbol r)) eqn:E.
    + constructor; auto.
    + inversion S as [|? ? S' H]; subst.
      assert (R : by_symbol r row).
      { unfold by_symbol.
        destruct (String.leb_total (pf_symbol r) (pf_symbol row)); congruence. }
      constructor; auto.
      destruct rows as [|r' rows]; simpl.
      * now constructor.
      * inversion H; subst.
        destruct (String.leb (pf_symbol row) (pf_symbol r')); now constructor.
Qed.

Lemma Portfolio_findAll_spec (userId : Z) (db : database) :
  Permutation (Portfolio_findAll userId db)
              (filter (owned_by userId) (Portfolios db))
  /\ Sorted by_symbol (Portfolio_findAll userId db).
Proof.
  unfold Portfolio_findAll.
  change (fun r => (pf_userId r =? userId)%Z) with (owned_by userId).
  induction (filter (owned_by userId) (Portfolios db)) as [|r l [IH1 IH2]];
    simpl.
  - split; constructor.
  - split.
    + rewrite insert_by_symbol_perm. now constructor.
    + now apply insert_by_symbol_sorted.
Qed.

Section Listing.

Context {TP : ThirdParty}.

Variable env : environment.

Lemma enhance_describes (rt : runtime) (n : nat) (row : Portfolio) :
  describes row (fst (enhance env rt n row)).
Proof.
  unfold enhance. rewrite fetchStockDataForBackend_fallback.
  destruct (getFallbackStockData rt n (pf_symbol row)) as [stockData n']
    eqn:E.
  unfold describes. cbn.
  repeat split.
  pose proof (getFallbackStockData_named rt n (pf_symbol row)) as N.
  rewrite E in N. cbn [fst] in N.
  eexists. split; [reflexivity|].
  destruct (sd_name stockData); [congruence | discriminate].
Qed.

Lemma enhanceAll_describes (rt : runtime) (rows : list Portfolio) (n : nat) :
  Forall2 describes rows (enhanceAll env rt n rows).
Proof.
  revert n. induction rows as [|row rows IH]; intros n; simpl.
  - constructor.
  - pose proof (enhance_describes rt n row) as D.
    destruct (enhance env rt n row) as [item n']. now constructor.
Qed.

(** X4. The list route, for a request that passes the middleware, is
    answered 200 with one item for each row the user owns and none for a
    row of another user; the items follow the rows in ascending order of
    the symbol; each item repeats the id, symbol, quantity and purchase
    price of its row, has no [userId] and has a name that is not empty;
    the database is unchanged. *)
Theorem portfolio_lists_own_rows_by_symbol (rt : runtime) (h : headers)
    (user : claims) (db : database) :
  authenticated env rt h user ->
  exists rows items,
    app env rt (GetPortfolio h) db
    = ({| status := 200; body := JObj [("portfolio", JArr items)] |}, db)
    /\ Permutation rows (filter (owned_by (claim_id user)) (Portfolios db))
    /\ Sorted by_symbol rows
    /\ Forall2 describes rows items.
Proof.
  intros A. exists (Portfolio_findAll (claim_id user) db).
  exists (enhanceAll env rt 0 (Portfolio_findAll (claim_id user) db)).
  simpl. unfold protected. unfold authenticated in A. rewrite A.
  split; [reflexivity|].
  destruct (Portfolio_findAll_spec (claim_id user) db) as [P S].
  repeat split; auto. apply enhanceAll_describes.
Qed.

End Listing.

End ListingFacts.

(* ===================================================================== *)
(** * Results about the news pipeline                                     *)
(* ===================================================================== *)

Module PipelineFacts.

Import Js JsFacts News NewsSpec NewsMore Fixtures.
Import NewsCacheFacts FallbackFacts.
Import ListingFacts.

(** ** Deduplication *)

Lemma findIndex_seen {A : Type} (p : A -> bool) (pre rest : list A) :
  existsb p pre = true ->
  exists j, findIndex p (pre ++ rest)%list = Some j /\ (j < List.length pre)%nat.
Proof.
  induction pre as [|x pre IH]; simpl; [discriminate|].
  destruct (p x); simpl.
  - intros _. exists O. split; [reflexivity | lia].
  - intros H. destruct (IH H) as [j [E L]]. rewrite E.
    exists (S j). split; [reflexivity | lia].
Qed.

Lemma findIndex_new {A : Type} (p : A -> bool) (pre rest : list A) (x : A) :
  existsb p pre = false -> p x = true ->
  findIndex p (pre ++ x :: rest)%list = Some (List.length pre).
Proof.
  induction pre as [|y pre IH]; simpl; intros H Hx.
  - now rewrite Hx.
  - apply orb_false_iff in H. destruct H as [Hy H].
    rewrite Hy, (IH H Hx). reflexivity.
Qed.

Lemma firstAt_isNew (pre rest : list article) (a : article) :
  firstAt (pre ++ a :: rest)%list (List.length pre, a) = isNew pre a.
Proof.
  unfold firstAt, isNew. cbn [fst snd].
  destruct (existsb (fun existing => String.eqb (art_uuid existing) (art_uuid a))
                    pre) eqn:E.
  - destruct (findIndex_seen _ pre (a :: rest) E) as [j [F L]].
    rewrite F. simpl. apply Nat.eqb_neq. lia.
  - rewrite (findIndex_new _ pre rest a E (String.eqb_refl _)).
    simpl. apply Nat.eqb_refl.
Qed.

Lemma uniqueArticles_from (pre rest : list article) :
  map snd (filter (firstAt (pre ++ rest)%list)
                  (combine (seq (List.length pre) (List.length rest)) rest))
  = keepFirst pre rest.
Proof.
  revert pre. induction rest as [|a rest IH]; intros pre; [reflexivity|].
  cbn [List.length seq combine filter keepFirst].
  rewrite firstAt_isNew.
  specialize (IH (pre ++ [a])%list).
  rewrite <- app_assoc, length_app in IH. cbn [List.length app] in IH.
  rewrite Nat.add_1_r in IH.
  destruct (isNew pre a); cbn [map snd]; now rewrite IH.
Qed.

Lemma uniqueArticles_keepFirst (allArticles : list article) :
  uniqueArticles allArticles = keepFirst [] allArticles.
Proof. exact (uniqueArticles_from [] allArticles). Qed.

Lemma isNew_snoc (seen : list article) (a b : article) :
  isNew (seen ++ [a])%list b = true ->
  isNew seen b = true /\ art_uuid a <> art_uuid b.
Proof.
  unfold isNew. rewrite existsb_app. simpl. rewrite orb_false_r.
  rewrite negb_true_iff, orb_false_iff, String.eqb_neq.
  intros [H1 H2]. now rewrite H1.
Qed.

Lemma keepFirst_In (l seen : list article) (a : article) :
  In a (keepFirst seen l) -> In a l /\ isNew seen a = true.
Proof.
  revert seen. induction l as [|b l IH]; intros seen; simpl; [tauto|].
  destruct (isNew seen b) eqn:E.
  - intros [<- | H]; [auto|].
    apply IH in H. destruct H as [H1 H2]. apply isNew_snoc in H2. tauto.
  - intros H. apply IH in H. destruct H as [H1 H2].
    apply isNew_snoc in H2. tauto.
Qed.

Lemma keepFirst_distinct (l seen : list article) :
  NoDup (map art_uuid (keepFirst seen l)).
Proof.
  revert seen. induction l as [|b l IH]; intros seen; simpl; [constructor|].
  destruct (isNew seen b); [|apply IH].
  simpl. constructor; [|apply IH].
  intros H. apply in_map_iff in H. destruct H as [a [E H]].
  apply keepFirst_In in H. destruct H as [_ H].
  apply isNew_snoc in H. destruct H as [_ H]. congruence.
Qed.

Lemma keepFirst_find (u : string) (l seen : list article) :
  existsb (has_uuid u) seen = false ->
  find (has_uuid u) (keepFirst seen l) = find (has_uuid u) l.
Proof.
  revert seen. induction l as [|b l IH]; intros seen Hs; simpl;
    [reflexivity|].
  assert (Hnext : has_uuid u b = false ->
                  existsb (has_uuid u) (seen ++ [b])%list = false).
  { intros Hb. rewrite existsb_app, Hs. simpl. now rewrite Hb. }
  destruct (has_uuid u b) eqn:Hb.
  - unfold has_uuid in Hb. apply String.eqb_eq in Hb.
    assert (N : isNew seen b = true).
    { unfold isNew. rewrite Hb. unfold has_uuid in Hs. now rewrite Hs. }
    rewrite N. simpl. unfold has_uuid at 1.
    now rewrite Hb, String.eqb_refl.
  - destruct (isNew seen b); simpl; rewrite ?Hb; apply IH; auto.
Qed.

Lemma keepFirst_all (l seen : list article) :
  NoDup (map art_uuid l) ->
  (forall a, In a l -> isNew seen a = true) ->
  keepFirst seen l = l.
Proof.
  revert seen. induction l as [|b l IH]; intros seen Hn Hs; simpl;
    [reflexivity|].
  rewrite (Hs b (or_introl eq_refl)). f_equal.
  inversion Hn as [|? ? Hb Hl]; subst. apply IH; auto.
  intros a Ha. unfold isNew. rewrite existsb_app. simpl.
  rewrite orb_false_r.
  specialize (Hs a (or_intror Ha)). unfold isNew in Hs.
  apply negb_true_iff in Hs. rewrite Hs. simpl.
  apply negb_true_iff, String.eqb_neq. intros E. apply Hb.
  rewrite E. now apply in_map.
Qed.

(** X15. [uniqueArticles] keeps the first article of each uuid and nothing
    else: the uuids of the result are distinct, looking up a uuid in the
    result finds the article that a lookup in the input finds, every
    article of the result is one of the input, a list whose uuids are
    distinct is returned as it is, and so the function is idempotent. *)
Theorem uniqueArticles_keeps_first_occurrences (allArticles : list article) :
  NoDup (map art_uuid (uniqueArticles allArticles))
  /\ (forall u, find (has_uuid u) (uniqueArticles allArticles)
                = find (has_uuid u) allArticles)
  /\ (forall a, In a (uniqueArticles allArticles) -> In a allArticles)
  /\ (NoDup (map art_uuid allArticles) ->
      uniqueArticles allArticles = allArticles)
  /\ uniqueArticles (uniqueArticles allArticles) = uniqueArticles allArticles.
Proof.
  rewrite !uniqueArticles_keepFirst.
  split; [apply keepFirst_distinct|].
  split; [intros u; now apply keepFirst_find|].
  split; [intros a H; now apply (keepFirst_In allArticles [])|].
  split; [intros H; now apply keepFirst_all|].
  apply keepFirst_all; [apply keepFirst_distinct | reflexivity].
Qed.

(** ** Selection *)

Lemma firstn_In {A : Type} (n : nat) (l : list A) (x : A) :
  In x (firstn n l) -> In x l.
Proof.
  intros H. rewrite <- (firstn_skipn n l). apply in_or_app. now left.
Qed.

Lemma filter_length_le {A : Type} (p : A -> bool) (l : list A) :
  (List.length (filter p l) <= List.length l)%nat.
Proof.
  induction l as [|a l IH]; simpl; [lia|].
  destruct (p a); simpl; lia.
Qed.

(** X16. What [selectNews] lets through.  Every item the relevance filter
    keeps is in the result, and every item of the result comes from the
    input.  When ten or more items pass the filter, the result is exactly
    those.  When fewer pass, the result has at most 15 items, and an item
    that did not pass is there only if it is not completely irrelevant. *)
Theorem selectNews_pads_up_to_fifteen (newsItems : list NewsItem) :
  let total := List.length newsItems in
  let marketRelevantNews := filter (keepsItem total) newsItems in
  (forall item, In item newsItems -> keepsItem total item = true ->
                In item (selectNews newsItems))
  /\ (forall item, In item (selectNews newsItems) ->
        In item newsItems
        /\ (keepsItem total item = true
            \/ isCompletelyIrrelevant (item_headline item)
                 (item_summary item) = false))
  /\ ((10 <= List.length marketRelevantNews)%nat ->
      selectNews newsItems = marketRelevantNews)
  /\ ((List.length marketRelevantNews < 10)%nat ->
      (List.length (selectNews newsItems) <= 15)%nat
      /\ firstn (List.length marketRelevantNews) (selectNews newsItems)
         = marketRelevantNews).
Proof.
  intros total marketRelevantNews. unfold selectNews. fold total.
  fold marketRelevantNews.
  destruct (List.length marketRelevantNews <? 10)%nat eqn:E.
  - apply Nat.ltb_lt in E. repeat split.
    + intros item Hin Hk. apply in_or_app. left. apply filter_In. auto.
    + apply in_app_or in H. destruct H as [H | H].
      * apply filter_In in H. tauto.
      * apply firstn_In in H. apply filter_In in H. destruct H as [H _].
        apply filter_In in H. tauto.
    + apply in_app_or in H. destruct H as [H | H].
      * apply filter_In in H. tauto.
      * apply firstn_In in H. apply filter_In in H. destruct H as [_ H].
        right. now apply negb_true_iff.
    + lia.
    + rewrite length_app.
      pose proof (firstn_le_length (15 - List.length marketRelevantNews)
        (filter (fun item => negb (isCompletelyIrrelevant (item_headline item)
                                     (item_summary item)))
           (filter (fun item => negb (keepsItem total item)) newsItems))).
      lia.
    + rewrite firstn_app, Nat.sub_diag, firstn_O, app_nil_r.
      apply firstn_all.
  - apply Nat.ltb_ge in E. repeat split.
    + intros item Hin Hk. apply filter_In. auto.
    + apply filter_In in H. tauto.
    + apply filter_In in H. tauto.
    + lia.
    + lia.
Qed.

(** ** Sorting *)

Lemma insertNews_perm (x : NewsItem) (l : list NewsItem) :
  Permutation (insertNews x l) (x :: l).
Proof.
  induction l as [|y l IH]; simpl; [auto|].
  destruct (compareNews x y <=? 0)%Z; [auto|].
  rewrite IH. apply perm_swap.
Qed.

Lemma sortNews_perm (l : list NewsItem) : Permutation (sortNews l) l.
Proof.
  induction l as [|x l IH]; simpl; [auto|].
  unfold sortNews in *. simpl. rewrite insertNews_perm. now constructor.
Qed.

(** On items that carry a time and a consistent flag, the comparator is
    the comparison of the times. *)
Lemma compareNews_timed (w : world) (a b : NewsItem) :
  timed w a -> timed w b ->
  ((compareNews a b <= 0)%Z <-> newest_first a b).
Proof.
  intros [ta [Ea [_ Ra]]] [tb [Eb [_ Rb]]].
  unfold compareNews, newest_first. rewrite Ea, Eb, Ra, Rb.
  destruct (now w - day_ms <=? ta)%Z eqn:Ca;
    destruct (now w - day_ms <=? tb)%Z eqn:Cb; simpl;
    rewrite ?Z.leb_le, ?Z.leb_gt in *.
  - split.
    + intros H. exists ta, tb. repeat split. lia.
    + intros [ta' [tb' [E1 [E2 H]]]]. inversion E1; inversion E2. lia.
  - split.
    + intros _. exists ta, tb. repeat split. lia.
    + lia.
  - split.
    + lia.
    + intros [ta' [tb' [E1 [E2 H]]]]. inversion E1; inversion E2. lia.
  - split.
    + intros H. exists ta, tb. repeat split. lia.
    + intros [ta' [tb' [E1 [E2 H]]]]. inversion E1; inversion E2. lia.
Qed.

Lemma newest_first_trans (a b c : NewsItem) :
  newest_first a b -> newest_first b c -> newest_first a c.
Proof.
  intros [ta [tb [E1 [E2 H]]]] [tb' [tc [E3 [E4 H']]]].
  rewrite E2 in E3. inversion E3; subst.
  exists ta, tc. repeat split; auto. lia.
Qed.

Lemma newest_first_total (w : world) (a b : NewsItem) :
  timed w a -> timed w b -> newest_first a b \/ newest_first b a.
Proof.
  intros [ta [Ea _]] [tb [Eb _]]. unfold newest_first.
  destruct (Z.le_ge_cases ta tb); [right | left];
    eexists; eexists; repeat split; eauto.
Qed.

Lemma insertNews_sorted (w : world) (x : NewsItem) (l : list NewsItem) :
  timed w x -> Forall (timed w) l ->
  StronglySorted newest_first l ->
  StronglySorted newest_first (insertNews x l).
Proof.
  intros Tx. induction l as [|y l IH]; simpl; intros Tl S.
  - repeat constructor.
  - inversion Tl as [|? ? Ty Tl']; subst.
    inversion S as [|? ? S' Hy]; subst.
    destruct (compareNews x y <=? 0)%Z eqn:E.
    + apply Z.leb_le in E. apply (compareNews_timed w) in E; auto.
      constructor; auto. constructor; auto.
      apply Forall_impl with (2 := Hy).
      intros c. now apply newest_first_trans.
    + apply Z.leb_gt in E.
      assert (R : newest_first y x).
      { destruct (newest_first_total w x y Tx Ty) as [H|H]; auto.
        apply (compareNews_timed w) in H; auto. lia. }
      constructor; auto.
      apply Forall_forall. intros c Hc.
      apply (Permutation_in _ (insertNews_perm x l)) in Hc.
      destruct Hc as [<- | Hc]; auto.
      exact (proj1 (Forall_forall _ _) Hy c Hc).
Qed.

Lemma sortNews_sorted (w : world) (l : list NewsItem) :
  Forall (timed w) l -> StronglySorted newest_first (sortNews l).
Proof.
  induction l as [|x l IH]; intros T; [constructor|].
  inversion T; subst. unfold sortNews in *. simpl.
  apply (insertNews_sorted w); auto.
  apply Forall_forall. intros c Hc.
  apply (Permutation_in _ (sortNews_perm l)) in Hc.
  exact (proj1 (Forall_forall _ _) H2 c Hc).
Qed.

(** ** What the provider's articles become *)

Lemma selectNews_In (newsItems : list NewsItem) (item : NewsItem) :
  In item (selectNews newsItems) -> In item newsItems.
Proof.
  unfold selectNews.
  destruct (_ <? 10)%nat; intros H.
  - apply in_app_or in H. destruct H as [H | H].
    + apply filter_In in H. tauto.
    + apply firstn_In in H. apply filter_In in H. destruct H as [H _].
      apply filter_In in H. tauto.
  - apply filter_In in H. tauto.
Qed.

Lemma firstn_distinct {A : Type} (n : nat) (l : list A) :
  NoDup l -> NoDup (firstn n l).
Proof.
  intros H. rewrite <- (firstn_skipn n l) in H.
  now apply NoDup_app_remove_r in H.
Qed.

Lemma selectNews_distinct (newsItems : list NewsItem) :
  NoDup newsItems -> NoDup (selectNews newsItems).
Proof.
  intros H. unfold selectNews.
  destruct (_ <? 10)%nat; [|now apply NoDup_filter].
  apply NoDup_app.
  - now apply NoDup_filter.
  - apply firstn_distinct. now repeat apply NoDup_filter.
  - intros item H1 H2. apply filter_In in H1. destruct H1 as [_ H1].
    apply firstn_In in H2. apply filter_In in H2. destruct H2 as [H2 _].
    apply filter_In in H2. destruct H2 as [_ H2].
    rewrite H1 in H2. discriminate.
Qed.

Lemma ids_distinct (l l' : list NewsItem) :
  NoDup (map item_id l) -> NoDup l' ->
  (forall item, In item l' -> In item l) ->
  NoDup (map item_id l').
Proof.
  intros Hl. induction l' as [|a l' IH]; simpl; intros Hn Hsub;
    [constructor|].
  inversion Hn as [|? ? Ha Hn']; subst. constructor; auto.
  intros H. apply in_map_iff in H. destruct H as [b [E Hb]].
  apply Ha.
  assert (b = a); [|now subst].
  revert E. generalize (Hsub a (or_introl eq_refl)) (Hsub b (or_intror Hb)).
  clear - Hl. induction l as [|c l IHl]; simpl; [tauto|].
  inversion Hl as [|? ? Hc Hl']; subst.
  intros [-> | Ha] [-> | Hb] E; auto.
  - exfalso. apply Hc. rewrite <- E. now apply in_map.
  - exfalso. apply Hc. rewrite E. now apply in_map.
Qed.

Lemma recent_ids_distinct (w : world) (bound : Z) (l : list article) :
  NoDup (map art_uuid l) ->
  NoDup (map item_id
           (map (toNewsItem w)
              (filter (fun a => time_ge (art_published_at a) bound) l))).
Proof.
  rewrite map_map. cbn [toNewsItem item_id].
  induction l as [|a l IH]; simpl; intros H; [constructor|].
  inversion H as [|? ? Ha Hl]; subst.
  destruct (time_ge (art_published_at a) bound); auto.
  simpl. constructor; auto.
  intros Hin. apply Ha. apply in_map_iff in Hin.
  destruct Hin as [b [E Hb]]. apply filter_In in Hb.
  rewrite <- E. apply in_map. tauto.
Qed.

Lemma toNewsItem_timed (w : world) (a : article) :
  time_ge (art_published_at a) (now w - 3 * day_ms) = true ->
  timed w (toNewsItem w a).
Proof.
  unfold timed, time_ge. cbn [toNewsItem item_timestamp item_isRecent].
  destruct (art_published_at a) as [t|]; [|discriminate].
  intros H. apply Z.leb_le in H. exists t. auto.
Qed.

Lemma processArticles_clean (w : world) (allArticles : list article) :
  NoDup (map item_id (processArticles w allArticles))
  /\ Forall (timed w) (processArticles w allArticles)
  /\ StronglySorted newest_first (processArticles w allArticles)
  /\ (forall item, In item (processArticles w allArticles) ->
        exists a, In a allArticles /\ item = toNewsItem w a).
Proof.
  unfold processArticles.
  set (recentArticles :=
         filter (fun a => time_ge (art_published_at a) (now w - 3 * day_ms))
                (uniqueArticles allArticles)).
  set (newsItems := map (toNewsItem w) recentArticles).
  assert (D : NoDup (map item_id newsItems)).
  { apply recent_ids_distinct. rewrite uniqueArticles_keepFirst.
    apply keepFirst_distinct. }
  assert (O : forall item, In item newsItems ->
                exists a, In a allArticles /\ item = toNewsItem w a
                          /\ timed w item).
  { intros item H. apply in_map_iff in H. destruct H as [a [E H]].
    apply filter_In in H. destruct H as [H T].
    rewrite uniqueArticles_keepFirst in H. apply keepFirst_In in H.
    exists a. subst item. repeat split; [tauto|]. now apply toNewsItem_timed. }
  assert (T : Forall (timed w) (selectNews newsItems)).
  { apply Forall_forall. intros item H. apply selectNews_In in H.
    destruct (O item H) as [a [_ [_ Ht]]]. exact Ht. }
  split; [|split; [|split]].
  - apply (Permutation_NoDup (l := map item_id (selectNews newsItems))).
    + apply Permutation_map, Permutation_sym, sortNews_perm.
    + apply (ids_distinct newsItems); auto.
      * apply selectNews_distinct. now apply NoDup_map_inv in D.
      * apply selectNews_In.
  - apply Forall_forall. intros item H.
    apply (Permutation_in _ (sortNews_perm _)) in H.
    exact (proj1 (Forall_forall _ _) T item H).
  - now apply (sortNews_sorted w).
  - intros item H. apply (Permutation_in _ (sortNews_perm _)) in H.
    apply selectNews_In in H. destruct (O item H) as [a [H1 [H2 _]]].
    now exists a.
Qed.

Lemma fetchFresh_from_provider (w : world) (st : service_state) :
  served (fetchFresh w st) = FromProvider ->
  exists apiKey allArticles,
    getApiKey w = Returned apiKey
    /\ snd (collectArticles w apiKey) = Returned allArticles
    /\ items (fetchFresh w st) = processArticles w allArticles
    /\ processArticles w allArticles <> []
    /\ newsCache (state_after (fetchFresh w st))
       = Some {| cache_data := processArticles w allArticles;
                 cache_timestamp := now w |}
    /\ localStorage_newsCache (state_after (fetchFresh w st))
       = if storage_accepts w
         then LsEntry {| cache_data := processArticles w allArticles;
                         cache_timestamp := now w |}
         else localStorage_newsCache st.
Proof.
  unfold fetchFresh.
  destruct (getApiKey w) as [apiKey|]; [|discriminate].
  destruct (collectArticles w apiKey) as [sent [allArticles|]] eqn:C;
    [|discriminate].
  cbv zeta.
  destruct (List.length (processArticles w allArticles) =? 0)%nat eqn:E;
    [discriminate|].
  intros _. exists apiKey, allArticles.
  cbn [items state_after newsCache localStorage_newsCache].
  split; [reflexivity|]. split; [now rewrite C|]. split; [reflexivity|].
  split; [|split; reflexivity].
  intros H. rewrite H in E. discriminate.
Qed.

Lemma fetchNews_from_provider (w : world) (st : service_state) :
  served (fetchNews w st) = FromProvider ->
  fetchNews w st = fetchFresh w st.
Proof.
  unfold fetchNews. destruct (newsCache st) as [c|]; auto.
  destruct (unexpired w c); [discriminate | auto].
Qed.

(** X17. A list that comes from the provider is clean: it is not empty,
    its ids are distinct, every item carries a time within the last three
    days and is flagged recent exactly when that time is within the last 24
    hours, the items are in descending order of time, and each one is the
    news item of an article that a request returned. *)
Theorem provider_news_is_clean (w : world) (st : service_state) :
  served (fetchNews w st) = FromProvider ->
  items (fetchNews w st) <> []
  /\ NoDup (map item_id (items (fetchNews w st)))
  /\ Forall (timed w) (items (fetchNews w st))
  /\ StronglySorted newest_first (items (fetchNews w st))
  /\ exists apiKey allArticles,
       getApiKey w = Returned apiKey
       /\ snd (collectArticles w apiKey) = Returned allArticles
       /\ forall item, In item (items (fetchNews w st)) ->
            exists a, In a allArticles /\ item = toNewsItem w a.
Proof.
  intros H. pose proof (fetchNews_from_provider w st H) as F.
  rewrite F in H |- *.
  destruct (fetchFresh_from_provider w st H)
    as [apiKey [allArticles [K [C [I [N _]]]]]].
  rewrite I.
  destruct (processArticles_clean w allArticles) as [P1 [P2 [P3 P4]]].
  repeat split; auto.
  exists apiKey, allArticles. auto.
Qed.

(** X19. A second call within twenty minutes of a list taken from the
    provider is answered from the cache with the same list and sends no
    request, whatever the provider would say now; [getCachedNews] agrees;
    and when [localStorage] took the entry, a reload of the module within
    that time starts with the entry in memory. *)
Theorem second_fetch_is_served_from_cache (w w' : world)
    (st : service_state) :
  served (fetchNews w st) = FromProvider ->
  (now w' - now w < CACHE_DURATION)%Z ->
  let st' := state_after (fetchNews w st) in
  fetchNews w' st'
  = {| served := FromCache; items := items (fetchNews w st);
       requests := []; state_after := st' |}
  /\ getCachedNews w' st' = (items (fetchNews w st), st')
  /\ (storage_accepts w = true ->
      initCache w' (localStorage_newsCache st')
      = Some {| cache_data := items (fetchNews w st);
                cache_timestamp := now w |}).
Proof.
  intros H A. pose proof (fetchNews_from_provider w st H) as F.
  rewrite F in H |- *.
  destruct (fetchFresh_from_provider w st H)
    as [apiKey [allArticles [K [C [I [N [M L]]]]]]].
  cbv zeta. rewrite I.
  split; [|split].
  - now rewrite (fetchNews_hit w' _ _ M A).
  - now rewrite (getCachedNews_memory w' _ _ M A).
  - intros S. rewrite L, S. unfold initCache.
    assert (U : unexpired w' {| cache_data := processArticles w allArticles;
                                cache_timestamp := now w |} = true)
      by now apply unexpired_age.
    now rewrite U.
Qed.

(** X20. [clearNewsCache] empties the memory cache and leaves
    [localStorage] alone: the next [fetchNews] is never answered from the
    cache, while [getCachedNews] still returns the list of an unexpired
    [localStorage] entry and puts that entry back into memory. *)
Theorem clearNewsCache_keeps_localStorage (w : world) (st : service_state) :
  isCacheActive w (clearNewsCache st) = false
  /\ localStorage_newsCache (clearNewsCache st) = localStorage_newsCache st
  /\ fetchNews w (clearNewsCache st) = fetchFresh w (clearNewsCache st)
  /\ served (fetchNews w (clearNewsCache st)) <> FromCache
  /\ (forall e, localStorage_newsCache st = LsEntry e ->
        (age w e < CACHE_DURATION)%Z ->
        getCachedNews w (clearNewsCache st)
        = (cache_data e,
           {| newsCache := Some e;
              localStorage_newsCache := localStorage_newsCache st |}))
  /\ (~ stored_fresh w st -> fst (getCachedNews w (clearNewsCache st)) = []).
Proof.
  split; [reflexivity|]. split; [reflexivity|]. split; [reflexivity|].
  split; [apply fetchFresh_not_from_cache|]. split.
  - intros e L A. unfold getCachedNews. cbn [clearNewsCache newsCache].
    now rewrite (cachedInLocalStorage_fresh w (clearNewsCache st) e L A).
  - intros N. unfold getCachedNews. cbn [clearNewsCache newsCache].
    fold (clearNewsCache st).
    rewrite cachedInLocalStorage_none; [reflexivity|].
    intros [e [L A]]. apply N. now exists e.
Qed.

(** ** The requests of one run *)

Lemma keywordLoop_plan (w : world) (apiKey : string) (keywords : list string)
    (sent : list query) (allArticles : list article) :
  exists j,
    fst (keywordLoop w apiKey keywords sent allArticles)
    = (sent ++ map (keywordParams apiKey) (firstn j keywords))%list.
Proof.
  revert sent allArticles.
  induction keywords as [|keyword rest IH]; intros sent allArticles.
  - exists O. simpl. now rewrite app_nil_r.
  - cbn [keywordLoop].
    destruct (20 <=? List.length allArticles)%nat.
    + exists O. simpl. now rewrite app_nil_r.
    + destruct (fetchArticles w (keywordParams apiKey keyword)) as [data|].
      * destruct (IH (sent ++ [keywordParams apiKey keyword])%list
                     (allArticles
                      ++ firstn 5 (filter (isNew allArticles) data))%list)
          as [j E].
        exists (S j). rewrite E, <- app_assoc. reflexivity.
      * destruct (IH (sent ++ [keywordParams apiKey keyword])%list
                     allArticles) as [j E].
        exists (S j). rewrite E, <- app_assoc. reflexivity.
Qed.

Lemma strategy3_plan (w : world) (apiKey : string) (sent : list query)
    (allArticles : list article) :
  exists j,
    fst (strategy3 w apiKey sent allArticles)
    = (sent ++ map (keywordParams apiKey) (firstn j search_keywords))%list.
Proof.
  unfold strategy3. destruct (List.length allArticles <? 15)%nat.
  - apply keywordLoop_plan.
  - exists O. simpl. now rewrite app_nil_r.
Qed.

Lemma collectArticles_plan (w : world) (apiKey : string) :
  exists india j,
    fst (collectArticles w apiKey) = request_plan apiKey india j
    /\ (india = true ->
        exists data, fetchArticles w (globalParams apiKey) = Returned data
                     /\ (List.length data < 10)%nat).
Proof.
  unfold collectArticles, request_plan.
  destruct (fetchArticles w (globalParams apiKey)) as [data1|] eqn:F1.
  - destruct (List.length data1 <? 10)%nat eqn:L.
    + destruct (fetchArticles w (indiaParams apiKey)) as [data2|].
      * destruct (strategy3_plan w apiKey
                    [globalParams apiKey; indiaParams apiKey]
                    (data1 ++ filter (isNew data1) data2)%list) as [j E].
        destruct (strategy3 _ _ _ _) as [sent allArticles].
        exists true, j. split; [exact E|].
        intros _. exists data1. apply Nat.ltb_lt in L. auto.
      * exists true, O. split; [reflexivity|].
        intros _. exists data1. apply Nat.ltb_lt in L. auto.
    + destruct (strategy3_plan w apiKey [globalParams apiKey] data1)
        as [j E].
      destruct (strategy3 _ _ _ _) as [sent allArticles].
      exists false, j. split; [exact E | discriminate].
  - exists false, O. split; [reflexivity | discriminate].
Qed.

Lemma request_plan_length (apiKey : string) (india : bool) (j : nat) :
  (List.length (request_plan apiKey india j) <= 7)%nat.
Proof.
  unfold request_plan. cbn [List.length]. rewrite length_app, length_map.
  pose proof (firstn_le_length j search_keywords) as H1.
  pose proof (length_firstn j search_keywords) as H2.
  change (List.length search_keywords) with 5%nat in H2.
  destruct india; simpl; lia.
Qed.

Lemma request_plan_distinct (apiKey : string) (india : bool) (j : nat) :
  NoDup (request_plan apiKey india j).
Proof.
  assert (K : NoDup (map (keywordParams apiKey) (firstn j search_keywords))).
  { assert (D : NoDup (firstn j search_keywords)).
    { apply firstn_distinct. unfold search_keywords.
      repeat (constructor; [simpl; intuition discriminate|]). constructor. }
    induction D as [|k l Hk D IH]; simpl; constructor; auto.
    intros H. apply in_map_iff in H. destruct H as [k' [E H]].
    inversion E. congruence. }
  assert (S : forall r, In r (map (keywordParams apiKey)
                                  (firstn j search_keywords)) ->
                        req_search r <> None).
  { intros r H. apply in_map_iff in H. destruct H as [k [<- _]].
    discriminate. }
  unfold request_plan. destruct india; simpl.
  - constructor.
    + intros [H | H]; [discriminate|]. now apply S in H.
    + constructor; auto. intros H. now apply S in H.
  - constructor; auto. intros H. now apply S in H.
Qed.

(** X18. The requests of one call of [fetchNews]: none, exactly when the
    cache answers or the key is missing; otherwise the global request
    first, then the India request or not, then keyword searches in the
    order of the keyword list.  So at most seven requests are sent, none
    twice, each with the configured key, and the India request only after
    the global one returned fewer than ten articles. *)
Theorem fetchNews_sends_a_bounded_plan (w : world) (st : service_state) :
  (requests (fetchNews w st) = []
   \/ exists apiKey india j,
        getApiKey w = Returned apiKey
        /\ requests (fetchNews w st) = request_plan apiKey india j
        /\ (india = true ->
            exists data, fetchArticles w (globalParams apiKey) = Returned data
                         /\ (List.length data < 10)%nat))
  /\ (List.length (requests (fetchNews w st)) <= 7)%nat
  /\ NoDup (requests (fetchNews w st))
  /\ (forall r, In r (requests (fetchNews w st)) ->
        getApiKey w = Returned (req_api_token r))
  /\ (requests (fetchNews w st) = []
      <-> memory_fresh w st \/ getApiKey w = Thrown).
Proof.
  assert (C : requests (fetchNews w st) = []
              <-> memory_fresh w st \/ getApiKey w = Thrown).
  { destruct (isCacheActive w st) eqn:A.
    - apply isCacheActive_fresh in A. split; [auto|]. intros _.
      destruct A as [c [Hc Ha]]. now rewrite (fetchNews_hit w st c Hc Ha).
    - rewrite (fetchNews_miss w st A).
      assert (NF : ~ memory_fresh w st).
      { intros F. apply isCacheActive_fresh in F. congruence. }
      destruct (getApiKey w) as [apiKey|] eqn:K.
      + split.
        * intros E. exfalso.
          destruct (collectArticles_plan w apiKey) as [india [j [P _]]].
          unfold fetchFresh in E. rewrite K in E.
          destruct (collectArticles w apiKey) as [sent [allArticles|]];
            cbn [fst] in P; subst sent; cbv zeta in E;
            try destruct (List.length (processArticles w allArticles)
                          =? 0)%nat;
            discriminate E.
        * intros [F | T]; [contradiction | discriminate].
      + split; [auto|]. intros _. now rewrite (fetchFresh_no_key w st K). }
  assert (G : requests (fetchNews w st) = []
              \/ exists apiKey india j,
                   getApiKey w = Returned apiKey
                   /\ requests (fetchNews w st) = request_plan apiKey india j
                   /\ (india = true ->
                       exists data,
                         fetchArticles w (globalParams apiKey) = Returned data
                         /\ (List.length data < 10)%nat)).
  { unfold fetchNews.
    destruct (newsCache st) as [c|]; [destruct (unexpired w c)|];
      try (left; reflexivity);
      unfold fetchFresh;
      (destruct (getApiKey w) as [apiKey|]; [|left; reflexivity]);
      destruct (collectArticles_plan w apiKey) as [india [j [E H]]];
      right; exists apiKey, india, j;
      (split; [reflexivity|]); (split; [|exact H]);
      destruct (collectArticles w apiKey) as [sent [allArticles|]];
      cbn [fst] in E; subst sent; cbv zeta;
      try destruct (List.length (processArticles w allArticles) =? 0)%nat;
      reflexivity. }
  split; [exact G|].
  cut ((List.length (requests (fetchNews w st)) <= 7)%nat
       /\ NoDup (requests (fetchNews w st))
       /\ (forall r, In r (requests (fetchNews w st)) ->
             getApiKey w = Returned (req_api_token r))); [tauto|].
  clear C.
  destruct G as [E | [apiKey [india [j [K [E _]]]]]]; rewrite E.
  - repeat split; [simpl; lia | constructor | intros r []].
  - split; [apply request_plan_length|].
    split; [apply request_plan_distinct|].
    intros r H. rewrite K. f_equal.
    unfold request_plan in H. destruct H as [<- | H]; [reflexivity|].
    apply in_app_or in H. destruct H as [H | H].
    + destruct india; [|destruct H]. destruct H as [<- | []]. reflexivity.
    + apply in_map_iff in H. destruct H as [k [<- _]]. reflexivity.
Qed.

(** ** The portfolio filter *)

Lemma upper_of_lower (c : ascii) : upper_ascii (lower_ascii c) = upper_ascii c.
Proof. destruct c as [[] [] [] [] [] [] [] []]; reflexivity. Qed.

Lemma lower_ascii_idem (c : ascii) : lower_ascii (lower_ascii c) = lower_ascii c.
Proof. destruct c as [[] [] [] [] [] [] [] []]; reflexivity. Qed.

Lemma toUpperCase_of_lower (s : string) :
  toUpperCase (toLowerCase s) = toUpperCase s.
Proof.
  induction s as [|c s IH]; simpl; [reflexivity|].
  now rewrite upper_of_lower, IH.
Qed.

Lemma toLowerCase_idem (s : string) :
  toLowerCase (toLowerCase s) = toLowerCase s.
Proof.
  induction s as [|c s IH]; simpl; [reflexivity|].
  now rewrite lower_ascii_idem, IH.
Qed.

Lemma includes_empty (s : string) : includes s EmptyString = true.
Proof. destruct s; reflexivity. Qed.

Lemma mentionsStock_spec (stocks : list string) (item : NewsItem) :
  mentionsStock stocks item = true <->
  exists userStock,
    In userStock stocks
    /\ ((exists stock, In stock (item_relevantStocks item)
                       /\ toUpperCase userStock = toUpperCase stock)
        \/ Substring (toLowerCase userStock)
                     (toLowerCase (item_headline item))
        \/ Substring (toLowerCase userStock)
                     (toLowerCase (item_summary item))).
Proof.
  unfold mentionsStock. rewrite orb_true_iff, !existsb_exists. split.
  - intros [[stock [Hs H]] | [userStock [Hu H]]].
    + apply existsb_exists in H. destruct H as [userStock [Hu H]].
      apply String.eqb_eq in H. exists userStock. split; auto.
      left. now exists stock.
    + exists userStock. split; auto. right.
      apply orb_true_iff in H. rewrite !includes_Substring in H. exact H.
  - intros [userStock [Hu [[stock [Hs H]] | H]]].
    + left. exists stock. split; auto. apply existsb_exists.
      exists userStock. split; auto. now apply String.eqb_eq.
    + right. exists userStock. split; auto.
      apply orb_true_iff. now rewrite !includes_Substring.
Qed.

Lemma mentionsStock_ext (stocks stocks' : list string) (item : NewsItem) :
  (forall userStock, In userStock stocks ->
     exists userStock', In userStock' stocks'
                        /\ toUpperCase userStock' = toUpperCase userStock) ->
  mentionsStock stocks item = true -> mentionsStock stocks' item = true.
Proof.
  intros H. rewrite !mentionsStock_spec.
  intros [userStock [Hu M]]. destruct (H userStock Hu) as [u' [Hu' E]].
  exists u'. split; auto.
  assert (L : toLowerCase u' = toLowerCase userStock).
  { rewrite <- (toLowerCase_of_upper u'), E. apply toLowerCase_of_upper. }
  now rewrite E, L.
Qed.

Lemma filter_agree {A : Type} (p q : A -> bool) (l : list A) :
  (forall x, In x l -> p x = q x) -> filter p l = filter q l.
Proof.
  induction l as [|a l IH]; simpl; intros H; [reflexivity|].
  rewrite (H a (or_introl eq_refl)), IH; auto.
Qed.

Lemma bool_agree (a b : bool) : (a = true <-> b = true) -> a = b.
Proof. destruct a, b; intuition congruence. Qed.

(** X21. The portfolio filter of the news feed keeps, in their order, the
    items that name a stock of the user: one of the item's relevant stocks
    equals it up to case, or its lower-case form occurs somewhere in the
    lower-cased headline or summary.  With no stock nothing is kept, so
    the length test of the feed changes nothing; and a stock that is the
    empty text keeps every item. *)
Theorem filterNewsByStocks_spec (news : list NewsItem)
    (stocks : list string) :
  (forall item,
     In item (filterNewsByStocks news stocks) <->
     In item news
     /\ exists userStock,
          In userStock stocks
          /\ ((exists stock, In stock (item_relevantStocks item)
                             /\ toUpperCase userStock = toUpperCase stock)
              \/ Substring (toLowerCase userStock)
                           (toLowerCase (item_headline item))
              \/ Substring (toLowerCase userStock)
                           (toLowerCase (item_summary item))))
  /\ filterNewsByStocks news [] = []
  /\ filteredNews true news stocks = filterNewsByStocks news stocks
  /\ (In EmptyString stocks -> filterNewsByStocks news stocks = news).
Proof.
  split; [|split; [|split]].
  - intros item. unfold filterNewsByStocks.
    now rewrite filter_In, mentionsStock_spec.
  - unfold filterNewsByStocks. induction news as [|a l IH]; simpl; auto.
    unfold mentionsStock at 1. simpl.
    assert (E : existsb (fun _ : string => false) (item_relevantStocks a)
                = false) by (induction (item_relevantStocks a); auto).
    now rewrite E.
  - unfold filteredNews. destruct stocks as [|s stocks]; [|reflexivity].
    simpl. unfold filterNewsByStocks.
    induction news as [|a l IH]; simpl; auto.
    unfold mentionsStock at 1. simpl.
    assert (E : existsb (fun _ : string => false) (item_relevantStocks a)
                = false) by (induction (item_relevantStocks a); auto).
    now rewrite E.
  - intros H. unfold filterNewsByStocks.
    induction news as [|a l IH]; simpl; auto.
    assert (M : mentionsStock stocks a = true).
    { apply mentionsStock_spec. exists EmptyString. split; auto.
      right. left. exists EmptyString, (toLowerCase (item_headline a)).
      reflexivity. }
    now rewrite M, IH.
Qed.

(** X22. For stocks of the user written in ASCII, the portfolio filter
    does not look at their case: with all of them in upper case, or all in
    lower case, it keeps the same items.  For any stocks, it keeps more
    when given more stocks, and filtering twice is filtering once. *)
Theorem filterNewsByStocks_ignores_case (news : list NewsItem)
    (stocks : list string) :
  (forallb RouteSpec.ascii_text stocks = true ->
   filterNewsByStocks news (map toUpperCase stocks)
   = filterNewsByStocks news stocks
   /\ filterNewsByStocks news (map toLowerCase stocks)
      = filterNewsByStocks news stocks)
  /\ (forall more item,
        In item (filterNewsByStocks news stocks) ->
        In item (filterNewsByStocks news (stocks ++ more)))
  /\ filterNewsByStocks (filterNewsByStocks news stocks) stocks
     = filterNewsByStocks news stocks.
Proof.
  split; [|split].
  - intros _. split.
    + apply filter_agree. intros item _. apply bool_agree.
      split; apply mentionsStock_ext; intros u Hu.
      * apply in_map_iff in Hu. destruct Hu as [u' [<- Hu]].
        exists u'. split; auto. now rewrite toUpperCase_idem.
      * exists (toUpperCase u). split; [now apply in_map|].
        apply toUpperCase_idem.
    + apply filter_agree. intros item _. apply bool_agree.
      split; apply mentionsStock_ext; intros u Hu.
      * apply in_map_iff in Hu. destruct Hu as [u' [<- Hu]].
        exists u'. split; auto. now rewrite toUpperCase_of_lower.
      * exists (toLowerCase u). split; [now apply in_map|].
        apply toUpperCase_of_lower.
  - intros more item H. unfold filterNewsByStocks in *.
    apply filter_In in H. destruct H as [H M]. apply filter_In.
    split; auto. apply mentionsStock_spec in M. apply mentionsStock_spec.
    destruct M as [u [Hu M]]. exists u. split; auto.
    apply in_or_app. now left.
  - unfold filterNewsByStocks. apply StatusFacts.filter_keeps_all.
    intros item H. apply filter_In in H. tauto.
Qed.

End PipelineFacts.

(* ===================================================================== *)
(** * Results about the AI service                                        *)
(* ===================================================================== *)

Module AiFacts.

Import Js JsFacts News AiService AiSpec.

(** ** The keyword score *)

Lemma count_up (f : string -> bool) (keywords : list string) (score : Z) :
  fold_left (fun score keyword => if f keyword then (score + 1)%Z else score)
            keywords score
  = (score + Z.of_nat (List.length (filter f keywords)))%Z.
Proof.
  revert score. induction keywords as [|k l IH]; intros score; simpl.
  - lia.
  - rewrite IH. destruct (f k); simpl List.length; lia.
Qed.

Lemma count_down (f : string -> bool) (keywords : list string) (score : Z) :
  fold_left (fun score keyword => if f keyword then (score - 1)%Z else score)
            keywords score
  = (score - Z.of_nat (List.length (filter f keywords)))%Z.
Proof.
  revert score. induction keywords as [|k l IH]; intros score; simpl.
  - lia.
  - rewrite IH. destruct (f k); simpl List.length; lia.
Qed.

Lemma hits_le {A : Type} (f : A -> bool) (l : list A) :
  (List.length (filter f l) <= List.length l)%nat.
Proof.
  induction l as [|a l IH]; simpl; [lia|].
  destruct (f a); simpl; lia.
Qed.

Lemma scoreItem_shift (score : Z) (item : NewsItem) :
  scoreItem score item = (score + scoreItem 0 item)%Z
  /\ (-9 <= scoreItem 0 item <= 10)%Z.
Proof.
  unfold scoreItem. cbv zeta. rewrite !count_up, !count_down.
  pose proof (hits_le
    (includes (toLowerCase (item_headline item ++ " " ++ item_summary item)))
    positiveKeywords) as P.
  pose proof (hits_le
    (includes (toLowerCase (item_headline item ++ " " ++ item_summary item)))
    negativeKeywords) as N.
  change (List.length positiveKeywords) with 10%nat in P.
  change (List.length negativeKeywords) with 9%nat in N.
  lia.
Qed.

Lemma score_from (news : list NewsItem) (score : Z) :
  fold_left scoreItem news score
  = (score + fold_left scoreItem news 0)%Z.
Proof.
  revert score. induction news as [|item news IH]; intros score; simpl.
  - lia.
  - rewrite IH, (IH (scoreItem 0 item)).
    destruct (scoreItem_shift score item) as [E _]. lia.
Qed.

Lemma sentimentScoreOf_cons (item : NewsItem) (news : list NewsItem) :
  sentimentScoreOf (item :: news)
  = (scoreItem 0 item + sentimentScoreOf news)%Z.
Proof. unfold sentimentScoreOf. simpl. apply score_from. Qed.

Lemma sentimentScoreOf_bounds (news : list NewsItem) :
  (-9 * Z.of_nat (List.length news) <= sentimentScoreOf news
   <= 10 * Z.of_nat (List.length news))%Z.
Proof.
  induction news as [|item news IH]; [unfold sentimentScoreOf; simpl; lia|].
  rewrite sentimentScoreOf_cons.
  destruct (scoreItem_shift 0 item) as [_ B].
  simpl List.length. lia.
Qed.

Lemma sentimentScoreOf_perm (news news' : list NewsItem) :
  Permutation news news' -> sentimentScoreOf news = sentimentScoreOf news'.
Proof.
  induction 1 as [|x l l' _ IH|x y l|l l' l'' _ IH1 _ IH2].
  - reflexivity.
  - rewrite !sentimentScoreOf_cons. lia.
  - rewrite !sentimentScoreOf_cons. lia.
  - congruence.
Qed.

Lemma confidenceOf_bounds (score : Z) :
  (4 # 10 <= confidenceOf score /\ confidenceOf score <= 7 # 10)%Q.
Proof.
  unfold confidenceOf.
  assert (A : (0 <= inject_Z (Z.abs score))%Q).
  { change 0%Q with (inject_Z 0). rewrite <- Zle_Qle. lia. }
  destruct (Q.min_spec (7 # 10)
              ((4 # 10) + inject_Z (Z.abs score) * (1 # 10)))
    as [[H E] | [H E]]; rewrite E; split; lra.
Qed.

Lemma confidenceOf_zero (score : Z) :
  (confidenceOf score == 4 # 10)%Q <-> score = 0%Z.
Proof.
  unfold confidenceOf. split.
  - intros E.
    destruct (Z.eq_dec score 0) as [|N]; auto. exfalso.
    assert (A : (1 <= inject_Z (Z.abs score))%Q).
    { change 1%Q with (inject_Z 1). rewrite <- Zle_Qle. lia. }
    destruct (Q.min_spec (7 # 10)
                ((4 # 10) + inject_Z (Z.abs score) * (1 # 10)))
      as [[H E'] | [H E']]; rewrite E' in E; lra.
  - intros ->. reflexivity.
Qed.

(** X23. The keyword fallback.  Its confidence lies between 0.4 and 0.7;
    the sentiment is neutral exactly when the impact is low, and exactly
    when the confidence is 0.4; the score behind it lies between -9 and 10
    times the number of news items; the verdict does not depend on the
    stock it is computed for, nor on the order of the news; and without
    news it is neutral. *)
Theorem fallback_insight_counts_keywords (stock : string)
    (relevantNews : list NewsItem) :
  let insight := getFallbackInsight stock relevantNews in
  ins_stock insight = stock
  /\ (4 # 10 <= ins_confidence insight /\ ins_confidence insight <= 7 # 10)%Q
  /\ (ins_sentiment insight = "neutral" <-> ins_impact insight = "low")
  /\ (ins_sentiment insight = "neutral"
      <-> (ins_confidence insight == 4 # 10)%Q)
  /\ (-9 * Z.of_nat (List.length relevantNews)
      <= sentimentScoreOf relevantNews
      <= 10 * Z.of_nat (List.length relevantNews))%Z
  /\ (forall other,
        verdict (getFallbackInsight other relevantNews) = verdict insight)
  /\ (forall reordered,
        Permutation relevantNews reordered ->
        getFallbackInsight stock reordered = insight)
  /\ ins_sentiment (getFallbackInsight stock []) = "neutral".
Proof.
  cbv zeta. unfold getFallbackInsight. cbn [ins_stock ins_confidence
    ins_sentiment ins_impact].
  set (score := sentimentScoreOf relevantNews).
  assert (S0 : sentimentOf score = "neutral" <-> score = 0%Z).
  { unfold sentimentOf.
    destruct (0 <? score)%Z eqn:P; [apply Z.ltb_lt in P|apply Z.ltb_ge in P].
    - split; [discriminate | lia].
    - destruct (score <? 0)%Z eqn:N;
        [apply Z.ltb_lt in N|apply Z.ltb_ge in N].
      + split; [discriminate | lia].
      + split; [lia | reflexivity]. }
  assert (I0 : impactOf score = "low" <-> score = 0%Z).
  { unfold impactOf.
    destruct (2 <=? Z.abs score)%Z eqn:P;
      [apply Z.leb_le in P|apply Z.leb_gt in P].
    - split; [discriminate | lia].
    - destruct (1 <=? Z.abs score)%Z eqn:N;
        [apply Z.leb_le in N|apply Z.leb_gt in N].
      + split; [discriminate | lia].
      + split; [lia | reflexivity]. }
  split; [reflexivity|].
  split; [apply confidenceOf_bounds|].
  split; [now rewrite S0, I0|].
  split; [now rewrite S0, confidenceOf_zero|].
  split; [apply sentimentScoreOf_bounds|].
  split; [reflexivity|].
  split; [|reflexivity].
  intros reordered P.
  rewrite <- (sentimentScoreOf_perm _ _ P), <- (Permutation_length P).
  reflexivity.
Qed.

(** ** analyzeNewsImpact *)

Lemma clamp01_unit (x : Q) : within_unit (clamp01 x).
Proof.
  unfold within_unit, clamp01. split.
  - apply Q.min_glb; [apply Q.le_max_r | discriminate].
  - apply Q.le_min_r.
Qed.

Lemma fallback_unit (stock : string) (news : list NewsItem) :
  within_unit (ins_confidence (getFallbackInsight stock news)).
Proof.
  destruct (confidenceOf_bounds (sentimentScoreOf news)) as [L U].
  unfold within_unit, getFallbackInsight. cbn [ins_confidence].
  split; lra.
Qed.

Lemma insightsLoop_sound (w : ai_world) (news : list NewsItem)
    (portfolioStocks : list string) (calls : nat) :
  (List.length (insightsLoop w news portfolioStocks calls)
   <= List.length portfolioStocks)%nat
  /\ (forall insight,
        In insight (insightsLoop w news portfolioStocks calls) ->
        In (ins_stock insight) portfolioStocks
        /\ within_unit (ins_confidence insight))
  /\ (forall stock,
        In stock portfolioStocks ->
        filter (relevantTo stock) news = [] ->
        In (noNewsInsight stock) (insightsLoop w news portfolioStocks calls)).
Proof.
  revert calls. induction portfolioStocks as [|stock rest IH]; intros calls.
  - simpl. split; [lia|]. split; [intros insight [] | intros stock []].
  - cbn [insightsLoop]. cbv zeta.
    destruct (List.length (filter (relevantTo stock) news) =? 0)%nat eqn:E.
    + destruct (IH calls) as [L [Hs N]]. split; [simpl; lia|]. split.
      * intros insight [<- | H].
        -- split; [now left|]. unfold within_unit. simpl. split; lra.
        -- destruct (Hs insight H). split; [now right | auto].
      * intros s [<- | H] F; [now left|]. right. auto.
    + assert (NE : filter (relevantTo stock) news <> []).
      { intros F. rewrite F in E. discriminate. }
      destruct (IH (S calls)) as [L [Hs N]].
      assert (Srest : forall insight,
                In insight (insightsLoop w news rest (S calls)) ->
                In (ins_stock insight) (stock :: rest)
                /\ within_unit (ins_confidence insight)).
      { intros insight H. destruct (Hs insight H). split; [now right | auto]. }
      assert (Nrest : forall s,
                In s (stock :: rest) -> filter (relevantTo s) news = [] ->
                In (noNewsInsight s) (insightsLoop w news rest (S calls))).
      { intros s [<- | H] F; [contradiction | auto]. }
      destruct (insight_completion w calls stock
                  (filter (relevantTo stock) news)) as [| | |analysis].
      * split; [simpl; lia|]. split.
        -- intros insight [<- | H]; [|auto].
           split; [now left | apply fallback_unit].
        -- intros s H F. right. auto.
      * split; [simpl; lia|]. split; auto.
      * split; [simpl; lia|]. split.
        -- intros insight [<- | H]; [|auto].
           split; [now left | apply fallback_unit].
        -- intros s H F. right. auto.
      * split; [simpl; lia|]. split.
        -- intros insight [<- | H]; [|auto].
           split; [now left | apply clamp01_unit].
        -- intros s H F. right. auto.
Qed.

(** X24. Without a client (no key, or the package does not load) every
    stock of the portfolio gets an insight, in order, and all of them
    carry one verdict: the keyword fallback is run on all the news, not on
    the news of the stock. *)
Theorem without_client_all_stocks_share_a_verdict (w : ai_world)
    (news : list NewsItem) (portfolioStocks : list string) :
  getOpenAIClient w = Thrown ->
  map ins_stock (analyzeNewsImpact w news portfolioStocks) = portfolioStocks
  /\ forall insight,
       In insight (analyzeNewsImpact w news portfolioStocks) ->
       verdict insight = verdict (getFallbackInsight EmptyString news).
Proof.
  intros C. unfold analyzeNewsImpact. rewrite C. split.
  - rewrite map_map. cbn [getFallbackInsight ins_stock]. apply map_id.
  - intros insight H. apply in_map_iff in H. destruct H as [stock [<- _]].
    reflexivity.
Qed.

(** X25. Whatever the model answers, [analyzeNewsImpact] returns at most
    one insight per stock of the portfolio, each for a stock of the
    portfolio and with a confidence from 0 to 1; and with a client, a
    stock that no news item names gets the neutral, low-impact insight. *)
Theorem insights_follow_the_portfolio (w : ai_world) (news : list NewsItem)
    (portfolioStocks : list string) :
  (List.length (analyzeNewsImpact w news portfolioStocks)
   <= List.length portfolioStocks)%nat
  /\ (forall insight,
        In insight (analyzeNewsImpact w news portfolioStocks) ->
        In (ins_stock insight) portfolioStocks
        /\ within_unit (ins_confidence insight))
  /\ (forall stock,
        getOpenAIClient w = Returned tt ->
        In stock portfolioStocks ->
        filter (relevantTo stock) news = [] ->
        In (noNewsInsight stock) (analyzeNewsImpact w news portfolioStocks)).
Proof.
  unfold analyzeNewsImpact.
  destruct (insightsLoop_sound w news portfolioStocks 0) as [L [S N]].
  destruct (getOpenAIClient w) as [[]|].
  - split; [exact L|]. split; [exact S|]. intros stock _. apply N.
  - split; [rewrite length_map; lia|]. split; [|discriminate].
    intros insight H. apply in_map_iff in H. destruct H as [stock [<- H]].
    split; [exact H | apply fallback_unit].
Qed.

(** ** Market sentiment and risk *)

Lemma isCategory_exclusive (item : NewsItem) :
  offMarket item = negb (isCategory Market item || isCategory Policy item).
Proof. unfold offMarket, isCategory. now destruct (item_category item). Qed.

Lemma filter_twice {A : Type} (p q : A -> bool) (l : list A) :
  (forall x, p x = true -> q x = true) ->
  filter p (filter q l) = filter p l.
Proof.
  intros H. induction l as [|a l IH]; simpl; [reflexivity|].
  destruct (q a) eqn:Q; simpl.
  - now rewrite IH.
  - destruct (p a) eqn:P; [|exact IH].
    rewrite (H a P) in Q. discriminate.
Qed.

Lemma fallback_market_unit (news : list NewsItem) :
  within_unit (ms_confidence (getFallbackMarketSentiment news)).
Proof. unfold within_unit. simpl. split; lra. Qed.

(** X26. Market sentiment.  Whatever the model answers (an error, empty
    content, text that does not parse, or an object whose [confidence],
    when present, is a number), the confidence returned is from 0 to 1; a
    reply whose [confidence] is not a number is outside the model.
    Without a client the result is the headline count of the fallback,
    which reads only market and policy news: company and economy news
    never change it.  With a client, news that is all company news is
    answered "neutral" with confidence 0.3 without asking the model. *)
Theorem market_sentiment_is_bounded (w : ai_world) (news : list NewsItem) :
  within_unit (ms_confidence (analyzeMarketSentiment w news))
  /\ (getOpenAIClient w = Thrown ->
      analyzeMarketSentiment w news = getFallbackMarketSentiment news)
  /\ getFallbackMarketSentiment (filter (fun item => negb (offMarket item))
                                        news)
     = getFallbackMarketSentiment news
  /\ (getOpenAIClient w = Returned tt ->
      (forall item, In item news -> isCategory Company item = true) ->
      ms_overall (analyzeMarketSentiment w news) = "neutral"
      /\ ms_confidence (analyzeMarketSentiment w news) = 3 # 10).
Proof.
  split; [|split; [|split]].
  - unfold analyzeMarketSentiment.
    destruct (getOpenAIClient w); [|apply fallback_market_unit].
    cbv zeta. destruct (List.length _ =? 0)%nat.
    + unfold within_unit. simpl. split; lra.
    + destruct (market_completion w _);
        try apply fallback_market_unit.
      apply clamp01_unit.
  - intros C. unfold analyzeMarketSentiment. now rewrite C.
  - unfold getFallbackMarketSentiment.
    rewrite (filter_twice
               (fun item => isCategory Market item || isCategory Policy item)
               (fun item => negb (offMarket item)) news); [reflexivity|].
    intros item H. now rewrite isCategory_exclusive, H.
  - intros C Hall. unfold analyzeMarketSentiment. rewrite C. cbv zeta.
    assert (F : filter (fun item => isCategory Market item
                                    || isCategory Policy item
                                    || isCategory Economy item) news = []).
    { apply StatusFacts.filter_drops_all. intros item H.
      specialize (Hall item H). unfold isCategory in *.
      now destruct (item_category item). }
    rewrite F. simpl. auto.
Qed.

(** X27. Portfolio risk.  Whatever the model answers (an error, empty
    content, text that does not parse, or an object whose
    [diversificationScore], when present, is a number), the
    diversification score returned is from 0 to 1; a reply whose score is
    not a number is outside the model.  In the fallback the score never
    goes down and the risk level never goes up when the portfolio has more
    stocks, and the score is 1 from ten stocks on. *)
Theorem portfolio_risk_is_bounded (w : ai_world) (count : nat) :
  within_unit (ra_diversificationScore (analyzePortfolioRisk w count))
  /\ (forall more,
        (count <= more)%nat ->
        (ra_diversificationScore (fallbackRisk count)
         <= ra_diversificationScore (fallbackRisk more))%Q
        /\ (riskRank (ra_riskLevel (fallbackRisk more))
            <= riskRank (ra_riskLevel (fallbackRisk count)))%nat)
  /\ ((10 <= count)%nat ->
      (ra_diversificationScore (fallbackRisk count) == 1)%Q).
Proof.
  assert (P : forall n, (0 <= Z.of_nat n # 10)%Q).
  { intros n. unfold Qle. simpl. lia. }
  assert (F : forall n,
            within_unit (ra_diversificationScore (fallbackRisk n))).
  { intros n. unfold within_unit. cbn [fallbackRisk ra_diversificationScore].
    split; [apply Q.min_glb; [apply P | discriminate] | apply Q.le_min_r]. }
  split; [|split].
  - unfold analyzePortfolioRisk.
    destruct (getOpenAIClient w); [|apply F].
    destruct (risk_completion w count); try apply F.
    apply clamp01_unit.
  - intros more H. split.
    + cbn [fallbackRisk ra_diversificationScore].
      apply Q.min_le_compat_r. unfold Qle. simpl. lia.
    + cbn [fallbackRisk ra_riskLevel]. unfold riskRank.
      destruct (count <? 3)%nat eqn:C3; destruct (more <? 3)%nat eqn:M3;
        destruct (count <? 7)%nat eqn:C7; destruct (more <? 7)%nat eqn:M7;
        simpl; try lia;
        rewrite ?Nat.ltb_lt, ?Nat.ltb_ge in *; lia.
  - intros H. cbn [fallbackRisk ra_diversificationScore].
    apply Q.min_r. unfold Qle. simpl. lia.
Qed.

End AiFacts.

(* ===================================================================== *)
(** * Results about the application shell                                 *)
(* ===================================================================== *)

Module ShellFacts.

Import Js AppShell.

Section Shell.

Variable parsed_user : Type.

Variable JSON_parse : string -> outcome parsed_user.

Lemma checkAuthStatus_cases (ls : storage) :
  (exists token userData parsedUser,
     ls_token ls = Some token /\ token <> EmptyString
     /\ ls_user ls = Some userData /\ userData <> EmptyString
     /\ JSON_parse userData = Returned parsedUser
     /\ checkAuthStatus parsed_user JSON_parse ls
        = (true, {| st_user := Some parsedUser; st_isAuthenticated := true |},
           ls))
  \/ (exists token userData,
        ls_token ls = Some token /\ token <> EmptyString
        /\ ls_user ls = Some userData /\ userData <> EmptyString
        /\ JSON_parse userData = Thrown
        /\ checkAuthStatus parsed_user JSON_parse ls
           = (false, {| st_user := None; st_isAuthenticated := false |},
              {| ls_token := None; ls_user := None |}))
  \/ ((ls_token ls = None \/ ls_token ls = Some EmptyString
       \/ ls_user ls = None \/ ls_user ls = Some EmptyString)
      /\ checkAuthStatus parsed_user JSON_parse ls
         = (false, {| st_user := None; st_isAuthenticated := false |}, ls)).
Proof.
  unfold checkAuthStatus.
  destruct (ls_token ls) as [token|] eqn:T; [|right; right; auto].
  destruct (ls_user ls) as [userData|] eqn:U; [|right; right; auto 6].
  destruct token as [|c token]; [right; right; auto 6|].
  destruct userData as [|d userData]; [right; right; auto 6|].
  cbn [truthy_str String.eqb negb andb].
  destruct (JSON_parse (String d userData)) as [parsedUser|] eqn:P.
  - left. exists (String c token), (String d userData), parsedUser.
    repeat split; auto; discriminate.
  - right. left. exists (String c token), (String d userData).
    repeat split; auto; discriminate.
Qed.

(** X28. [checkAuthStatus] signs the user in exactly when both keys of
    [localStorage] hold a non-empty text and the user text parses; the
    value returned is the flag set.  The storage is left as it is unless
    the user text does not parse, and then both keys are removed.
    Checking again gives the same answer and changes nothing more.  The
    token is never read: any other non-empty token gives the same answer
    and the same user. *)
Theorem checkAuthStatus_reads_presence_only (ls : storage) :
  let result := checkAuthStatus parsed_user JSON_parse ls in
  let answer := fst (fst result) in
  let st := snd (fst result) in
  answer = st_isAuthenticated st
  /\ (answer = true <->
      exists token userData parsedUser,
        ls_token ls = Some token /\ token <> EmptyString
        /\ ls_user ls = Some userData /\ userData <> EmptyString
        /\ JSON_parse userData = Returned parsedUser
        /\ st_user st = Some parsedUser)
  /\ (answer = false -> st_user st = None)
  /\ (snd result = ls
      \/ (snd result = {| ls_token := None; ls_user := None |}
          /\ exists userData, ls_user ls = Some userData
                              /\ JSON_parse userData = Thrown))
  /\ checkAuthStatus parsed_user JSON_parse (snd result) = result
  /\ (forall token other,
        ls_token ls = Some token -> token <> EmptyString ->
        other <> EmptyString ->
        fst (checkAuthStatus parsed_user JSON_parse
               {| ls_token := Some other; ls_user := ls_user ls |})
        = fst result).
Proof.
  cbv zeta.
  destruct (checkAuthStatus_cases ls)
    as [[token [userData [parsedUser [T [Tn [U [Un [P E]]]]]]]]
       | [[token [userData [T [Tn [U [Un [P E]]]]]]]
         | [C E]]].
  - rewrite E. cbn [fst snd st_isAuthenticated st_user].
    split; [reflexivity|]. split.
    { split; [|reflexivity]. intros _. exists token, userData, parsedUser.
      auto 7. }
    split; [discriminate|]. split; [now left|]. split; [exact E|].
    intros t other T' _ N.
    destruct (checkAuthStatus_cases
                {| ls_token := Some other; ls_user := ls_user ls |})
      as [[t' [u' [p' [_ [_ [U' [_ [P' E']]]]]]]]
         | [[t' [u' [_ [_ [U' [_ [P' E']]]]]]]
           | [C' E']]]; cbn [ls_token ls_user] in *.
    + rewrite E'. rewrite U in U'. inversion U'; subst u'.
      rewrite P in P'. inversion P'. reflexivity.
    + rewrite U in U'. inversion U'; subst u'. congruence.
    + destruct C' as [C' | [C' | [C' | C']]]; congruence.
  - rewrite E. cbn [fst snd st_isAuthenticated st_user].
    split; [reflexivity|]. split.
    { split; [discriminate|].
      intros [t [u [p [_ [_ [U' [_ [P' _]]]]]]]].
      rewrite U in U'. inversion U'; subst u. congruence. }
    split; [reflexivity|]. split.
    { right. split; [reflexivity|]. now exists userData. }
    split; [reflexivity|].
    intros t other T' _ N.
    destruct (checkAuthStatus_cases
                {| ls_token := Some other; ls_user := ls_user ls |})
      as [[t' [u' [p' [_ [_ [U' [_ [P' E']]]]]]]]
         | [[t' [u' [_ [_ [U' [_ [P' E']]]]]]]
           | [C' E']]]; cbn [ls_token ls_user] in *.
    + rewrite U in U'. inversion U'; subst u'. congruence.
    + now rewrite E'.
    + destruct C' as [C' | [C' | [C' | C']]]; congruence.
  - rewrite E. cbn [fst snd st_isAuthenticated st_user].
    split; [reflexivity|]. split.
    { split; [discriminate|].
      intros [t [u [p [T' [Tn' [U' [Un' _]]]]]]].
      destruct C as [C | [C | [C | C]]]; congruence. }
    split; [reflexivity|]. split; [now left|]. split; [exact E|].
    intros t other T' Tn N.
    destruct (checkAuthStatus_cases
                {| ls_token := Some other; ls_user := ls_user ls |})
      as [[t' [u' [p' [_ [_ [U' [Un' [P' E']]]]]]]]
         | [[t' [u' [_ [_ [U' [Un' [P' E']]]]]]]
           | [C' E']]]; cbn [ls_token ls_user] in *.
    + destruct C as [C | [C | [C | C]]]; congruence.
    + destruct C as [C | [C | [C | C]]]; congruence.
    + now rewrite E'.
Qed.

End Shell.

End ShellFacts.

(* ===================================================================== *)
(** * The further results on concrete inputs                              *)
(* ===================================================================== *)

Module MoreExamples.

Import Js News NewsSpec NewsMore Backend BackendSpec RouteSpec ListingSpec.
Import Fixtures AiService AiSpec AppShell.
Import RouteFacts AccountFacts ListingFacts PipelineFacts AiFacts ShellFacts.

Lemma two_users_keys : primary_keys_ok two_users_db.
Proof.
  split.
  - simpl. repeat (constructor; [simpl; intuition discriminate|]).
    constructor.
  - intros row [<- | [<- | [<- | []]]]; reflexivity.
Qed.

Lemma test_db_users : users_consistent test_db.
Proof.
  repeat split.
  - simpl. repeat (constructor; [simpl; intuition discriminate|]).
    constructor.
  - intros user [<- | []]. reflexivity.
  - simpl. repeat (constructor; [simpl; intuition discriminate|]).
    constructor.
Qed.

Lemma no_accounts_users : users_consistent no_accounts.
Proof.
  repeat split; simpl; try constructor. intros user [].
Qed.

Lemma half_in_unit : unit_interval test_runtime.
Proof. intros n. simpl. split; [discriminate | reflexivity]. Qed.

(** ** Routes *)

Lemma failed_requests_change_nothing_witness :
  snd (app (TP := table_driven) test_env test_runtime
           (GetProfile (bearer "old")) test_db)
  = test_db.
Proof.
  apply (proj1 (failed_requests_change_nothing (TP := table_driven) test_env
                  test_runtime (GetProfile (bearer "old")) test_db)).
  vm_compute. discriminate.
Defined.

Lemma holdings_change_only_for_their_owner_witness :
  filter (owned_by 2)
    (Portfolios (snd (app (TP := table_driven) test_env test_runtime
                          (PostPortfolio (bearer "good") five_infy)
                          two_users_db)))
  = filter (owned_by 2) (Portfolios two_users_db).
Proof.
  apply (holdings_change_only_for_their_owner (TP := table_driven) test_env
           test_runtime (PostPortfolio (bearer "good") five_infy)
           two_users_db 2 two_users_keys).
  intros user H. vm_compute in H. inversion H. simpl. discriminate.
Defined.

Lemma delete_removes_exactly_the_holding_witness :
  status (fst (app (TP := table_driven) test_env test_runtime
                   (DeletePortfolio (bearer "good") "tcs") test_db))
  = 200%Z.
Proof.
  refine (proj1 (delete_removes_exactly_the_holding (TP := table_driven)
                   test_env test_runtime (bearer "good") alice_claims "tcs"
                   test_db _ _ _)).
  - reflexivity.
  - discriminate.
  - exists alice_tcs. simpl. auto.
Defined.

Lemma add_then_delete_restores_the_table_witness :
  Portfolios
    (snd (app (TP := table_driven) test_env test_runtime
              (DeletePortfolio (bearer "good") "INFY")
              (snd (app (TP := table_driven) test_env test_runtime
                        (PostPortfolio (bearer "good") five_infy) test_db))))
  = Portfolios test_db.
Proof.
  refine (proj2 (add_then_delete_restores_the_table (TP := table_driven)
                   test_env test_runtime test_runtime (bearer "good")
                   (bearer "good") alice_claims alice_claims five_infy
                   "infy" "INFY" test_db _ _ _ _ _ _)); reflexivity.
Defined.


(** ** Accounts *)

Lemma bearer_token_is_the_second_word_witness :
  bearer_token {| authorization := Some "Basic abc" |} = Some "abc".
Proof.
  refine (proj1 (bearer_token_is_the_second_word "Basic" "abc" _ _ _));
    [reflexivity | reflexivity | discriminate].
Defined.

Lemma accounts_stay_unique_witness :
  users_consistent
    (snd (app (TP := table_driven) test_env test_runtime
              (PostSignup alice_signup) no_accounts)).
Proof.
  exact (proj1 (accounts_stay_unique (TP := table_driven) test_env
                  test_runtime (PostSignup alice_signup) no_accounts
                  no_accounts_users)).
Defined.

Lemma accounts_are_never_rewritten_witness :
  exists added,
    map credentials
        (Users (snd (app (TP := table_driven) test_env test_runtime
                         (PostLogin alice_login) test_db)))
    = (map credentials (Users test_db) ++ added)%list
    /\ (added = []
        \/ (exists b c, PostLogin alice_login = PostSignup b /\ added = [c]
                        /\ status (fst (app (TP := table_driven) test_env
                                            test_runtime
                                            (PostLogin alice_login) test_db))
                           = 201%Z)).
Proof.
  exact (accounts_are_never_rewritten (TP := table_driven) test_env
           test_runtime (PostLogin alice_login) test_db test_db_users).
Defined.

Lemma signup_then_login_witness :
  status (fst (app (TP := table_driven) test_env test_runtime
                   (PostLogin alice_login)
                   (snd (app (TP := table_driven) test_env test_runtime
                             (PostSignup alice_signup) no_accounts))))
  = 200%Z.
Proof.
  destruct (signup_then_login (TP := table_driven) test_env test_runtime
              test_runtime alice_signup alice_login no_accounts
              "alice@example.com" "correct horse" "correct horse"
              eq_refl eq_refl eq_refl eq_refl eq_refl)
    as [user [_ [_ [_ E]]]].
  rewrite E. reflexivity.
Defined.

Lemma signup_token_opens_profile_witness :
  exists user,
    app (TP := table_driven) test_env test_runtime
        (GetProfile (bearer "good"))
        (snd (app (TP := table_driven) test_env test_runtime
                  (PostSignup alice_signup) no_accounts))
    = ({| status := 200; body := JObj [("user", User_toJSON user)] |},
       snd (app (TP := table_driven) test_env test_runtime
                (PostSignup alice_signup) no_accounts))
    /\ user_email user = "alice@example.com".
Proof.
  destruct (signup_token_opens_profile (TP := table_driven) test_env
              test_runtime test_runtime alice_signup no_accounts "Alice"
              "alice@example.com" "good" alice_claims no_accounts_users
              eq_refl eq_refl eq_refl eq_refl eq_refl)
    as [user [E [_ [_ [_ [He _]]]]]].
  - discriminate.
  - reflexivity.
  - reflexivity.
  - exists user. split; [exact E | exact He].
Defined.

(** ** The list and the stock data *)

Lemma portfolio_lists_own_rows_by_symbol_witness :
  exists rows items,
    app (TP := table_driven) test_env test_runtime
        (GetPortfolio (bearer "good")) two_users_db
    = ({| status := 200; body := JObj [("portfolio", JArr items)] |},
       two_users_db)
    /\ Permutation rows (filter (owned_by 1) (Portfolios two_users_db))
    /\ Sorted by_symbol rows
    /\ Forall2 describes rows items.
Proof.
  apply (portfolio_lists_own_rows_by_symbol (TP := table_driven) test_env
           test_runtime (bearer "good") alice_claims two_users_db).
  reflexivity.
Defined.

Lemma fallback_stock_data_ignores_case_witness :
  getFallbackStockData test_runtime 0 "zomato"
  = getFallbackStockData test_runtime 0 "ZOMATO".
Proof.
  apply (proj1 (fallback_stock_data_ignores_case test_runtime 0 "ZOMATO"));
    reflexivity.
Defined.

Lemma fallback_prices_stay_in_range_witness :
  (500 <= sd_price (fst (getFallbackStockData test_runtime 0 "zzz"))
   /\ sd_price (fst (getFallbackStockData test_runtime 0 "zzz")) <= 3500)%Q.
Proof.
  exact (proj1 (fallback_prices_stay_in_range test_runtime 0 "zzz"
                  half_in_unit)).
Defined.

(** ** News *)

Lemma uniqueArticles_keeps_first_occurrences_witness :
  uniqueArticles [sensex_article] = [sensex_article].
Proof.
  apply (proj1 (proj2 (proj2 (proj2
           (uniqueArticles_keeps_first_occurrences [sensex_article]))))).
  simpl. constructor; [intros [] | constructor].
Defined.

Lemma selectNews_pads_up_to_fifteen_witness :
  In surge_item (selectNews [surge_item]).
Proof.
  apply (proj1 (selectNews_pads_up_to_fifteen [surge_item])).
  - now left.
  - reflexivity.
Defined.

Lemma provider_news_is_clean_witness :
  NoDup (map item_id (items (fetchNews keyword_outage cold_start))).
Proof.
  apply (proj1 (proj2 (provider_news_is_clean keyword_outage cold_start
                         eq_refl))).
Defined.

Lemma fetchNews_sends_a_bounded_plan_witness :
  getApiKey keyword_outage = Returned (req_api_token (globalParams "key")).
Proof.
  apply (proj1 (proj2 (proj2 (proj2
           (fetchNews_sends_a_bounded_plan keyword_outage cold_start))))).
  vm_compute. left. reflexivity.
Defined.

Lemma second_fetch_is_served_from_cache_witness :
  fetchNews (later_world keyword_outage 60000)
            (state_after (fetchNews keyword_outage cold_start))
  = {| served := FromCache;
       items := items (fetchNews keyword_outage cold_start);
       requests := [];
       state_after := state_after (fetchNews keyword_outage cold_start) |}.
Proof.
  apply (proj1 (second_fetch_is_served_from_cache keyword_outage
                  (later_world keyword_outage 60000) cold_start eq_refl
                  eq_refl)).
Defined.

Lemma clearNewsCache_keeps_localStorage_witness :
  fst (getCachedNews keyword_outage (clearNewsCache warm_state)) = [].
Proof.
  apply (proj2 (proj2 (proj2 (proj2 (proj2
           (clearNewsCache_keeps_localStorage keyword_outage warm_state)))))).
  intros [e [L _]]. discriminate L.
Defined.

Lemma filterNewsByStocks_spec_witness :
  filterNewsByStocks [tcs_item] [EmptyString] = [tcs_item].
Proof.
  apply (proj2 (proj2 (proj2
           (filterNewsByStocks_spec [tcs_item] [EmptyString])))).
  now left.
Defined.

Lemma filterNewsByStocks_ignores_case_witness :
  filterNewsByStocks [tcs_item] (map toUpperCase ["tcs"])
  = filterNewsByStocks [tcs_item] ["tcs"].
Proof.
  apply (proj1 (proj1 (filterNewsByStocks_ignores_case [tcs_item] ["tcs"])
                  eq_refl)).
Defined.

(** ** The AI service and the shell *)

Lemma fallback_insight_counts_keywords_witness :
  getFallbackInsight "TCS" [surge_item; tcs_item]
  = getFallbackInsight "TCS" [tcs_item; surge_item].
Proof.
  apply (proj1 (proj2 (proj2 (proj2 (proj2 (proj2 (proj2
           (fallback_insight_counts_keywords "TCS"
              [tcs_item; surge_item])))))))).
  apply perm_swap.
Defined.

Lemma without_client_all_stocks_share_a_verdict_witness :
  map ins_stock (analyzeNewsImpact no_key [surge_item] ["TCS"; "INFY"])
  = ["TCS"; "INFY"].
Proof.
  apply (proj1 (without_client_all_stocks_share_a_verdict no_key
                  [surge_item] ["TCS"; "INFY"] eq_refl)).
Defined.

Lemma insights_follow_the_portfolio_witness :
  In (noNewsInsight "ZZZ") (analyzeNewsImpact silent_model [surge_item] ["ZZZ"]).
Proof.
  apply (proj2 (proj2 (insights_follow_the_portfolio silent_model
                         [surge_item] ["ZZZ"]))).
  - reflexivity.
  - now left.
  - reflexivity.
Defined.

Lemma market_sentiment_is_bounded_witness :
  analyzeMarketSentiment no_key [surge_item]
  = getFallbackMarketSentiment [surge_item].
Proof.
  apply (proj1 (proj2 (market_sentiment_is_bounded no_key [surge_item]))).
  reflexivity.
Defined.

Lemma portfolio_risk_is_bounded_witness :
  (ra_diversificationScore (fallbackRisk 12) == 1)%Q.
Proof.
  apply (proj2 (proj2 (portfolio_risk_is_bounded no_key 12))).
  repeat constructor.
Defined.

Lemma checkAuthStatus_reads_presence_only_witness :
  fst (checkAuthStatus unit braces_only
         {| ls_token := Some "other"; ls_user := Some "{}" |})
  = fst (checkAuthStatus unit braces_only
           {| ls_token := Some "t"; ls_user := Some "{}" |}).
Proof.
  apply (proj2 (proj2 (proj2 (proj2 (proj2
           (checkAuthStatus_reads_presence_only unit braces_only
              {| ls_token := Some "t"; ls_user := Some "{}" |}))))) "t");
    [reflexivity | discriminate | discriminate].
Defined.

End MoreExamples.

(* ===================================================================== *)
(** * Results about the news for given stocks                             *)
(* ===================================================================== *)

Module StockNewsFacts.

Import Js JsFacts News NewsSpec StockNews Fixtures.

Lemma before_dot_dotless (s : string) : dotless (before_dot s) = true.
Proof.
  induction s as [|c s IH]; simpl; [reflexivity|].
  destruct (Ascii.eqb c ".") eqn:E; simpl; [reflexivity|].
  now rewrite E, IH.
Qed.

Lemma stockItem_stocks (symbols : list string) (a : article)
    (item : NewsItem) (s : string) :
  stockItem symbols a = Returned item ->
  In s (item_relevantStocks item) ->
  item_id item = art_uuid a
  /\ In (toUpperCase s) symbols /\ dotless s = true.
Proof.
  unfold stockItem. destruct (art_entities a) as [entities|]; [|discriminate].
  intros E H. inversion E; subst item. clear E.
  cbn [item_relevantStocks item_id] in *.
  apply filter_In in H. destruct H as [H1 H2].
  apply existsb_exists in H2. destruct H2 as [x [Hx E]].
  apply String.eqb_eq in E. subst x.
  apply in_map_iff in H1. destruct H1 as [e [<- _]].
  repeat split; auto. apply before_dot_dotless.
Qed.

Lemma stockItems_sound (symbols : list string) (data : list article)
    (items : list NewsItem) :
  stockItems symbols data = Returned items ->
  map item_id items = map art_uuid data
  /\ (forall a, In a data -> art_entities a <> None)
  /\ (forall item s,
        In item items -> In s (item_relevantStocks item) ->
        In (toUpperCase s) symbols /\ dotless s = true).
Proof.
  revert items. induction data as [|a rest IH]; intros items; simpl.
  - intros E. inversion E. split; [reflexivity|].
    split; [intros a [] | intros item s []].
  - destruct (stockItem symbols a) as [item|] eqn:Ea; [|discriminate].
    destruct (stockItems symbols rest) as [items'|]; [|discriminate].
    intros E. inversion E; subst items. clear E.
    destruct (IH items' eq_refl) as [I1 [I2 I3]].
    split; [|split].
    + simpl. f_equal; auto.
      unfold stockItem in Ea. destruct (art_entities a); [|discriminate].
      now inversion Ea.
    + intros b [<- | Hb]; auto.
      unfold stockItem in Ea. destruct (art_entities a); discriminate.
    + intros it s [<- | Hit] Hs.
      * destruct (stockItem_stocks symbols a item s Ea Hs) as [_ R]. exact R.
      * eauto.
Qed.

Lemma stockItems_thrown (symbols : list string) (data : list article)
    (a : article) :
  In a data -> art_entities a = None -> stockItems symbols data = Thrown.
Proof.
  induction data as [|b rest IH]; simpl; [tauto|].
  intros [<- | H] N.
  - unfold stockItem. now rewrite N.
  - rewrite (IH H N). now destruct (stockItem symbols b).
Qed.

(** X29. [fetchStockSpecificNews] returns the empty list on every failure:
    no key, a request that throws, a response that is not ok or does not
    decode or has no [data], and also when one article of the response
    has no [entities].  Otherwise it returns one item per article, in
    order and without removing repeated uuids.  A relevant stock of an
    item has no dot in it and its upper-case form is one of the symbols
    asked for; so when no symbol asked for is in upper case, no item has a
    relevant stock. *)
Theorem stock_news_is_all_or_nothing (w : world)
    (stock_provider : stock_query -> fetch_outcome) (symbols : list string) :
  let news := fetchStockSpecificNews w stock_provider symbols in
  (stock_data_of w stock_provider symbols = None -> news = [])
  /\ (forall data a,
        stock_data_of w stock_provider symbols = Some data ->
        In a data -> art_entities a = None -> news = [])
  /\ (forall data,
        stock_data_of w stock_provider symbols = Some data ->
        (forall a, In a data -> art_entities a <> None) ->
        map item_id news = map art_uuid data)
  /\ (forall item s,
        In item news -> In s (item_relevantStocks item) ->
        In (toUpperCase s) symbols /\ dotless s = true)
  /\ ((forall symbol, In symbol symbols -> symbol <> toUpperCase symbol) ->
      forall item, In item news -> item_relevantStocks item = []).
Proof.
  cbv zeta.
  assert (R : forall item s,
            In item (fetchStockSpecificNews w stock_provider symbols) ->
            In s (item_relevantStocks item) ->
            In (toUpperCase s) symbols /\ dotless s = true).
  { unfold fetchStockSpecificNews.
    destruct (getApiKey w) as [apiKey|]; [|intros item s []].
    destruct (stockArticles _) as [data|]; [|intros item s []].
    destruct (stockItems symbols data) as [items|] eqn:E; [|intros item s []].
    destruct (stockItems_sound symbols data items E) as [_ [_ H]]. exact H. }
  unfold fetchStockSpecificNews, stock_data_of in *.
  destruct (getApiKey w) as [apiKey|].
  - destruct (stockArticles _) as [data|].
    + split; [discriminate|]. split; [|split; [|split]].
      * intros data' a E Ha N. inversion E; subst data'.
        now rewrite (stockItems_thrown symbols data a Ha N).
      * intros data' E Hall. inversion E; subst data'.
        destruct (stockItems symbols data) as [items|] eqn:Ei.
        -- now destruct (stockItems_sound symbols data items Ei).
        -- exfalso. clear - Hall Ei.
           induction data as [|a rest IH]; simpl in Ei; [discriminate|].
           unfold stockItem in Ei at 1.
           destruct (art_entities a) eqn:Ea.
           ++ destruct (stockItems symbols rest); [discriminate|].
              apply IH; auto. intros b Hb. apply Hall. now right.
           ++ apply (Hall a); [now left | exact Ea].
      * exact R.
      * intros Hlow item Hin.
        destruct (item_relevantStocks item) as [|s l] eqn:Es; auto.
        exfalso. destruct (R item s Hin) as [Hs _]; [rewrite Es; now left|].
        apply (Hlow _ Hs). now rewrite toUpperCase_idem.
    + split; [auto|]. split; [discriminate|]. split; [discriminate|].
      split; [intros item s [] | intros _ item []].
  - split; [auto|]. split; [discriminate|]. split; [discriminate|].
    split; [intros item s [] | intros _ item []].
Qed.

Lemma stock_news_is_all_or_nothing_witness :
  map item_id (fetchStockSpecificNews keyword_outage tcs_provider ["TCS"])
  = ["u2"].
Proof.
  apply (proj1 (proj2 (proj2
           (stock_news_is_all_or_nothing keyword_outage tcs_provider
              ["TCS"]))) [tcs_article]).
  - reflexivity.
  - intros a [<- | []]. discriminate.
Defined.

End StockNewsFacts.
